(** * strong-remoting: the REST adapter (lib/rest-adapter.js)

    A shallow embedding of the route derivation, route composition, route
    ranking, method index and invocation entry points of the REST adapter,
    with the properties its specification states about them; and of its
    endpoints, arguments by name, programmatic invocation, listing of the
    routes and error handler, with further properties that the code has.

    Conventions of the embedding.
    - A JavaScript string is a [string]: a sequence of code units below 256
      (the Latin-1 range), compared with [<] and [>] code unit by code unit.
    - A JavaScript value that the code inspects dynamically (truthiness,
      [typeof], [String(...)], [+]) is a [value].
    - A thrown exception is the [Throw] case of [result].
    - An object used as a dictionary is a [gmap] over its string keys. *)

From Stdlib Require Import ZArith Ascii String List Bool Lia DecimalString.
From Stdlib Require Import Sorting.Sorted Sorting.Permutation.
From stdpp Require Import base option gmap strings list.

Local Open Scope string_scope.
Local Open Scope list_scope.
Local Open Scope Z_scope.

#[local] Arguments String.append !_ _ / : simpl nomatch.

(** ** Strings *)

Module Js.

(** [s.toLowerCase()] on code units below 256: the letters A-Z and the
    Latin-1 capitals U+00C0..U+00DE (U+00D7, the multiplication sign,
    excepted) move up by 32; every other code unit is its own lower case. *)
Definition lowerUnit (c : ascii) : ascii :=
  let n := N_of_ascii c in
  if ((65 <=? n) && (n <=? 90))%N
     || ((192 <=? n) && (n <=? 222) && negb (n =? 215))%N
  then ascii_of_N (n + 32) else c.

Fixpoint toLowerCase (s : string) : string :=
  match s with
  | EmptyString => EmptyString
  | String c s' => String (lowerUnit c) (toLowerCase s')
  end.

(** [a < b] and [a > b] on strings. *)
Definition lt (a b : string) : bool := String.ltb a b.
Definition gt (a b : string) : bool := String.ltb b a.

(** [s.split(sep)] for a one-character separator: never empty, and
    [''.split('/')] is [['']]. *)
Fixpoint split (sep : ascii) (s : string) : list string :=
  match s with
  | EmptyString => [EmptyString]
  | String c s' =>
      if Ascii.eqb c sep then EmptyString :: split sep s'
      else match split sep s' with
           | seg :: segs => String c seg :: segs
           | [] => [String c EmptyString]
           end
  end.

(** [l.join(sep)]. *)
Fixpoint join (sep : ascii) (l : list string) : string :=
  match l with
  | [] => EmptyString
  | [s] => s
  | s :: l' => (s ++ String sep (join sep l'))%string
  end.

(** [s.indexOf(c) > -1] for a character [c]. *)
Fixpoint contains (c : ascii) (s : string) : bool :=
  match s with
  | EmptyString => false
  | String d s' => Ascii.eqb d c || contains c s'
  end.

(** [s[0]] and [s[s.length - 1]]: the character as a string, or [None] for
    [undefined] when [s] is empty. *)
Definition first (s : string) : option string :=
  match s with
  | EmptyString => None
  | String c _ => Some (String c EmptyString)
  end.

Fixpoint last (s : string) : option string :=
  match s with
  | EmptyString => None
  | String c EmptyString => Some (String c EmptyString)
  | String _ s' => last s'
  end.

(** [s.slice(1)]. *)
Definition slice1 (s : string) : string :=
  match s with
  | EmptyString => EmptyString
  | String _ s' => s'
  end.

(** ** Values

    The values a route declaration can carry.  [VNumber n] is the number
    with the integer value [n] (a safe integer, so that its string is its
    decimal notation), [VNaN] is [NaN], and [VObject] is a plain object with
    no properties of its own, whose string is ["[object Object]"]. *)
Inductive value : Type :=
| VUndefined
| VNull
| VBool (b : bool)
| VNumber (n : Z)
| VNaN
| VString (s : string)
| VObject.

(** [!!v]. *)
Definition truthy (v : value) : bool :=
  match v with
  | VUndefined | VNull | VNaN => false
  | VBool b => b
  | VNumber n => negb (n =? 0)
  | VString s => negb (String.eqb s "")
  | VObject => true
  end.

(** [typeof v === 'string']. *)
Definition isString (v : value) : bool :=
  match v with VString _ => true | _ => false end.

(** [String(v)]. *)
Definition toString (v : value) : string :=
  match v with
  | VUndefined => "undefined"
  | VNull => "null"
  | VBool true => "true"
  | VBool false => "false"
  | VNumber n => NilZero.string_of_int (Z.to_int n)
  | VNaN => "NaN"
  | VString s => s
  | VObject => "[object Object]"
  end.

(** [a || b]. *)
Definition or (a b : value) : value := if truthy a then a else b.

(** [a + b]: concatenation of the strings as soon as one side is a string
    or an object, the sum of the numbers otherwise. *)
Definition toNumber (v : value) : option Z :=
  match v with
  | VNull => Some 0
  | VBool b => Some (if b then 1 else 0)
  | VNumber n => Some n
  | _ => None
  end.

Definition add (a b : value) : value :=
  match a, b with
  | (VString _ | VObject), _ | _, (VString _ | VObject) =>
      VString (toString a ++ toString b)%string
  | _, _ =>
      match toNumber a, toNumber b with
      | Some x, Some y => VNumber (x + y)
      | _, _ => VNaN
      end
  end.

(** [v === s], and [v == s] for a string literal [s] that is not a numeral:
    among the values, only the string [s] itself is loosely equal to it. *)
Definition eqStr (v : value) (s : string) : bool :=
  match v with
  | VString t => String.eqb t s
  | _ => false
  end.

(** [v[0]], [v[v.length - 1]] and [v[i]]: characters of a string,
    [undefined] on anything else (a number, a boolean or a plain object has
    no [length] and no such property). *)
Definition ofOption (o : option string) : value :=
  match o with Some s => VString s | None => VUndefined end.

Definition index0 (v : value) : value :=
  match v with VString s => ofOption (first s) | _ => VUndefined end.

Definition indexLast (v : value) : value :=
  match v with VString s => ofOption (last s) | _ => VUndefined end.

Definition index (v : value) (i : nat) : value :=
  match v with
  | VString s => ofOption (option_map (fun c => String c EmptyString) (String.get i s))
  | _ => VUndefined
  end.

End Js.

Import Js.

(** ** Exceptions *)

Inductive result (A : Type) : Type :=
| Ok (a : A)
| Throw (message : string).
Arguments Ok {A} a.
Arguments Throw {A} message.

Definition result_bind {A B : Type} (f : A -> result B) (r : result A) : result B :=
  match r with
  | Ok a => f a
  | Throw m => Throw m
  end.

#[global] Instance result_mbind : MBind result := @result_bind.
#[global] Instance result_mret : MRet result := @Ok.

(** The error of [undefined.f] and of [v.f()] for a [v] that has no [f]. *)
Definition TypeError {A : Type} : result A := Throw "TypeError".

(** [v.toLowerCase()] and [v.split('/')] are there for strings only. *)
Definition callToLowerCase (v : value) : result string :=
  match v with
  | VString s => Ok (toLowerCase s)
  | _ => TypeError
  end.

Definition callSplit (v : value) : result (list string) :=
  match v with
  | VString s => Ok (split "/" s)
  | _ => TypeError
  end.

(** ** The inflection package

    The adapter rewrites a path segment with
    [inflection.transform(match, ['underscore', 'dasherize'])].  The package
    is a dependency of the adapter: below, the adapter is developed over an
    arbitrary [transform], and this module gives the transform of the
    package itself, to run the adapter on concrete paths. *)
Module Inflection.

Definition isUpperAZ (c : ascii) : bool :=
  let n := N_of_ascii c in ((65 <=? n) && (n <=? 90))%N.

(** [str.replace(/([A-Z])/g, '_$1')]. *)
Fixpoint underbarCapitals (s : string) : string :=
  match s with
  | EmptyString => EmptyString
  | String c s' =>
      if isUpperAZ c then String "_" (String c (underbarCapitals s'))
      else String c (underbarCapitals s')
  end.

(** [str.replace(/^_/, '')]. *)
Definition dropUnderbarPrefix (s : string) : string :=
  match s with
  | String c s' => if Ascii.eqb c "_" then s' else s
  | EmptyString => s
  end.

(** [str.split('::')]. *)
Definition consUnit (c : ascii) (parts : list string) : list string :=
  match parts with
  | seg :: segs => String c seg :: segs
  | [] => [String c EmptyString]
  end.

Fixpoint splitColons (s : string) : list string :=
  match s with
  | EmptyString => [EmptyString]
  | String c s' =>
      match s' with
      | String d s'' =>
          if Ascii.eqb c ":" && Ascii.eqb d ":" then EmptyString :: splitColons s''
          else consUnit c (splitColons s')
      | EmptyString => consUnit c (splitColons s')
      end
  end.

(** [inflection.underscore(str)]: each part between [::] gets an underbar
    before every capital and loses a leading underbar; the parts are joined
    with [/] and the whole is lowercased. *)
Definition underscore (s : string) : string :=
  toLowerCase
    (join "/" (map (fun part => dropUnderbarPrefix (underbarCapitals part))
                   (splitColons s))).

(** [inflection.dasherize(str)]: [str.replace(/[ _]/g, '-')]. *)
Definition dasherizeUnit (c : ascii) : ascii :=
  if Ascii.eqb c " " || Ascii.eqb c "_" then "-"%char else c.

Fixpoint dasherize (s : string) : string :=
  match s with
  | EmptyString => EmptyString
  | String c s' => String (dasherizeUnit c) (dasherize s')
  end.

Definition transform (s : string) : string := dasherize (underscore s).

End Inflection.

(** ** The router of express

    The route methods of a router of express 4 on Node.js 18: the names of
    [http.METHODS] in lower case, which the [methods] package gives, and
    [all]. *)
Module Express.

Definition methods : list string :=
  [ "acl"; "bind"; "checkout"; "connect"; "copy"; "delete"; "get"; "head";
    "link"; "lock"; "m-search"; "merge"; "mkactivity"; "mkcalendar"; "mkcol";
    "move"; "notify"; "options"; "patch"; "post"; "propfind"; "proppatch";
    "purge"; "put"; "rebind"; "report"; "search"; "source"; "subscribe";
    "trace"; "unbind"; "unlink"; "unlock"; "unsubscribe"; "all" ].

Definition isRouterMethod (verb : string) : bool :=
  existsb (String.eqb verb) methods.

End Express.

(** ** Plain objects

    The properties that a plain object [{}] inherits from
    [Object.prototype]: each is a function, or an object for [__proto__],
    so that each is truthy and none has a property [sharedMethod]. *)
Module ObjectPrototype.

Definition names : list string :=
  [ "constructor"; "__defineGetter__"; "__defineSetter__"; "hasOwnProperty";
    "__lookupGetter__"; "__lookupSetter__"; "isPrototypeOf";
    "propertyIsEnumerable"; "toString"; "valueOf"; "__proto__";
    "toLocaleString" ].

Definition inheritedName (name : string) : bool :=
  existsb (String.eqb name) names.

End ObjectPrototype.

(** ** Route composition *)

(** [joinPaths(left, right)].  [right.slice(1)] is reached only when the
    glue is ['//'], that is when both sides are strings. *)
Definition joinPaths (left right : value) : value :=
  if negb (truthy left) then right
  else if negb (truthy right) || eqStr right "/" then left
  else
    let glue := add (indexLast left) (index0 right) in
    if eqStr glue "//" then
      add left (VString (slice1 (toString right)))
    else if eqStr (index glue 0) "/" || eqStr (index glue 1) "/" then
      add left right
    else
      add (add left (VString "/")) right.

(** ** Data model *)

(** A route object: [{verb: ..., path: ...}]. *)
Record Route : Type := mkRoute {
  verb : value;
  path : value;
}.

(** The [http] property of a shared class or method: absent, one route
    object, or an array of route objects. *)
Inductive Http : Type :=
| HttpAbsent
| HttpRoute (r : Route)
| HttpRoutes (rs : list Route).

(** An options object, of the adapter or of a shared class; a property is
    [VUndefined] when it is not set. *)
Record Options : Type := mkOptions {
  optNormalizeHttpPath : value;
  optHandleUnknownPaths : value;
  optHandleErrors : value;
}.

(** What a shared method sees of its class through [method.sharedClass]. *)
Record SharedClassRef : Type := mkSharedClassRef {
  refOptions : option Options;
}.

(** The properties of [obj] that [getRoutes] reads; [sharedClass] is [None]
    when [obj] is a shared class itself. *)
Record Obj : Type := mkObj {
  http : Http;
  name : value;
  sharedClass : option SharedClassRef;
  options : option Options;
}.

(** A shared method of the registry, as far as the adapter reads it.
    [restBefore] and [restAfter] tell whether [rest.before] and [rest.after]
    are set. *)
Record SharedMethod : Type := mkSharedMethod {
  methodName : value;
  methodHttp : Http;
  methodSharedClass : SharedClassRef;
  isStatic : bool;
  isSharedCtor : bool;
  stringName : string;
  restBefore : bool;
  restAfter : bool;
}.

(** A shared class of the registry: [methods] is the result of
    [sharedClass.methods()]. *)
Record SharedClass : Type := mkSharedClass {
  className : value;
  classHttp : Http;
  classOptions : option Options;
  sharedCtor : option SharedMethod;
  methods : list SharedMethod;
}.

Definition objOfMethod (m : SharedMethod) : Obj :=
  {| http := methodHttp m; name := methodName m;
     sharedClass := Some (methodSharedClass m); options := None |}.

Definition objOfClass (c : SharedClass) : Obj :=
  {| http := classHttp c; name := className c;
     sharedClass := None; options := classOptions c |}.

(** [{route: route, method: sharedMethod}], the elements [createHandler]
    sorts. *)
Record RouteEntry : Type := mkRouteEntry {
  route : Route;
  method : SharedMethod;
}.

(** ** Path normalization and route derivation *)

(** [str.replace(/[^\/]+/g, f)]: every maximal run of characters other than
    [/] is replaced by [f] of it.  [run] is the run read so far. *)
Definition flushRun (f : string -> string) (run : string) : string :=
  match run with
  | EmptyString => EmptyString
  | _ => f run
  end.

Fixpoint replaceRuns (f : string -> string) (run s : string) : string :=
  match s with
  | EmptyString => flushRun f run
  | String c s' =>
      if Ascii.eqb c "/" then
        (flushRun f run ++ String "/" (replaceRuns f EmptyString s'))%string
      else replaceRuns f (run ++ String c EmptyString)%string s'
  end.

Definition untransformedPath (path : value) : value := path.

(** [(obj.sharedClass || obj).options]. *)
Definition classOptionsOf (obj : Obj) : option Options :=
  match sharedClass obj with
  | Some sc => refOptions sc
  | None => options obj
  end.

Section RestAdapter.

(** [fun match => inflection.transform(match, ['underscore', 'dasherize'])]. *)
Variable transform : string -> string.

(** The callback of [normalizeHttpPath]: placeholders are skipped. *)
Definition normalizeSegment (match_ : string) : string :=
  if contains ":" match_ then match_ else transform match_.

Definition normalizeHttpPath (path : value) : value :=
  match path with
  | VString s => VString (replaceRuns normalizeSegment EmptyString s)
  | _ => VUndefined
  end.

(** [toPath], chosen from the class options first and the adapter options
    second. *)
Definition selectNormalize (obj : Obj) (adapterOptions : option Options) : value :=
  let normalize :=
    match classOptionsOf obj with
    | Some o => optNormalizeHttpPath o
    | None => VUndefined
    end in
  match normalize, adapterOptions with
  | VUndefined, Some o => optNormalizeHttpPath o
  | _, _ => normalize
  end.

Definition toPathOf (normalize : value) : value -> value :=
  if truthy normalize then normalizeHttpPath else untransformedPath.

(** The patch [getRoutes] applies to each declared route. *)
Definition patchRoute (toPath : value -> value) (obj : Obj) (r : Route) : Route :=
  {| verb := VString (toLowerCase (toString (or (verb r) (VString "all"))));
     path := toPath (or (path r) (add (VString "/") (name obj))) |}.

(** [getRoutes(obj, options)].  The declared routes are patched in place:
    the routes returned are also what [obj.http] holds after the call, and
    a later call patches them again. *)
Definition getRoutes (obj : Obj) (adapterOptions : option Options) : list Route :=
  let routes :=
    match http obj with
    | HttpAbsent => None
    | HttpRoute r => Some [r]
    | HttpRoutes rs => Some rs
    end in
  let toPath := toPathOf (selectNormalize obj adapterOptions) in
  match routes with
  | Some routes => map (patchRoute toPath obj) routes
  | None =>
      if eqStr (name obj) "sharedCtor" then
        [ {| verb := VString "all"; path := VString "/prototype" |} ]
      else
        [ {| verb := VString "all";
             path := if truthy (name obj)
                     then toPath (add (VString "/") (name obj))
                     else VString "" |} ]
  end.

(** [obj], as a call of [getRoutes] leaves it. *)
Definition patched (obj : Obj) (adapterOptions : option Options) : Obj :=
  let toPath := toPathOf (selectNormalize obj adapterOptions) in
  {| http :=
       match http obj with
       | HttpAbsent => HttpAbsent
       | HttpRoute r => HttpRoute (patchRoute toPath obj r)
       | HttpRoutes rs => HttpRoutes (map (patchRoute toPath obj) rs)
       end;
     name := name obj;
     sharedClass := sharedClass obj;
     options := options obj |}.

(** ** Rest classes and methods *)

Record RestMethod : Type := mkRestMethod {
  sharedMethod : SharedMethod;
  fullName : string;
  restName : string;
  routes : list Route;
}.

Record RestClass : Type := mkRestClass {
  restSharedClass : SharedClass;
  restClassName : value;
  restOptions : option Options;
  classRoutes : list Route;
  ctor : option RestMethod;
  restMethods : list RestMethod;
}.

(** [new RestMethod(restClass, sharedMethod)], from the two properties of
    [restClass] it reads: [restClass.options] and [restClass.ctor]. *)
Definition newRestMethod (restClassOptions : option Options)
    (restClassCtor : option RestMethod) (sm : SharedMethod) : RestMethod :=
  let fullName := stringName sm in
  let methodRoutes := getRoutes (objOfMethod sm) restClassOptions in
  {| sharedMethod := sm;
     fullName := fullName;
     restName := join "." (drop 1 (split "." fullName));
     routes :=
       match isStatic sm, restClassCtor with
       | false, Some ctor =>
           flat_map (fun route =>
             map (fun ctorRoute =>
                    {| verb := verb route;
                       path := joinPaths (path ctorRoute) (path route) |})
                 (routes ctor))
             methodRoutes
       | _, _ => methodRoutes
       end |}.

(** [new RestClass(sharedClass, adapterOptions)]: the constructor's rest
    method is built while [this.ctor] is still unset. *)
Definition newRestClass (sc : SharedClass) (adapterOptions : option Options) : RestClass :=
  let ctor := option_map (newRestMethod adapterOptions None) (sharedCtor sc) in
  {| restSharedClass := sc;
     restClassName := className sc;
     restOptions := adapterOptions;
     classRoutes := getRoutes (objOfClass sc) adapterOptions;
     ctor := ctor;
     restMethods :=
       map (newRestMethod adapterOptions ctor)
           (filter (fun sm => isSharedCtor sm = false) (methods sc)) |}.

(** [adapter.getClasses()], from [remotes.classes(this.options)]. *)
Definition getClasses (remotesClasses : list SharedClass)
    (adapterOptions : option Options) : list RestClass :=
  map (fun c => newRestClass c adapterOptions) remotesClasses.

End RestAdapter.

(** ** Route ranking *)

(** [verb === 'del' ? 'delete' : verb]. *)
Definition normalizeDel (verb : string) : string :=
  if String.eqb verb "del" then "delete" else verb.

(** [part[0] === ':']. *)
Definition isWildcard (part : string) : bool :=
  match part with
  | String c _ => Ascii.eqb c ":"
  | EmptyString => false
  end.

Definition isEmpty (part : string) : bool := String.eqb part "".

(** The loop of [sortRoutes] over the parts of the two paths, up to the
    shorter one: [Some z] when it returns [z], [None] when it runs to its
    end. *)
Fixpoint compareParts (p1 p2 : list string) : option Z :=
  match p1, p2 with
  | s1 :: p1', s2 :: p2' =>
      if isEmpty s1 && negb (isEmpty s2) then Some 1
      else if negb (isEmpty s1) && isEmpty s2 then Some (-1)
      else if isWildcard s1 && negb (isWildcard s2) then Some 1
      else if negb (isWildcard s1) && isWildcard s2 then Some (-1)
      else if Js.gt s1 s2 then Some 1
      else if Js.lt s1 s2 then Some (-1)
      else compareParts p1' p2'
  | _, _ => None
  end.

Definition comparePaths (p1 p2 : list string) : Z :=
  match compareParts p1 p2 with
  | Some z => z
  | None => Z.of_nat (length p2) - Z.of_nat (length p1)
  end.

Definition sortRoutes (r1 r2 : RouteEntry) : result Z :=
  let a := route r1 in
  let b := route r2 in
  verb1 ← callToLowerCase (verb a);
  verb2 ← callToLowerCase (verb b);
  let verb1 := normalizeDel verb1 in
  let verb2 := normalizeDel verb2 in
  if Js.gt verb1 verb2 then Ok (-1)
  else if Js.lt verb1 verb2 then Ok 1
  else
    p1 ← callSplit (path a);
    p2 ← callSplit (path b);
    Ok (comparePaths p1 p2).

(** [array.sort(compare)]: a stable sort, which an exception of [compare]
    ends.  The algorithm is the engine's; here each element, from the last
    to the first, is put before the first element of the sorted rest that
    it does not come after.  When [compare] does not fail, a stable sort
    has one possible result, whichever its algorithm ([sortBy_unique]
    below). *)
Section Sort.
Context {A : Type} (compare : A -> A -> result Z).

Fixpoint insertSorted (x : A) (l : list A) : result (list A) :=
  match l with
  | [] => Ok [x]
  | y :: l' =>
      c ← compare x y;
      if c <=? 0 then Ok (x :: y :: l')
      else l'' ← insertSorted x l'; Ok (y :: l'')
  end.

Fixpoint sort (l : list A) : result (list A) :=
  match l with
  | [] => Ok []
  | x :: l' => sorted ← sort l'; insertSorted x sorted
  end.
End Sort.

(** ** The route table *)

(** [remotes.options], as far as [createHandler] decides on it, and the
    registry behind [remotes.classes(options)]. *)
Record Remotes : Type := mkRemotes {
  cors : value;
  classes : list SharedClass;
}.

Record RestAdapter : Type := mkRestAdapter {
  remotes : Remotes;
  adapterOptions : Options;
}.

(** The handlers [_registerMethodRouteHandlers] chooses between. *)
Inductive Handler : Type :=
| restStaticMethodHandler (m : SharedMethod)
| restPrototypeMethodHandler (m : SharedMethod).

(** What a class router is asked to hold, in the order of the calls:
    [router[verb](path, handler)] and
    [router.use(remoteMethodNotFoundHandler(className))]. *)
Inductive ClassLayer : Type :=
| MethodRoute (verb : value) (path : value) (handler : Handler)
| RemoteMethodNotFound (className : value).

(** What the root router is asked to hold, in the order of the calls;
    [Mount path router] is [root.use(path, router)]. *)
Inductive RootLayer : Type :=
| TolerateEmptyJson
| Urlencoded
| Json
| Mount (path : value) (router : list ClassLayer)
| UrlNotFound
| ErrorHandler.

Definition doubleQuote : string := String (ascii_of_N 34) EmptyString.

Definition corsErrorMessage : string :=
  ("The REST adapter no longer comes with a built-in CORS middleware, "
   ++ "the config option " ++ doubleQuote ++ "remoting.cors" ++ doubleQuote
   ++ " is no longer available."
   ++ "See https://docs.strongloop.com/display/public/LB/Security+considerations"
   ++ " for more details.")%string.

(** [v !== undefined && v !== false]. *)
Definition notUndefinedNorFalse (v : value) : bool :=
  match v with
  | VUndefined | VBool false => false
  | _ => true
  end.

(** [!(options && options.flag === false)], for the options object of an
    adapter. *)
Definition notExactlyFalse (flag : value) : bool :=
  match flag with
  | VBool false => false
  | _ => true
  end.

Definition _shouldHandleUnknownPaths (adapter : RestAdapter) : bool :=
  notExactlyFalse (optHandleUnknownPaths (adapterOptions adapter)).

Definition _shouldHandleErrors (adapter : RestAdapter) : bool :=
  notExactlyFalse (optHandleErrors (adapterOptions adapter)).

(** The handler [_registerMethodRouteHandlers] creates for a method. *)
Definition handlerOf (sharedMethod : SharedMethod) : Handler :=
  if isStatic sharedMethod then restStaticMethodHandler sharedMethod
  else restPrototypeMethodHandler sharedMethod.

(** [list.forEach(f)], for an [f] that can throw: the calls, in order, up
    to the first exception. *)
Fixpoint forEach {A B : Type} (f : A -> result B) (l : list A) : result (list B) :=
  match l with
  | [] => Ok []
  | x :: l' => y ← f x; ys ← forEach f l'; Ok (y :: ys)
  end.

Section RouteTable.

Variable transform : string -> string.

(** The router is the one of express: [isRouterMethod verb] tells whether
    [router[verb]] is one of its route methods ([get], [post], ..., [all]).
    For any other [verb], what [router[verb](path, handler)] does is up to
    the router: [memberError verb path] is the exception of the call, a
    [TypeError] when [router[verb]] is not a function, and [None] when
    [router[verb]] is another function of the router ([use], [param],
    [route], or one that it inherits) that returns.  A verb that is not a
    string ([undefined], [null], a boolean, a number, a plain object) names
    no property of a router, and the call throws. *)
Variable isRouterMethod : string -> bool.
Variable memberError : string -> value -> option string.

(** [root.use(path, router)] makes a layer of express for [path]:
    [mountError path] is the exception of path-to-regexp for a path that it
    does not compile, [None] when it compiles the path. *)
Variable mountError : value -> option string.

(** [name in {}]: whether a plain object inherits a property of this name
    from [Object.prototype]. *)
Variable inheritedName : string -> bool.

Definition _registerMethodRouteHandlers (sharedMethod : SharedMethod)
    (route : Route) : result ClassLayer :=
  let handler := handlerOf sharedMethod in
  let verb := if eqStr (verb route) "del" then VString "delete" else verb route in
  match verb with
  | VString v =>
      if isRouterMethod v then Ok (MethodRoute verb (path route) handler)
      else match memberError v (path route) with
           | Some exception => Throw exception
           | None => Ok (MethodRoute verb (path route) handler)
           end
  | _ => TypeError
  end.

(** The array [methods] of [createHandler]: the routes of all the methods
    of a class, each with its shared method. *)
Definition classEntries (restClass : RestClass) : list RouteEntry :=
  flat_map (fun restMethod =>
              map (fun route => {| route := route;
                                   method := sharedMethod restMethod |})
                  (routes restMethod))
           (restMethods restClass).

(** The router of one class: its routes, sorted, then the 404 handler. *)
Definition classRouter (handleUnknownPaths : bool) (restClass : RestClass)
    : result (list ClassLayer) :=
  let className := className (restSharedClass restClass) in
  let methods := classEntries restClass in
  methods ← sort sortRoutes methods;
  registered ←
    forEach (fun m => _registerMethodRouteHandlers (method m) (route m)) methods;
  Ok (registered
      ++ (if handleUnknownPaths then [RemoteMethodNotFound className] else [])).

(** [root.use(route.path, router)]. *)
Definition mount (router : list ClassLayer) (route : Route) : result RootLayer :=
  match mountError (path route) with
  | Some exception => Throw exception
  | None => Ok (Mount (path route) router)
  end.

(** [classes.forEach(...)]: each class router is mounted on all the routes
    of its class, before the router of the next class is made. *)
Fixpoint mountClasses (handleUnknownPaths : bool) (classes : list RestClass)
    : result (list RootLayer) :=
  match classes with
  | [] => Ok []
  | restClass :: rest =>
      router ← classRouter handleUnknownPaths restClass;
      mounts ← forEach (mount router) (classRoutes restClass);
      mounted ← mountClasses handleUnknownPaths rest;
      Ok (mounts ++ mounted)
  end.

Definition createHandler (adapter : RestAdapter) : result (list RootLayer) :=
  let corsOptions := cors (remotes adapter) in
  if notUndefinedNorFalse corsOptions then Throw corsErrorMessage
  else
    let classes :=
      getClasses transform (classes (remotes adapter))
                 (Some (adapterOptions adapter)) in
    let handleUnknownPaths := _shouldHandleUnknownPaths adapter in
    mounted ← mountClasses handleUnknownPaths classes;
    Ok ([TolerateEmptyJson; Urlencoded; Json]
        ++ mounted
        ++ (if handleUnknownPaths then [UrlNotFound] else [])
        ++ (if _shouldHandleErrors adapter then [ErrorHandler] else [])).

(** ** The method index *)

(** [_createRestMethodByNameCache]: a later method of the same full name
    replaces an earlier one.  The finite map is the own properties of the
    object: the keys written are full names, [Class.method] or
    [Class.prototype.method], and each makes an own property. *)
Definition _createRestMethodByNameCache (classes : list RestClass)
    : gmap string RestMethod :=
  foldl (fun restMethodByNameMap restClass =>
           foldl (fun map restMethod => <[fullName restMethod := restMethod]> map)
                 restMethodByNameMap (restMethods restClass))
        ∅ classes.

(** [cache[name]]: the rest method that is the own property of that name;
    without one, what the object inherits under that name, a value that is
    truthy and is no rest method; [undefined] otherwise. *)
Inductive Property : Type :=
| OwnMethod (restMethod : RestMethod)
| Inherited
| Missing.

Definition cacheGet (cache : gmap string RestMethod) (name : string) : Property :=
  match cache !! name with
  | Some restMethod => OwnMethod restMethod
  | None => if inheritedName name then Inherited else Missing
  end.

(** The state of the adapter that a lookup reads and writes.  [cacheBuilds]
    is not a property of the adapter: it counts the calls of
    [_createRestMethodByNameCache]. *)
Record IndexState : Type := mkIndexState {
  _cachedRestMethodsByName : option (gmap string RestMethod);
  cacheBuilds : nat;
}.

(** [getRestMethodByName(name)].  [registry] is what
    [remotes.classes(options)] returns at the time of the call and
    [isMethodEnabled] is the answer of the shared class at that time.  A
    rebuild derives the routes of the registry, which patches its declared
    routes in place: a later call is given the registry as it is then. *)
Definition getRestMethodByName (adapterOptions : Options)
    (registry : list SharedClass) (isMethodEnabled : SharedMethod -> bool)
    (name : string) (st : IndexState)
    : result (option RestMethod) * IndexState :=
  let ret :=
    match _cachedRestMethodsByName st with
    | Some cache => cacheGet cache name
    | None => Missing
    end in
  let '(ret, st) :=
    match ret with
    | Missing =>
        let cache :=
          _createRestMethodByNameCache
            (getClasses transform registry (Some adapterOptions)) in
        (cacheGet cache name,
         {| _cachedRestMethodsByName := Some cache;
            cacheBuilds := S (cacheBuilds st) |})
    | _ => (ret, st)
    end in
  match ret with
  | OwnMethod m =>
      (Ok (if isMethodEnabled (sharedMethod m) then Some m else None), st)
  | Inherited =>
      (* [ret.sharedMethod] is [undefined], and [.sharedClass] throws *)
      (TypeError, st)
  | Missing => (Ok None, st)
  end.

End RouteTable.

(** ** The invocation pipeline

    The context, the shared constructor, the hooks and the method are not
    the adapter's: the pipeline is developed over what they answer.  An
    asynchronous step is a function of the context it finds to the context
    it leaves and the error it passes to its callback, if any. *)
Section Pipeline.

Variables Err Inst Data : Type.

(** The context of one request: the two slots the adapter writes, and the
    rest. *)
Record Context : Type := mkContext {
  sharedCtorError : option Err;
  instance : option Inst;
  ctxData : Data;
}.

Definition Step : Type := Context -> Context * option Err.

(** [ctx.invoke(sharedMethod.ctor, sharedMethod.sharedCtor, callback, true)]:
    the context the callback finds, and the [err] and [inst] it is called
    with. *)
Variable invokeSharedCtor : SharedMethod -> Context -> Context * option Err * option Inst.
(** [method.rest.before.call(scope, ctx, cb)] and [method.rest.after]. *)
Variable restBeforeHook restAfterHook : SharedMethod -> Step.
(** [remotes.invokeMethodInContext(ctx, cb)]. *)
Variable invokeMethodInContext : Step.
(** [ctx.done(cb)]. *)
Variable done : Step.

(** What a handler does, in order. *)
Inductive Event : Type :=
| SharedCtorInvoked
| RestBefore (ctx : Context)
| MethodInvokedInContext (ctx : Context)
| RestAfter (ctx : Context)
| Done (ctx : Context)
| Next (err : Err).

(** [async.series(steps, callback)]: the steps run in order up to the first
    error; the result is the context left, the error, and the events. *)
Fixpoint series (steps : list ((Context -> Event) * Step)) (ctx : Context)
    : Context * option Err * list Event :=
  match steps with
  | [] => (ctx, None, [])
  | (event, step) :: steps' =>
      match step ctx with
      | (ctx', Some err) => (ctx', Some err, [event ctx])
      | (ctx', None) =>
          let '(ctx'', err, events) := series steps' ctx' in
          (ctx'', err, event ctx :: events)
      end
  end.

Definition _invokeMethod (ctx : Context) (method : SharedMethod)
    : Context * list Event :=
  let steps :=
    (if restBefore method then [(RestBefore, restBeforeHook method)] else [])
    ++ [(MethodInvokedInContext, invokeMethodInContext)]
    ++ (if restAfter method then [(RestAfter, restAfterHook method)] else []) in
  match series steps ctx with
  | (ctx, Some err, events) => (ctx, events ++ [Next err])
  | (ctx, None, events) =>
      match done ctx with
      | (ctx', Some err) => (ctx', events ++ [Done ctx; Next err])
      | (ctx', None) => (ctx', events ++ [Done ctx])
      end
  end.

(** The callback of [restPrototypeMethodHandler], up to its call of
    [_invokeMethod]. *)
Definition storeSharedCtorResult (ctx : Context) (err : option Err)
    (inst : option Inst) : Context :=
  match err with
  | Some e => {| sharedCtorError := Some e; instance := instance ctx;
                 ctxData := ctxData ctx |}
  | None => {| sharedCtorError := sharedCtorError ctx; instance := inst;
               ctxData := ctxData ctx |}
  end.

(** The handlers, from the context [new Context(...)] has built. *)
Definition runStaticMethodHandler (sharedMethod : SharedMethod) (ctx : Context)
    : Context * list Event :=
  _invokeMethod ctx sharedMethod.

Definition runPrototypeMethodHandler (sharedMethod : SharedMethod) (ctx : Context)
    : Context * list Event :=
  let '(ctx, err, inst) := invokeSharedCtor sharedMethod ctx in
  let ctx := storeSharedCtorResult ctx err inst in
  let '(ctx, events) := _invokeMethod ctx sharedMethod in
  (ctx, SharedCtorInvoked :: events).

Definition runHandler (handler : Handler) : Context -> Context * list Event :=
  match handler with
  | restStaticMethodHandler sharedMethod => runStaticMethodHandler sharedMethod
  | restPrototypeMethodHandler sharedMethod => runPrototypeMethodHandler sharedMethod
  end.

End Pipeline.

Arguments mkContext {Err Inst Data}.
Arguments sharedCtorError {Err Inst Data}.
Arguments instance {Err Inst Data}.
Arguments ctxData {Err Inst Data}.
Arguments SharedCtorInvoked {Err Inst Data}.
Arguments RestBefore {Err Inst Data}.
Arguments MethodInvokedInContext {Err Inst Data}.
Arguments RestAfter {Err Inst Data}.
Arguments Done {Err Inst Data}.
Arguments Next {Err Inst Data}.
Arguments series {Err Inst Data}.
Arguments _invokeMethod {Err Inst Data}.
Arguments storeSharedCtorResult {Err Inst Data}.
Arguments runStaticMethodHandler {Err Inst Data}.
Arguments runPrototypeMethodHandler {Err Inst Data}.
Arguments runHandler {Err Inst Data}.

(** ** Notions of the statements *)

(** The first part of a split, extended on its left by the run read so
    far. *)
Definition consRun (run : string) (parts : list string) : list string :=
  match parts with
  | [] => []
  | seg :: segs => (run ++ seg)%string :: segs
  end.

(** A match of [/[^\/]+/] that is not a placeholder: the strings the
    transform is applied to. *)
Definition plainRun (s : string) : bool :=
  negb (String.eqb s "") && negb (contains "/" s) && negb (contains ":" s).

Fixpoint allUnits (P : ascii -> bool) (s : string) : bool :=
  match s with
  | EmptyString => true
  | String c s' => P c && allUnits P s'
  end.

(** The code units the transform of the inflection package leaves alone. *)
Definition settledUnit (c : ascii) : bool :=
  negb (Inflection.isUpperAZ c) && Ascii.eqb (lowerUnit c) c
  && Ascii.eqb (Inflection.dasherizeUnit c) c.

(** A route entry whose verb and path are strings. *)
Definition entry (verb path : string) (m : SharedMethod) : RouteEntry :=
  {| route := {| verb := VString verb; path := VString path |}; method := m |}.

Definition stringEntry (e : RouteEntry) : bool :=
  isString (verb (route e)) && isString (path (route e)).

(** The verb as [sortRoutes] compares it. *)
Definition normalizeVerb (verb : string) : string :=
  normalizeDel (toLowerCase verb).

(** Orders given by a three-way comparison: the first comparison decides,
    the second one breaks its ties. *)
Definition lexCmp (c1 c2 : comparison) : comparison :=
  match c1 with
  | Eq => c2
  | _ => c1
  end.

(** Lists compared element by element; of a list and a proper prefix of it,
    the longer one comes first. *)
Fixpoint listCmp {A : Type} (cmp : A -> A -> comparison) (l1 l2 : list A)
    : comparison :=
  match l1, l2 with
  | [], [] => Eq
  | [], _ :: _ => Gt
  | _ :: _, [] => Lt
  | x :: l1', y :: l2' => lexCmp (cmp x y) (listCmp cmp l1' l2')
  end.

(** The three kinds of parts, in the order of their weight: a literal, a
    placeholder, the empty part. *)
Definition partClass (part : string) : nat :=
  if isEmpty part then 2 else if isWildcard part then 1 else 0.

Definition partCmp (s1 s2 : string) : comparison :=
  lexCmp (Nat.compare (partClass s1) (partClass s2)) (String.compare s1 s2).

(** The order of the routes: [Lt] when the first one is registered first. *)
Definition routeCmp (e1 e2 : string * string) : comparison :=
  lexCmp (String.compare (normalizeVerb (fst e2)) (normalizeVerb (fst e1)))
         (listCmp partCmp (split "/" (snd e1)) (split "/" (snd e2))).

(** A comparison that is a strict weak order: antisymmetric, with ties that
    are a congruence, and transitive. *)
Record StrictWeak {A : Type} (cmp : A -> A -> comparison) : Prop := {
  sw_antisym : forall x y, cmp y x = CompOpp (cmp x y);
  sw_tie : forall x y z, cmp x y = Eq -> cmp x z = cmp y z;
  sw_trans : forall x y z, cmp x y = Lt -> cmp y z = Lt -> cmp x z = Lt;
}.

(** [a] is not registered after [b]. *)
Definition notAfter (a b : RouteEntry) : Prop :=
  exists z, sortRoutes a b = Ok z /\ z <= 0.

(** [a] and [b] tie. *)
Definition tied (a b : RouteEntry) : bool :=
  match sortRoutes a b with
  | Ok z => z =? 0
  | Throw _ => false
  end.

(** The order of two route entries with string verbs and paths. *)
Definition entryCmp (a b : RouteEntry) : comparison :=
  routeCmp (toString (verb (route a)), toString (path (route a)))
           (toString (verb (route b)), toString (path (route b))).

(** The sort, for a comparison that does not fail. *)
Fixpoint insertBy {A : Type} (cmp : A -> A -> comparison) (x : A) (l : list A)
    : list A :=
  match l with
  | [] => [x]
  | y :: l' =>
      match cmp x y with
      | Gt => y :: insertBy cmp x l'
      | _ => x :: y :: l'
      end
  end.

Fixpoint sortBy {A : Type} (cmp : A -> A -> comparison) (l : list A) : list A :=
  match l with
  | [] => []
  | x :: l' => insertBy cmp x (sortBy cmp l')
  end.

Definition isTie {A : Type} (cmp : A -> A -> comparison) (x y : A) : bool :=
  match cmp x y with
  | Eq => true
  | _ => false
  end.

(** A route that can be sorted and registered: its path is a string and
    its verb names a route method of the router, [del] meaning [delete]. *)
Definition registrable (isRouterMethod : string -> bool) (e : RouteEntry) : Prop :=
  stringEntry e = true /\
  isRouterMethod (normalizeDel (toString (verb (route e)))) = true.

(** ** A registry to run the adapter on

    The class [Widget]: a static method [find] without declared route, an
    instance method [count], and a shared constructor declared on
    [/prototype/:id]. *)
Module Sample.

Definition noOptions : Options :=
  {| optNormalizeHttpPath := VUndefined; optHandleUnknownPaths := VUndefined;
     optHandleErrors := VUndefined |}.

Definition normalizing : Options :=
  {| optNormalizeHttpPath := VBool true; optHandleUnknownPaths := VUndefined;
     optHandleErrors := VUndefined |}.

Definition widgetRef : SharedClassRef := {| refOptions := None |}.

Definition find : SharedMethod :=
  {| methodName := VString "find"; methodHttp := HttpAbsent;
     methodSharedClass := widgetRef; isStatic := true; isSharedCtor := false;
     stringName := "Widget.find"; restBefore := false; restAfter := false |}.

Definition count : SharedMethod :=
  {| methodName := VString "count";
     methodHttp := HttpRoute {| verb := VString "GET"; path := VString "/count" |};
     methodSharedClass := widgetRef; isStatic := false; isSharedCtor := false;
     stringName := "Widget.prototype.count";
     restBefore := false; restAfter := false |}.

Definition widgetCtor : SharedMethod :=
  {| methodName := VString "sharedCtor";
     methodHttp := HttpRoute {| verb := VUndefined; path := VString "/prototype/:id" |};
     methodSharedClass := widgetRef; isStatic := true; isSharedCtor := true;
     stringName := "Widget.sharedCtor";
     restBefore := false; restAfter := false |}.

Definition Widget : SharedClass :=
  {| className := VString "Widget"; classHttp := HttpAbsent;
     classOptions := None; sharedCtor := Some widgetCtor;
     methods := [widgetCtor; find; count] |}.

(** [find], declared without a path, and declared with a number as its
    path. *)
Definition findWithoutPath : SharedMethod :=
  {| methodName := VString "find";
     methodHttp := HttpRoute {| verb := VString "get"; path := VUndefined |};
     methodSharedClass := {| refOptions := Some normalizing |};
     isStatic := true; isSharedCtor := false;
     stringName := "Widget.find"; restBefore := false; restAfter := false |}.

Definition findWithNumber : SharedMethod :=
  {| methodName := VString "find";
     methodHttp := HttpRoute {| verb := VString "get"; path := VNumber 5 |};
     methodSharedClass := {| refOptions := Some normalizing |};
     isStatic := true; isSharedCtor := false;
     stringName := "Widget.find"; restBefore := false; restAfter := false |}.

(** [count], declared with an empty array of routes, and its class. *)
Definition countWithoutRoutes : SharedMethod :=
  {| methodName := VString "count"; methodHttp := HttpRoutes [];
     methodSharedClass := widgetRef; isStatic := false; isSharedCtor := false;
     stringName := "Widget.prototype.count";
     restBefore := false; restAfter := false |}.

Definition WidgetWithoutRoutes : SharedClass :=
  {| className := VString "Widget"; classHttp := HttpAbsent;
     classOptions := None; sharedCtor := Some widgetCtor;
     methods := [widgetCtor; countWithoutRoutes] |}.

(** The state of an adapter that has looked [Widget.find] up once. *)
Definition restFind : RestMethod :=
  newRestMethod Inflection.transform (Some noOptions) None find.

Definition indexed : IndexState :=
  {| _cachedRestMethodsByName := Some {[ "Widget.find" := restFind ]};
     cacheBuilds := 1 |}.

(** The class [Gadget]: two static methods on [GET], one declared on a
    placeholder and, after it, one on a literal path. *)
Definition findById : SharedMethod :=
  {| methodName := VString "findById";
     methodHttp := HttpRoute {| verb := VString "get"; path := VString "/:id" |};
     methodSharedClass := widgetRef; isStatic := true; isSharedCtor := false;
     stringName := "Gadget.findById"; restBefore := false; restAfter := false |}.

Definition stats : SharedMethod :=
  {| methodName := VString "stats";
     methodHttp := HttpRoute {| verb := VString "get"; path := VString "/stats" |};
     methodSharedClass := widgetRef; isStatic := true; isSharedCtor := false;
     stringName := "Gadget.stats"; restBefore := false; restAfter := false |}.

Definition Gadget : SharedClass :=
  {| className := VString "Gadget"; classHttp := HttpAbsent;
     classOptions := None; sharedCtor := None;
     methods := [findById; stats] |}.

(** An adapter that does not normalize, a method [findByName] of a class
    that does, and a class [MyWidget] that does. *)
Definition notNormalizing : Options :=
  {| optNormalizeHttpPath := VBool false; optHandleUnknownPaths := VUndefined;
     optHandleErrors := VUndefined |}.

Definition findByName : SharedMethod :=
  {| methodName := VString "findByName";
     methodHttp := HttpRoute {| verb := VString "get"; path := VUndefined |};
     methodSharedClass := {| refOptions := Some normalizing |};
     isStatic := true; isSharedCtor := false;
     stringName := "MyWidget.findByName";
     restBefore := false; restAfter := false |}.

Definition MyWidget : SharedClass :=
  {| className := VString "MyWidget"; classHttp := HttpAbsent;
     classOptions := Some normalizing; sharedCtor := None;
     methods := [findByName] |}.

(** The router that the samples are run on.  Of express it has the route
    methods; the samples call no other member and mount string paths only,
    which it compiles as express does.  It stands in for express elsewhere:
    it has no other function, and it refuses a path that is not a string. *)
Definition memberError (member : string) (path : value) : option string :=
  Some "TypeError".

Definition mountError (path : value) : option string :=
  if isString path then None else Some "TypeError".

End Sample.

(** ** Endpoints

    [restClass.getPath()] and [restMethod.getPath()] read
    [this.routes[0].path]: of no route, [routes[0]] is [undefined] and the
    property access throws. *)
Definition firstPath (routes : list Route) : result value :=
  match routes with
  | r :: _ => Ok (path r)
  | [] => TypeError
  end.

Definition RestClass_getPath (restClass : RestClass) : result value :=
  firstPath (classRoutes restClass).

Definition RestMethod_getPath (restMethod : RestMethod) : result value :=
  firstPath (routes restMethod).

(** [{verb: ..., fullPath: ...}]. *)
Record Endpoint : Type := mkEndpoint {
  endpointVerb : string;
  fullPath : value;
}.

Section Endpoints.

(** [s.toUpperCase()], a built-in that does not stay within the code units
    below 256. *)
Variable toUpperCase : string -> string.

(** The callback of [getEndpoints], for the rest class of the method. *)
Definition endpointOf (restClass : RestClass) (route : Route) : result Endpoint :=
  let verb := verb route in
  verbResult ←
    (if eqStr verb "all" then Ok "POST"
     else if eqStr verb "del" then Ok "DELETE"
     else match verb with
          | VString s => Ok (toUpperCase s)
          | _ => TypeError
          end);
  classPath ← RestClass_getPath restClass;
  Ok {| endpointVerb := verbResult;
        fullPath := joinPaths classPath (path route) |}.

(** [restMethod.getEndpoints()]: [this.routes.map(...)]. *)
Definition getEndpoints (restClass : RestClass) (restMethod : RestMethod)
    : result (list Endpoint) :=
  forEach (endpointOf restClass) (routes restMethod).

(** [getEndpoints()[0]]. *)
Definition firstEndpoint (restClass : RestClass) (restMethod : RestMethod)
    : result Endpoint :=
  endpoints ← getEndpoints restClass restMethod;
  match endpoints with
  | e :: _ => Ok e
  | [] => TypeError
  end.

Definition getHttpMethod (restClass : RestClass) (restMethod : RestMethod)
    : result string :=
  e ← firstEndpoint restClass restMethod; Ok (endpointVerb e).

Definition getFullPath (restClass : RestClass) (restMethod : RestMethod)
    : result value :=
  e ← firstEndpoint restClass restMethod; Ok (fullPath e).

End Endpoints.

(** [toUpperCase] on the strings of code units below 128. *)
Definition upperUnit (c : ascii) : ascii :=
  let n := N_of_ascii c in
  if ((97 <=? n) && (n <=? 122))%N then ascii_of_N (n - 32) else c.

Fixpoint upperAscii (s : string) : string :=
  match s with
  | EmptyString => EmptyString
  | String c s' => String (upperUnit c) (upperAscii s')
  end.

(** ** Arguments by name *)

(** An element of [accepts], as far as [getArgByName] reads it. *)
Record Accept : Type := mkAccept {
  arg : value;
}.

(** The callback of [this.accepts.some(...)], from the index [i] on:
    [invokedArgs[i]] of the first declared argument whose name is [argName]
    up to case, [None] for [undefined]. *)
Fixpoint someArg {A : Type} (accepts : list Accept) (argName : value)
    (invokedArgs : list A) (i : nat) : result (option A) :=
  match accepts with
  | [] => Ok None
  | argProperty :: accepts' =>
      found ←
        (if truthy (arg argProperty) then
           declared ← callToLowerCase (arg argProperty);
           asked ← callToLowerCase argName;
           Ok (String.eqb declared asked)
         else Ok false);
      if found : bool then Ok (invokedArgs !! i)
      else someArg accepts' argName invokedArgs (S i)
  end.

(** [restMethod.getArgByName(argName, invokedArgs)]; [accepts] is [None]
    when the method has no [accepts]. *)
Definition getArgByName {A : Type} (accepts : option (list Accept))
    (argName : value) (invokedArgs : list A) : result (option A) :=
  match accepts with
  | None | Some [] => Ok None
  | Some accepts => someArg accepts argName invokedArgs 0
  end.

(** ** Programmatic invocation *)

(** What [_getInvocationAuth] returns: the global credentials, an object
    [{accessToken}], or [undefined]. *)
Inductive InvocationAuth (Auth Token : Type) : Type :=
| GlobalAuth (auth : Auth)
| AccessToken (accessToken : Token)
| NoAuth.
Arguments GlobalAuth {Auth Token} auth.
Arguments AccessToken {Auth Token} accessToken.
Arguments NoAuth {Auth Token}.

(** An argument of a call of [invoke]: an array, a function, or another
    value. *)
Inductive Arg (Item : Type) : Type :=
| ArgArray (items : list Item)
| ArgFunction (f : nat)
| ArgValue (v : value).
Arguments ArgArray {Item} items.
Arguments ArgFunction {Item} f.
Arguments ArgValue {Item} v.

(** [l[l.length - 1]]. *)
Fixpoint lastOf {A : Type} (l : list A) : option A :=
  match l with
  | [] => None
  | [x] => Some x
  | _ :: l' => lastOf l'
  end.

Section Invoke.

Variable transform : string -> string.

(** [name in {}], as for [getRestMethodByName]. *)
Variable inheritedName : string -> bool.

(** The values of the arguments of a remote method, the access tokens, the
    global credentials [remotes.auth], and the errors of the hooks and of
    the remote call. *)
Variables Item Token Auth Err : Type.

(** [v.accessToken], [None] when it is falsy. *)
Variable accessTokenOf : Item -> option Token.

(** [sharedMethod.accepts], which [restMethod.accepts] is. *)
Variable accepts : SharedMethod -> option (list Accept).

(** [_getInvocationAuth(invocationOptions)], from [this.remotes.auth] and
    [this.options.passAccessToken].  [auth] is [None] when [remotes.auth]
    is falsy: what is returned then without looking at the options is that
    falsy value, which stands for no credentials as [undefined] does. *)
Definition _getInvocationAuth (auth : option Auth) (passAccessToken : value)
    (invocationOptions : option Item) : InvocationAuth Auth Token :=
  match auth with
  | Some a => GlobalAuth a
  | None =>
      if negb (truthy passAccessToken) then NoAuth
      else
        match invocationOptions ≫= accessTokenOf with
        | Some accessToken => AccessToken accessToken
        | None => NoAuth
        end
  end.

(** What [new HttpInvocation(...)] is given, the connection apart. *)
Record Invocation : Type := mkInvocation {
  invRestMethod : RestMethod;
  invCtorArgs : list Item;
  invArgs : list Item;
  invAuth : InvocationAuth Auth Token;
}.

(** [remotes.execHooks('before', ...)], [invocation.invoke(...)] and
    [remotes.execHooks('after', ...)]: what each passes to its callback. *)
Variable execHooksBefore : Invocation -> option Err.
Variable invocationInvoke : Invocation -> Err + list Item.
Variable execHooksAfter : Invocation -> list Item -> option Err.

Inductive InvokeError : Type :=
| UnknownMethod (message : string)
| Failure (err : Err).

Inductive InvokeEvent : Type :=
| BeforeHooks (invocation : Invocation)
| RemoteInvoked (invocation : Invocation)
| AfterHooks (invocation : Invocation) (results : list Item)
| CallbackCalled (f : nat) (err : option InvokeError) (results : list Item).

(** What a call of [invoke] does, and the exception that ends it, if
    any. *)
Record InvokeRun : Type := mkInvokeRun {
  invokeEvents : list InvokeEvent;
  invokeThrown : option string;
}.

(** [callback(err, ...results)], for the [callback] that [invoke] has
    found: [undefined] is not a function. *)
Definition callCallback (callback : option nat) (err : option InvokeError)
    (results : list Item) : InvokeRun :=
  match callback with
  | Some f => {| invokeEvents := [CallbackCalled f err results];
                 invokeThrown := None |}
  | None => {| invokeEvents := []; invokeThrown := Some "TypeError" |}
  end.

Definition andThen (event : InvokeEvent) (run : InvokeRun) : InvokeRun :=
  {| invokeEvents := event :: invokeEvents run;
     invokeThrown := invokeThrown run |}.

(** The hooks and the remote call, once the method is found. *)
Definition invokeFound (callback : option nat) (invocation : Invocation)
    : InvokeRun :=
  andThen (BeforeHooks invocation)
    match execHooksBefore invocation with
    | Some err => callCallback callback (Some (Failure err)) []
    | None =>
        andThen (RemoteInvoked invocation)
          match invocationInvoke invocation with
          | inl err => callCallback callback (Some (Failure err)) []
          | inr results =>
              andThen (AfterHooks invocation results)
                match execHooksAfter invocation results with
                | Some err => callCallback callback (Some (Failure err)) []
                | None => callCallback callback None results
                end
          end
    end.

(** [adapter.invoke(...arguments)], [arguments[0]] being the method. *)
Definition invoke (remotesAuth : option Auth) (passAccessToken : value)
    (adapterOptions : Options) (registry : list SharedClass)
    (isMethodEnabled : SharedMethod -> bool) (connection : value)
    (arguments : list (Arg Item)) (st : IndexState) : InvokeRun * IndexState :=
  if negb (truthy connection) then
    ({| invokeEvents := []; invokeThrown := Some "AssertionError" |}, st)
  else
    match arguments !! 0%nat with
    | Some (ArgValue (VString method)) =>
        let callback :=
          match lastOf arguments with
          | Some (ArgFunction f) => Some f
          | _ => None
          end in
        let ctorArgs :=
          match arguments !! 1%nat with
          | Some (ArgArray items) => items
          | _ => []
          end in
        let '(ctorArgs, args) :=
          match arguments !! 2%nat with
          | Some (ArgArray items) => (ctorArgs, items)
          | _ => ([], ctorArgs)
          end in
        let '(restMethod, st) :=
          getRestMethodByName transform inheritedName adapterOptions registry
                              isMethodEnabled method st in
        match restMethod with
        | Throw message =>
            ({| invokeEvents := []; invokeThrown := Some message |}, st)
        | Ok None =>
            (callCallback callback
               (Some (UnknownMethod ("Cannot invoke unkown method: " ++ method)%string))
               [], st)
        | Ok (Some restMethod) =>
            match getArgByName (accepts (sharedMethod restMethod))
                               (VString "options") args with
            | Throw message =>
                ({| invokeEvents := []; invokeThrown := Some message |}, st)
            | Ok invokeOptions =>
                let auth :=
                  _getInvocationAuth remotesAuth passAccessToken invokeOptions in
                (invokeFound callback
                   {| invRestMethod := restMethod; invCtorArgs := ctorArgs;
                      invArgs := args; invAuth := auth |}, st)
            end
        end
    | _ => ({| invokeEvents := []; invokeThrown := Some "AssertionError" |}, st)
    end.

End Invoke.

Arguments BeforeHooks {Item Token Auth Err}.
Arguments RemoteInvoked {Item Token Auth Err}.
Arguments AfterHooks {Item Token Auth Err}.
Arguments CallbackCalled {Item Token Auth Err}.
Arguments UnknownMethod {Err}.
Arguments Failure {Err}.
Arguments mkInvocation {Item Token Auth}.
Arguments invRestMethod {Item Token Auth}.
Arguments invCtorArgs {Item Token Auth}.
Arguments invArgs {Item Token Auth}.
Arguments invAuth {Item Token Auth}.
Arguments invokeEvents {Item Token Auth Err}.
Arguments invokeThrown {Item Token Auth Err}.
Arguments _getInvocationAuth {Item Token Auth}.
Arguments callCallback {Item Token Auth Err}.
Arguments invokeFound {Item Token Auth Err}.
Arguments invoke transform inheritedName {Item Token Auth Err}.

(** ** The listing of the routes

    [allRoutes] adds one element for each route of each method, under each
    route of its class, with [addRoute]. *)

(** [s.replace(/\/\//g, '/')]: from left to right, each pair of slashes
    becomes one slash. *)
Fixpoint collapseSlashes (s : string) : string :=
  match s with
  | EmptyString => EmptyString
  | String c s' =>
      match s' with
      | String d s'' =>
          if Ascii.eqb c "/" && Ascii.eqb d "/"
          then String "/" (collapseSlashes s'')
          else String c (collapseSlashes s')
      | EmptyString => s
      end
  end.

(** [s.substr(0, s.length - 1)]. *)
Fixpoint dropLast (s : string) : string :=
  match s with
  | EmptyString => EmptyString
  | String _ EmptyString => EmptyString
  | String c s' => String c (dropLast s')
  end.

(** An element of the listing: the verb, the path and [method.stringName];
    the descriptions that [addRoute] copies from the method are left out. *)
Record RouteInfo : Type := mkRouteInfo {
  infoVerb : value;
  infoPath : string;
  infoMethod : string;
}.

(** The path of [addRoute], from [currentRoot]: a path that is not a
    string has no [replace]. *)
Definition addRoutePath (currentRoot path : value) : result string :=
  let path :=
    if eqStr path "/" || eqStr path "//" then currentRoot
    else add currentRoot path in
  match path with
  | VString s =>
      let s := if eqStr (indexLast path) "/" then dropLast s else s in
      Ok (collapseSlashes s)
  | _ => TypeError
  end.

Definition addRoute (currentRoot verb path : value) (method : SharedMethod)
    : result RouteInfo :=
  path ← addRoutePath currentRoot path;
  Ok {| infoVerb := verb; infoPath := path; infoMethod := stringName method |}.

(** ** The error handler *)

Section ErrorHandler.

Variable Err : Type.

(** What [options.handler] does when it is called: the [handlerError] of
    each call of [defaultHandler] it makes before it returns or throws,
    what it throws if it throws, and the [handlerError] of the calls it
    makes later.  A falsy [handlerError], and a falsy thrown value, is
    [None]. *)
Record HandlerRun : Type := mkHandlerRun {
  defaultCalls : list (option Err);
  handlerThrows : option (option Err);
  laterCalls : list (option Err);
}.

(** The calls of [defaultHandler]: each one replaces [err] when its
    [handlerError] is truthy, and passes [err] to the handler of
    strong-error-handler.  The result is the errors passed, in order. *)
Fixpoint defaultHandlers (err : Err) (calls : list (option Err)) : list Err :=
  match calls with
  | [] => []
  | handlerError :: calls' =>
      let err := match handlerError with Some e => e | None => err end in
      err :: defaultHandlers err calls'
  end.

(** [restErrorHandler(err, req, res, next)], for [options.handler] when it
    is a function. *)
Definition restErrorHandler (handler : option (Err -> HandlerRun)) (err : Err)
    : list Err :=
  match handler with
  | Some handler =>
      let run := handler err in
      defaultHandlers err
        (defaultCalls run
         ++ match handlerThrows run with Some e => [e] | None => [] end
         ++ laterCalls run)
  | None => defaultHandlers err [None]
  end.

End ErrorHandler.

Arguments mkHandlerRun {Err}.
Arguments defaultCalls {Err}.
Arguments handlerThrows {Err}.
Arguments laterCalls {Err}.
Arguments defaultHandlers {Err}.
Arguments restErrorHandler {Err}.

(** A path has a doubled slash when two ["/"] follow each other in it. *)
Fixpoint doubledSlash (s : string) : bool :=
  match s with
  | EmptyString => false
  | String a s' =>
      match s' with
      | EmptyString => false
      | String b _ => (Ascii.eqb a "/" && Ascii.eqb b "/") || doubledSlash s'
      end
  end.

(** The layer that registering a route entry adds to the router of its
    class, when its verb is a string naming a route method: [del] is
    registered as [delete]. *)
Definition registration (e : RouteEntry) : ClassLayer :=
  MethodRoute (VString (normalizeDel (toString (verb (route e)))))
              (path (route e)) (handlerOf (method e)).

(** The stage of the pipeline that an event belongs to. *)
Inductive Stage : Type :=
| CtorStage | BeforeStage | InvokeStage | AfterStage | DoneStage | NextStage.

Definition stageOf {Err Inst Data : Type} (event : Event Err Inst Data) : Stage :=
  match event with
  | SharedCtorInvoked => CtorStage
  | RestBefore _ => BeforeStage
  | MethodInvokedInContext _ => InvokeStage
  | RestAfter _ => AfterStage
  | Done _ => DoneStage
  | Next _ => NextStage
  end.

(** The stages of a request that nothing fails for: the hooks that the
    method has, around its invocation, then [ctx.done]. *)
Definition allStages (method : SharedMethod) : list Stage :=
  (if restBefore method then [BeforeStage] else [])
  ++ [InvokeStage]
  ++ (if restAfter method then [AfterStage] else [])
  ++ [DoneStage].

(** The stages with what each does: the event of a stage, and its step. *)
Definition pipeline {Err Inst Data : Type}
    (restBeforeHook restAfterHook : SharedMethod -> Step Err Inst Data)
    (invokeMethodInContext done : Step Err Inst Data) (method : SharedMethod)
    : list ((Context Err Inst Data -> Event Err Inst Data) * Step Err Inst Data) :=
  (if restBefore method then [(RestBefore, restBeforeHook method)] else [])
  ++ [(MethodInvokedInContext, invokeMethodInContext)]
  ++ (if restAfter method then [(RestAfter, restAfterHook method)] else [])
  ++ [(Done, done)].

(** [allSucceed stages ctx events ctx']: run in order from [ctx], each of
    the stages succeeds; [events] are their events, each on the context
    that the stage before it left, and [ctx'] is the context that the last
    one leaves. *)
Inductive allSucceed {Err Inst Data : Type} :
  list ((Context Err Inst Data -> Event Err Inst Data) * Step Err Inst Data) ->
  Context Err Inst Data -> list (Event Err Inst Data) -> Context Err Inst Data ->
  Prop :=
| allSucceed_nil (ctx : Context Err Inst Data) : allSucceed [] ctx [] ctx
| allSucceed_cons (event : Context Err Inst Data -> Event Err Inst Data)
    (step : Step Err Inst Data)
    (stages : list ((Context Err Inst Data -> Event Err Inst Data)
                    * Step Err Inst Data))
    (ctx ctx' ctx'' : Context Err Inst Data) (events : list (Event Err Inst Data)) :
    step ctx = (ctx', None) ->
    allSucceed stages ctx' events ctx'' ->
    allSucceed ((event, step) :: stages) ctx (event ctx :: events) ctx''.

(** The verb of the endpoint of a route whose verb is a string: [all] is
    announced as [POST] and [del] as [DELETE]. *)
Definition endpointVerbOf (toUpperCase : string -> string) (verb : string) : string :=
  if String.eqb verb "all" then "POST"
  else if String.eqb verb "del" then "DELETE"
  else toUpperCase verb.

(** * Properties *)

(** ** Strings and values *)

Lemma append_assoc (a b c : string) : ((a ++ b) ++ c = a ++ b ++ c)%string.
Proof. induction a as [|x a IH]; [reflexivity | simpl; f_equal; exact IH]. Qed.

Lemma append_empty_r (a : string) : (a ++ "" = a)%string.
Proof. induction a as [|x a IH]; [reflexivity | simpl; f_equal; exact IH]. Qed.

Lemma last_is_char (p : string) :
  p <> "" -> exists c, last p = Some (String c "").
Proof.
  induction p as [|a p IH]; [congruence|]. intros _.
  destruct p as [|b p]; [exists a; reflexivity|].
  destruct IH as [c Hc]; [discriminate|]. exists c. exact Hc.
Qed.

Lemma first_is_char (s : string) :
  s <> "" -> exists d, first s = Some (String d "").
Proof. destruct s as [|d s]; [congruence|]. intros _. now exists d. Qed.

Lemma truthy_string (s : string) : truthy (VString s) = true <-> s <> "".
Proof.
  simpl. destruct (String.eqb_spec s ""); simpl; split; congruence.
Qed.

(** ** Route composition *)

(** The three cases of the join boundary, for a prefix that ends with the
    character [c] and a suffix, other than [/], that starts with [d]. *)
Lemma joinPaths_strings (p s : string) (c d : ascii) :
  last p = Some (String c "") -> first s = Some (String d "") -> s <> "/" ->
  joinPaths (VString p) (VString s) =
  VString (if Ascii.eqb c "/" then
             if Ascii.eqb d "/" then p ++ slice1 s else p ++ s
           else if Ascii.eqb d "/" then p ++ s else p ++ "/" ++ s)%string.
Proof.
  intros Hl Hf Hs. unfold joinPaths.
  assert (Hp : p <> "") by (intros ->; discriminate).
  assert (Hs' : s <> "") by (intros ->; discriminate).
  apply truthy_string in Hp, Hs'. rewrite Hp, Hs'. simpl negb.
  assert (E : eqStr (VString s) "/" = false).
  { simpl. apply String.eqb_neq. exact Hs. }
  rewrite E. simpl orb. cbv iota.
  unfold indexLast, index0. rewrite Hl, Hf. simpl ofOption.
  destruct (Ascii.eqb_spec c "/") as [->|Hc], (Ascii.eqb_spec d "/") as [->|Hd]; simpl.
  - reflexivity.
  - rewrite (proj2 (Ascii.eqb_neq d "/") Hd). reflexivity.
  - rewrite (proj2 (Ascii.eqb_neq c "/") Hc). reflexivity.
  - rewrite (proj2 (Ascii.eqb_neq c "/") Hc). simpl.
    rewrite (proj2 (Ascii.eqb_neq d "/") Hd). simpl.
    now rewrite append_assoc.
Qed.

Lemma joinPaths_empty_right (p : string) :
  joinPaths (VString p) (VString "") = VString p.
Proof.
  unfold joinPaths. destruct (truthy (VString p)) eqn:E; simpl; [reflexivity|].
  simpl in E. destruct (String.eqb_spec p ""); [congruence|discriminate].
Qed.

Lemma joinPaths_slash_right (p : string) :
  p <> "" -> joinPaths (VString p) (VString "/") = VString p.
Proof.
  intros Hp. unfold joinPaths. now rewrite (proj2 (truthy_string p) Hp).
Qed.

(** [right.slice] is called on strings only: the glue is ['//'] only
    between two strings. *)
Lemma glue_slashes_strings (left right : value) :
  eqStr (add (indexLast left) (index0 right)) "//" = true ->
  isString left = true /\ isString right = true.
Proof.
  destruct left as [| |b|n| |p|], right as [| |b'|n'| |s|]; simpl;
    try discriminate; try (split; reflexivity).
  all: try (destruct (first s) as [t|]; simpl; [|discriminate];
            destruct t as [|x [|y t]]; simpl; try discriminate;
            destruct (Ascii.eqb _ _); discriminate).
  all: destruct (last p) as [t|]; simpl; [|discriminate];
    destruct t as [|x [|y [|z t]]]; simpl;
    repeat (destruct (Ascii.eqb _ _); simpl); discriminate.
Qed.

(** C3, as stated, fails: the claim asks [joinPaths(p, '/') == p] of every
    prefix [p], and the empty prefix is answered by the first rule, which
    returns the suffix: [joinPaths('', '/')] is ['/'], not ['']. *)
Lemma joinPaths_slash_suffix_counterexample :
  joinPaths (VString "") (VString "/") = VString "/" /\
  joinPaths (VString "") (VString "/") <> VString "".
Proof. split; [reflexivity | discriminate]. Qed.

(** C3, amended: [joinPaths('', s) == s] for every suffix [s];
    [joinPaths(p, '') == p] for every prefix [p]; [joinPaths(p, '/') == p]
    for every prefix [p] other than the empty one; and for a prefix that is
    not empty and a suffix that is neither empty nor ['/'], the result is
    the plain concatenation when exactly one side has [/] at the join
    boundary, the concatenation with the doubled slash collapsed to one when
    both sides have it, and the concatenation with one [/] inserted when
    neither side has it.  In particular [joinPaths('/a', '/b')] and
    [joinPaths('/a/', '/b')] are both ['/a/b']. *)
Theorem joinPaths_boundary_contract :
  (forall s : value, joinPaths (VString "") s = s) /\
  (forall p : string, joinPaths (VString p) (VString "") = VString p) /\
  (forall p : string,
      p <> "" -> joinPaths (VString p) (VString "/") = VString p) /\
  (forall (p s : string) (c d : ascii),
      last p = Some (String c "") -> first s = Some (String d "") ->
      s <> "/" ->
      ((c = "/"%char /\ d <> "/"%char) \/ (c <> "/"%char /\ d = "/"%char) ->
       joinPaths (VString p) (VString s) = VString (p ++ s)%string) /\
      (c = "/"%char /\ d = "/"%char ->
       joinPaths (VString p) (VString s) = VString (p ++ slice1 s)%string) /\
      (c <> "/"%char /\ d <> "/"%char ->
       joinPaths (VString p) (VString s) = VString (p ++ "/" ++ s)%string)) /\
  joinPaths (VString "/a") (VString "/b") = VString "/a/b" /\
  joinPaths (VString "/a/") (VString "/b") = VString "/a/b".
Proof.
  split; [reflexivity|].
  split; [exact joinPaths_empty_right|].
  split; [exact joinPaths_slash_right|].
  split; [|split; reflexivity].
  intros p s c d Hl Hf Hs.
  rewrite (joinPaths_strings p s c d Hl Hf Hs).
  repeat split.
  - intros [[-> Hd]|[Hc ->]].
    + simpl. now rewrite (proj2 (Ascii.eqb_neq d "/") Hd).
    + now rewrite (proj2 (Ascii.eqb_neq c "/") Hc).
  - now intros [-> ->].
  - intros [Hc Hd].
    now rewrite (proj2 (Ascii.eqb_neq c "/") Hc), (proj2 (Ascii.eqb_neq d "/") Hd).
Qed.

Lemma joinPaths_boundary_contract_witness :
  joinPaths (VString "/a") (VString "/") = VString "/a" /\
  joinPaths (VString "/a/") (VString "b") = VString "/a/b" /\
  joinPaths (VString "/a/") (VString "/b") = VString "/a/b" /\
  joinPaths (VString "/a") (VString "b") = VString "/a/b".
Proof.
  destruct joinPaths_boundary_contract as (_ & _ & Hslash & Hjoin & _).
  split; [apply Hslash; discriminate|].
  split; [|split].
  - apply (Hjoin "/a/" "b" "/"%char "b"%char);
      [reflexivity | reflexivity | discriminate |].
    left. split; [reflexivity | discriminate].
  - apply (Hjoin "/a/" "/b" "/"%char "/"%char);
      [reflexivity | reflexivity | discriminate |].
    split; reflexivity.
  - apply (Hjoin "/a" "b" "a"%char "b"%char);
      [reflexivity | reflexivity | discriminate |].
    split; discriminate.
Defined.

(** ** Path normalization *)

Lemma split_nonempty (sep : ascii) (s : string) : split sep s <> [].
Proof.
  induction s as [|c s IH]; simpl; [discriminate|].
  destruct (Ascii.eqb c sep); [discriminate|].
  destruct (split sep s); discriminate.
Qed.


Lemma join_cons (sep : ascii) (s : string) (l : list string) :
  l <> [] -> join sep (s :: l) = (s ++ String sep (join sep l))%string.
Proof. destruct l; [congruence | reflexivity]. Qed.

Lemma replaceRuns_split (f : string -> string) (s run : string) :
  replaceRuns f run s =
  join "/" (map (flushRun f) (consRun run (split "/" s))).
Proof.
  revert run. induction s as [|c s IH]; intros run; simpl.
  - now rewrite append_empty_r.
  - destruct (Ascii.eqb c "/") eqn:E.
    + simpl consRun. rewrite append_empty_r, IH.
      pose proof (split_nonempty "/" s) as Hne.
      destruct (split "/" s) as [|seg segs]; [congruence|]. reflexivity.
    + rewrite IH. pose proof (split_nonempty "/" s) as Hne.
      destruct (split "/" s) as [|seg segs]; [congruence|].
      simpl consRun. now rewrite append_assoc.
Qed.

Lemma consRun_empty (l : list string) : consRun "" l = l.
Proof. destruct l; reflexivity. Qed.

Lemma split_plain (s : string) :
  contains "/" s = false -> split "/" s = [s].
Proof.
  induction s as [|c s IH]; simpl; [reflexivity|].
  destruct (Ascii.eqb c "/"); simpl; [discriminate|].
  intros H. now rewrite (IH H).
Qed.

Lemma split_append (s t : string) :
  contains "/" s = false ->
  split "/" (s ++ String "/" t) = s :: split "/" t.
Proof.
  induction s as [|c s IH]; simpl; [reflexivity|].
  destruct (Ascii.eqb c "/"); simpl; [discriminate|].
  intros H. now rewrite (IH H).
Qed.

Lemma split_join (l : list string) :
  l <> [] -> Forall (fun seg => contains "/" seg = false) l ->
  split "/" (join "/" l) = l.
Proof.
  induction l as [|s l IH]; [congruence|]. intros _ Hall.
  inversion Hall as [|? ? Hs Hl]; subst.
  destruct l as [|s' l].
  - simpl. now apply split_plain.
  - rewrite join_cons by discriminate. rewrite split_append by exact Hs.
    f_equal. apply IH; [discriminate | exact Hl].
Qed.

Lemma split_parts_plain (s : string) :
  Forall (fun seg => contains "/" seg = false) (split "/" s).
Proof.
  induction s as [|c s IH]; simpl; [repeat constructor|].
  destruct (Ascii.eqb c "/") eqn:E; [constructor; [reflexivity | exact IH]|].
  destruct (split "/" s) as [|seg segs]; [repeat constructor; simpl; now rewrite E|].
  inversion IH; subst. constructor; [simpl; now rewrite E | assumption].
Qed.


Section Normalization.

Variable transform : string -> string.
Hypothesis transform_no_slash :
  forall s, plainRun s = true -> contains "/" (transform s) = false.
Hypothesis transform_idempotent :
  forall s, plainRun s = true -> transform (transform s) = transform s.

Abbreviation normSeg := (flushRun (normalizeSegment transform)).

Lemma normSeg_cases (seg : string) :
  contains "/" seg = false ->
  (seg = "" /\ normSeg seg = "") \/
  (contains ":" seg = true /\ normSeg seg = seg) \/
  (plainRun seg = true /\ normSeg seg = transform seg).
Proof.
  intros Hs. destruct seg as [|c seg]; [left; split; reflexivity|].
  right. unfold flushRun, normalizeSegment.
  destruct (contains ":" (String c seg)) eqn:E; [left; split; reflexivity|].
  right. split; [|reflexivity]. unfold plainRun. now rewrite Hs, E.
Qed.

Lemma normSeg_plain (seg : string) :
  contains "/" seg = false -> contains "/" (normSeg seg) = false.
Proof.
  intros Hs. destruct (normSeg_cases seg Hs) as [[_ ->]|[[_ ->]|[Hp ->]]];
    [reflexivity | exact Hs | now apply transform_no_slash].
Qed.

Lemma normSeg_idempotent (seg : string) :
  contains "/" seg = false -> normSeg (normSeg seg) = normSeg seg.
Proof.
  intros Hs. destruct (normSeg_cases seg Hs) as [[_ ->]|[[Hc E]|[Hp E]]].
  - reflexivity.
  - now rewrite !E.
  - rewrite E.
    destruct (normSeg_cases (transform seg) (transform_no_slash seg Hp))
      as [[T ->]|[[_ ->]|[_ ->]]];
      [now rewrite T | reflexivity | now apply transform_idempotent].
Qed.

Lemma normalizeHttpPath_split (p : string) :
  normalizeHttpPath transform (VString p) =
  VString (join "/" (map normSeg (split "/" p))).
Proof.
  unfold normalizeHttpPath. now rewrite replaceRuns_split, consRun_empty.
Qed.

Lemma split_normalized (p : string) :
  split "/" (join "/" (map normSeg (split "/" p))) = map normSeg (split "/" p).
Proof.
  apply split_join.
  - pose proof (split_nonempty "/" p). destruct (split "/" p); [congruence | discriminate].
  - apply Forall_map. eapply Forall_impl; [apply split_parts_plain|].
    intros seg Hseg. now apply normSeg_plain.
Qed.

Lemma normalizeHttpPath_twice (p : string) :
  normalizeHttpPath transform (normalizeHttpPath transform (VString p)) =
  normalizeHttpPath transform (VString p).
Proof.
  rewrite !normalizeHttpPath_split, split_normalized. do 2 f_equal.
  rewrite map_map. apply map_ext_Forall.
  eapply Forall_impl; [apply split_parts_plain|].
  intros seg Hseg. now apply normSeg_idempotent.
Qed.

Lemma normalizeHttpPath_placeholder (p : string) (i : nat) (seg : string) :
  split "/" p !! i = Some seg -> contains ":" seg = true ->
  exists q, normalizeHttpPath transform (VString p) = VString q /\
            split "/" q !! i = Some seg.
Proof.
  intros Hi Hc. eexists. split; [apply normalizeHttpPath_split|].
  rewrite split_normalized, list_lookup_fmap, Hi. simpl. f_equal.
  destruct seg; [discriminate|]. unfold flushRun, normalizeSegment. now rewrite Hc.
Qed.

(** C4: path normalization is idempotent,
    [normalizeHttpPath(normalizeHttpPath(p)) == normalizeHttpPath(p)] for
    every string [p]; every segment of [p] that contains the placeholder
    marker [:] is found unchanged, at its place, in the normalized path;
    and when normalization is disabled the path is returned as it is.  The
    transform of the inflection package is assumed to keep a segment free
    of [/] and to leave its own results alone. *)
Theorem normalizeHttpPath_idempotent :
  (forall p : string,
      normalizeHttpPath transform (normalizeHttpPath transform (VString p)) =
      normalizeHttpPath transform (VString p)) /\
  (forall (p : string) (i : nat) (seg : string),
      split "/" p !! i = Some seg -> contains ":" seg = true ->
      exists q, normalizeHttpPath transform (VString p) = VString q /\
                split "/" q !! i = Some seg) /\
  (forall normalize path : value,
      truthy normalize = false -> toPathOf transform normalize path = path).
Proof.
  split; [exact normalizeHttpPath_twice|].
  split; [exact normalizeHttpPath_placeholder|].
  intros normalize path H. unfold toPathOf. now rewrite H.
Qed.

End Normalization.

(** *** The transform of the inflection package *)

Module InflectionFacts.
Import Inflection.

Ltac each_unit c := destruct c as [[|] [|] [|] [|] [|] [|] [|] [|]]; reflexivity.

Lemma lowerUnit_slash c : Ascii.eqb (lowerUnit c) "/" = Ascii.eqb c "/".
Proof. each_unit c. Qed.
Lemma lowerUnit_colon c : Ascii.eqb (lowerUnit c) ":" = Ascii.eqb c ":".
Proof. each_unit c. Qed.
Lemma dasherizeUnit_slash c : Ascii.eqb (dasherizeUnit c) "/" = Ascii.eqb c "/".
Proof. each_unit c. Qed.
Lemma dasherizeUnit_colon c : Ascii.eqb (dasherizeUnit c) ":" = Ascii.eqb c ":".
Proof. each_unit c. Qed.
Lemma settled_after c : settledUnit (dasherizeUnit (lowerUnit c)) = true.
Proof. each_unit c. Qed.

Lemma contains_toLowerCase x s :
  (forall c, Ascii.eqb (lowerUnit c) x = Ascii.eqb c x) ->
  contains x (toLowerCase s) = contains x s.
Proof. intros H. induction s as [|c s IH]; simpl; [reflexivity|]. now rewrite H, IH. Qed.

Lemma contains_dasherize x s :
  (forall c, Ascii.eqb (dasherizeUnit c) x = Ascii.eqb c x) ->
  contains x (dasherize s) = contains x s.
Proof. intros H. induction s as [|c s IH]; simpl; [reflexivity|]. now rewrite H, IH. Qed.

Lemma contains_underbarCapitals x s :
  Ascii.eqb "_" x = false ->
  contains x (underbarCapitals s) = contains x s.
Proof.
  intros Hx. induction s as [|c s IH]; cbn [underbarCapitals contains]; [reflexivity|].
  destruct (isUpperAZ c); cbn [contains]; rewrite ?Hx, IH; reflexivity.
Qed.

Lemma contains_dropUnderbarPrefix x s :
  contains x s = false -> contains x (dropUnderbarPrefix s) = false.
Proof.
  destruct s as [|c s]; simpl; [reflexivity|].
  destruct (Ascii.eqb c "_"); simpl; [|tauto].
  intros H. now apply orb_false_elim in H as [_ H].
Qed.

Lemma splitColons_plain s : contains ":" s = false -> splitColons s = [s].
Proof.
  induction s as [|c s IH]; [reflexivity|].
  simpl contains. intros H. apply orb_false_elim in H as [Hc Hs].
  specialize (IH Hs). simpl. rewrite Hc. simpl. rewrite IH.
  destruct s; reflexivity.
Qed.

Lemma transform_plain s :
  contains ":" s = false ->
  transform s = dasherize (toLowerCase (dropUnderbarPrefix (underbarCapitals s))).
Proof.
  intros H. unfold transform, underscore. now rewrite (splitColons_plain s H).
Qed.

Lemma transform_no_slash s :
  plainRun s = true -> contains "/" (transform s) = false.
Proof.
  unfold plainRun. intros H.
  apply andb_prop in H as [H Hc]. apply andb_prop in H as [_ Hs].
  apply negb_true_iff in Hc, Hs.
  rewrite (transform_plain s Hc).
  rewrite (contains_dasherize _ _ dasherizeUnit_slash).
  rewrite (contains_toLowerCase _ _ lowerUnit_slash).
  apply contains_dropUnderbarPrefix.
  now rewrite contains_underbarCapitals.
Qed.

Lemma transform_no_colon s :
  contains ":" s = false -> contains ":" (transform s) = false.
Proof.
  intros Hc. rewrite (transform_plain s Hc).
  rewrite (contains_dasherize _ _ dasherizeUnit_colon).
  rewrite (contains_toLowerCase _ _ lowerUnit_colon).
  apply contains_dropUnderbarPrefix.
  now rewrite contains_underbarCapitals.
Qed.

Lemma settled_dasherize_toLowerCase s :
  allUnits settledUnit (dasherize (toLowerCase s)) = true.
Proof.
  induction s as [|c s IH]; simpl; [reflexivity|]. now rewrite settled_after, IH.
Qed.

Lemma settled_fixed t :
  allUnits settledUnit t = true ->
  underbarCapitals t = t /\ dropUnderbarPrefix t = t /\
  toLowerCase t = t /\ dasherize t = t.
Proof.
  induction t as [|c t IH]; simpl; [repeat split|].
  intros H. apply andb_prop in H as [Hc Ht].
  destruct (IH Ht) as (E1 & _ & E3 & E4).
  unfold settledUnit in Hc.
  apply andb_prop in Hc as [Hc Hd]. apply andb_prop in Hc as [Hu Hl].
  apply negb_true_iff in Hu.
  apply Ascii.eqb_eq in Hl, Hd.
  rewrite Hu, E1, E3, E4, Hl, Hd. repeat split.
  destruct (Ascii.eqb_spec c "_") as [->|]; [discriminate Hd | reflexivity].
Qed.

Lemma transform_idempotent s :
  plainRun s = true -> transform (transform s) = transform s.
Proof.
  intros H. assert (Hc : contains ":" s = false).
  { unfold plainRun in H. apply andb_prop in H as [_ Hc]. now apply negb_true_iff in Hc. }
  rewrite (transform_plain (transform s) (transform_no_colon s Hc)).
  assert (Hs : allUnits settledUnit (transform s) = true).
  { rewrite (transform_plain s Hc). apply settled_dasherize_toLowerCase. }
  destruct (settled_fixed _ Hs) as (E1 & E2 & E3 & E4).
  now rewrite E1, E2, E3, E4.
Qed.

End InflectionFacts.

(** With the transform of the inflection package, normalization is
    idempotent on every path. *)
Lemma normalizeHttpPath_inflection_twice (p : string) :
  normalizeHttpPath Inflection.transform
    (normalizeHttpPath Inflection.transform (VString p)) =
  normalizeHttpPath Inflection.transform (VString p).
Proof.
  apply normalizeHttpPath_twice;
    [exact InflectionFacts.transform_no_slash
    | exact InflectionFacts.transform_idempotent].
Qed.

Lemma normalizeHttpPath_idempotent_witness :
  normalizeHttpPath Inflection.transform
    (normalizeHttpPath Inflection.transform (VString "/MyWidgets/:itemId/fooBar")) =
  normalizeHttpPath Inflection.transform (VString "/MyWidgets/:itemId/fooBar")
  /\ normalizeHttpPath Inflection.transform (VString "/MyWidgets/:itemId/fooBar")
     = VString "/my-widgets/:itemId/foo-bar".
Proof.
  split; [|reflexivity].
  apply (normalizeHttpPath_idempotent Inflection.transform
           InflectionFacts.transform_no_slash
           InflectionFacts.transform_idempotent).
Defined.

(** ** Route ranking *)

(** *** Three-way comparisons *)

Lemma CompOpp_lexCmp (c1 c2 : comparison) :
  CompOpp (lexCmp c1 c2) = lexCmp (CompOpp c1) (CompOpp c2).
Proof. now destruct c1. Qed.

Section StrictWeakOrders.
Context {A : Type} (cmp : A -> A -> comparison) (Hcmp : StrictWeak cmp).

Lemma sw_refl (x : A) : cmp x x = Eq.
Proof. pose proof (sw_antisym cmp Hcmp x x) as H. destruct (cmp x x); now try discriminate. Qed.

Lemma sw_tie_sym (x y : A) : cmp x y = Eq -> cmp y x = Eq.
Proof. intros H. now rewrite (sw_antisym cmp Hcmp x y), H. Qed.

Lemma sw_tie_r (x y z : A) : cmp y z = Eq -> cmp x y = cmp x z.
Proof.
  intros H. rewrite (sw_antisym cmp Hcmp y x), (sw_antisym cmp Hcmp z x).
  f_equal. now apply sw_tie.
Qed.

Lemma sw_trans_gt (x y z : A) : cmp x y = Gt -> cmp y z = Gt -> cmp x z = Gt.
Proof.
  intros H1 H2. rewrite (sw_antisym cmp Hcmp z x).
  rewrite (sw_trans cmp Hcmp z y x); [reflexivity | |].
  - now rewrite (sw_antisym cmp Hcmp y z), H2.
  - now rewrite (sw_antisym cmp Hcmp x y), H1.
Qed.

(** Not after is transitive as well. *)
Lemma sw_trans_le (x y z : A) : cmp x y <> Gt -> cmp y z <> Gt -> cmp x z <> Gt.
Proof.
  intros H1 H2 H3.
  destruct (cmp x y) eqn:E1; [| |congruence].
  - rewrite (sw_tie cmp Hcmp x y z E1) in H3. congruence.
  - destruct (cmp y z) eqn:E2; [| |congruence].
    + rewrite <- (sw_tie_r x y z E2) in H3. congruence.
    + rewrite (sw_trans cmp Hcmp x y z E1 E2) in H3. congruence.
Qed.

Lemma StrictWeak_flip : StrictWeak (fun x y => cmp y x).
Proof.
  split.
  - intros x y. apply (sw_antisym cmp Hcmp).
  - intros x y z H. apply sw_tie_r. now apply sw_tie_sym.
  - intros x y z H1 H2. now apply (sw_trans cmp Hcmp z y x).
Qed.

Lemma StrictWeak_key {B : Type} (f : B -> A) : StrictWeak (fun x y => cmp (f x) (f y)).
Proof.
  split.
  - intros x y. apply (sw_antisym cmp Hcmp).
  - intros x y z. apply (sw_tie cmp Hcmp).
  - intros x y z. apply (sw_trans cmp Hcmp).
Qed.

Lemma StrictWeak_lex (cmp' : A -> A -> comparison) :
  StrictWeak cmp' -> StrictWeak (fun x y => lexCmp (cmp x y) (cmp' x y)).
Proof.
  intros Hcmp'. split.
  - intros x y. rewrite CompOpp_lexCmp.
    now rewrite (sw_antisym cmp Hcmp x y), (sw_antisym cmp' Hcmp' x y).
  - intros x y z H. destruct (cmp x y) eqn:E; try discriminate. simpl in H.
    now rewrite (sw_tie cmp Hcmp x y z E), (sw_tie cmp' Hcmp' x y z H).
  - intros x y z H1 H2.
    destruct (cmp x y) eqn:E1; try discriminate; simpl in H1.
    + rewrite (sw_tie cmp Hcmp x y z E1).
      destruct (cmp y z) eqn:E2; try discriminate; simpl in *; [|reflexivity].
      now apply (sw_trans cmp' Hcmp' x y z).
    + destruct (cmp y z) eqn:E2; try discriminate; simpl in H2.
      * now rewrite <- (sw_tie_r x y z E2), E1.
      * now rewrite (sw_trans cmp Hcmp x y z E1 E2).
Qed.

Lemma StrictWeak_list : StrictWeak (listCmp cmp).
Proof.
  split.
  - intros l1. induction l1 as [|x l1 IH]; intros [|y l2]; simpl; try reflexivity.
    now rewrite CompOpp_lexCmp, (sw_antisym cmp Hcmp x y), IH.
  - intros l1. induction l1 as [|x l1 IH]; intros [|y l2] [|z l3]; simpl;
      try discriminate; try reflexivity.
    intros H. destruct (cmp x y) eqn:E; try discriminate. simpl in H.
    now rewrite (sw_tie cmp Hcmp x y z E), (IH l2 l3 H).
  - intros l1. induction l1 as [|x l1 IH]; intros [|y l2] [|z l3]; simpl;
      try discriminate; try reflexivity.
    intros H1 H2.
    destruct (cmp x y) eqn:E1; try discriminate; simpl in H1.
    + rewrite (sw_tie cmp Hcmp x y z E1).
      destruct (cmp y z) eqn:E2; try discriminate; simpl in *; [|reflexivity].
      now apply (IH l2 l3).
    + destruct (cmp y z) eqn:E2; try discriminate; simpl in H2.
      * now rewrite <- (sw_tie_r x y z E2), E1.
      * now rewrite (sw_trans cmp Hcmp x y z E1 E2).
Qed.

Lemma listCmp_eq (l1 l2 : list A) :
  (forall x y, cmp x y = Eq -> x = y) ->
  listCmp cmp l1 l2 = Eq -> l1 = l2.
Proof.
  intros Heq. revert l2. induction l1 as [|x l1 IH]; intros [|y l2]; simpl;
    try discriminate; try reflexivity.
  destruct (cmp x y) eqn:E; try discriminate. simpl. intros H.
  now rewrite (Heq x y E), (IH l2 H).
Qed.

End StrictWeakOrders.

Lemma StrictWeak_string : StrictWeak String.compare.
Proof.
  split.
  - intros x y. apply String.compare_antisym.
  - intros x y z H. apply String.compare_eq_iff in H. now subst.
  - intros x y z H1 H2.
    assert (L1 : strings.String.le x y) by (unfold strings.String.le, String.leb; now rewrite H1).
    assert (L2 : strings.String.le y z) by (unfold strings.String.le, String.leb; now rewrite H2).
    pose proof (transitivity L1 L2) as L3. unfold strings.String.le, String.leb in L3.
    destruct (String.compare x z) eqn:E; [|reflexivity|contradiction].
    apply String.compare_eq_iff in E. subst z.
    rewrite String.compare_antisym, H1 in H2. discriminate.
Qed.

Lemma StrictWeak_nat : StrictWeak Nat.compare.
Proof.
  split.
  - intros x y. apply Nat.compare_antisym.
  - intros x y z H. apply Nat.compare_eq_iff in H. now subst.
  - intros x y z H1 H2. apply Nat.compare_lt_iff in H1, H2.
    apply Nat.compare_lt_iff. lia.
Qed.

Lemma StrictWeak_part : StrictWeak partCmp.
Proof.
  apply (StrictWeak_lex (fun s1 s2 => Nat.compare (partClass s1) (partClass s2))).
  - apply (StrictWeak_key Nat.compare StrictWeak_nat).
  - apply StrictWeak_string.
Qed.

Lemma StrictWeak_route : StrictWeak routeCmp.
Proof.
  apply (StrictWeak_lex
           (fun e1 e2 : string * string =>
              String.compare (normalizeVerb (fst e2)) (normalizeVerb (fst e1)))).
  - apply (StrictWeak_key (fun v1 v2 => String.compare v2 v1)
             (StrictWeak_flip _ StrictWeak_string)).
  - apply (StrictWeak_key (listCmp partCmp) (StrictWeak_list _ StrictWeak_part)).
Qed.

(** *** The comparator *)

Lemma isEmpty_true (s : string) : isEmpty s = true -> s = "".
Proof. unfold isEmpty. intros H. now apply String.eqb_eq. Qed.

Lemma gt_lt_compare (s1 s2 : string) :
  (if Js.gt s1 s2 then Some 1 else if Js.lt s1 s2 then Some (-1) else None) =
  match String.compare s1 s2 with
  | Gt => Some 1
  | Lt => Some (-1)
  | Eq => None
  end.
Proof.
  unfold Js.gt, Js.lt, String.ltb. rewrite (String.compare_antisym s1 s2).
  now destruct (String.compare s2 s1).
Qed.

Lemma compareParts_cons (s1 s2 : string) (l1 l2 : list string) :
  compareParts (s1 :: l1) (s2 :: l2) =
  match partCmp s1 s2 with
  | Gt => Some 1
  | Lt => Some (-1)
  | Eq => compareParts l1 l2
  end.
Proof.
  cbn [compareParts]. unfold partCmp, partClass.
  destruct (isEmpty s1) eqn:E1, (isEmpty s2) eqn:E2; cbn.
  - apply isEmpty_true in E1, E2. subst. reflexivity.
  - now destruct (isWildcard s2).
  - now destruct (isWildcard s1).
  - destruct (isWildcard s1), (isWildcard s2); cbn; try reflexivity.
    + pose proof (gt_lt_compare s1 s2) as H.
      destruct (Js.gt s1 s2), (Js.lt s1 s2), (String.compare s1 s2);
        cbn; congruence.
    + pose proof (gt_lt_compare s1 s2) as H.
      destruct (Js.gt s1 s2), (Js.lt s1 s2), (String.compare s1 s2);
        cbn; congruence.
Qed.

Lemma comparePaths_listCmp (l1 l2 : list string) :
  (comparePaths l1 l2 ?= 0) = listCmp partCmp l1 l2.
Proof.
  revert l2. induction l1 as [|s1 l1 IH]; intros [|s2 l2].
  - reflexivity.
  - unfold comparePaths. cbn [compareParts listCmp length]. apply Z.compare_gt_iff. lia.
  - unfold comparePaths. cbn [compareParts listCmp length]. apply Z.compare_lt_iff. lia.
  - cbn [listCmp]. rewrite <- IH. unfold comparePaths. rewrite compareParts_cons.
    destruct (partCmp s1 s2); cbn [lexCmp]; try reflexivity.
    destruct (compareParts l1 l2); [reflexivity|].
    cbn [length]. f_equal. lia.
Qed.

Lemma sortRoutes_strings (v1 p1 v2 p2 : string) (m1 m2 : SharedMethod) :
  exists z, sortRoutes (entry v1 p1 m1) (entry v2 p2 m2) = Ok z /\
            (z ?= 0) = routeCmp (v1, p1) (v2, p2).
Proof.
  unfold sortRoutes, routeCmp, entry. cbn.
  fold (normalizeVerb v1). fold (normalizeVerb v2).
  unfold Js.gt, Js.lt, String.ltb.
  rewrite (String.compare_antisym (normalizeVerb v2) (normalizeVerb v1)).
  destruct (String.compare (normalizeVerb v1) (normalizeVerb v2)); cbn.
  - eexists. split; [reflexivity|]. apply comparePaths_listCmp.
  - eexists. split; reflexivity.
  - eexists. split; reflexivity.
Qed.

(** *** The sort *)

Section SortBy.
Context {A : Type} (cmp : A -> A -> comparison) (Hcmp : StrictWeak cmp).

Let le (a b : A) : Prop := cmp a b <> Gt.

Lemma insertBy_perm (x : A) (l : list A) : Permutation (x :: l) (insertBy cmp x l).
Proof.
  induction l as [|y l IH]; simpl; [reflexivity|].
  destruct (cmp x y); try reflexivity.
  rewrite perm_swap. now apply perm_skip.
Qed.

Lemma sortBy_perm (l : list A) : Permutation l (sortBy cmp l).
Proof.
  induction l as [|x l IH]; simpl; [reflexivity|].
  rewrite <- insertBy_perm. now apply perm_skip.
Qed.

Lemma insertBy_sorted (x : A) (l : list A) :
  Sorted le l -> Sorted le (insertBy cmp x l).
Proof.
  induction l as [|y l IH]; simpl; intros Hs; [repeat constructor|].
  destruct (cmp x y) eqn:E.
  - constructor; [exact Hs|]. constructor. unfold le. congruence.
  - constructor; [exact Hs|]. constructor. unfold le. congruence.
  - inversion Hs as [|? ? Hl Hh]; subst. constructor; [now apply IH|].
    assert (Hyx : le y x).
    { unfold le. rewrite (sw_antisym cmp Hcmp x y), E. discriminate. }
    destruct l as [|z l]; simpl; [now constructor|].
    destruct (cmp x z); constructor; try exact Hyx.
    now inversion Hh.
Qed.

Lemma sortBy_sorted (l : list A) : StronglySorted le (sortBy cmp l).
Proof.
  apply Sorted_StronglySorted.
  - intros x y z. apply (sw_trans_le cmp Hcmp).
  - induction l as [|x l IH]; simpl; [constructor | now apply insertBy_sorted].
Qed.

Lemma insertBy_stable (w x : A) (l : list A) :
  List.filter (isTie cmp w) (insertBy cmp x l) = List.filter (isTie cmp w) (x :: l).
Proof.
  induction l as [|y l IH]; [reflexivity|]. cbn [insertBy].
  destruct (cmp x y) eqn:E; try reflexivity.
  cbn [List.filter] in *. rewrite IH. unfold isTie.
  destruct (cmp w x) eqn:Ex; try reflexivity.
  rewrite (sw_tie cmp Hcmp w x y Ex), E. reflexivity.
Qed.

Lemma sortBy_stable (w : A) (l : list A) :
  List.filter (isTie cmp w) (sortBy cmp l) = List.filter (isTie cmp w) l.
Proof.
  induction l as [|x l IH]; [reflexivity|]. cbn [sortBy].
  rewrite insertBy_stable. cbn [List.filter]. now rewrite IH.
Qed.

Lemma sortBy_fixed (l : list A) : Sorted le l -> sortBy cmp l = l.
Proof.
  induction l as [|x l IH]; [reflexivity|]. intros Hs.
  inversion Hs as [|? ? Hl Hh]; subst. cbn [sortBy]. rewrite (IH Hl).
  destruct l as [|y l]; [reflexivity|]. cbn [insertBy].
  inversion Hh as [|? ? Hxy]; subst. unfold le in Hxy.
  now destruct (cmp x y).
Qed.

Lemma sortBy_twice (l : list A) : sortBy cmp (sortBy cmp l) = sortBy cmp l.
Proof. apply sortBy_fixed, StronglySorted_Sorted, sortBy_sorted. Qed.

End SortBy.

Section StableUnique.
Context {A : Type} (cmp : A -> A -> comparison) (Hcmp : StrictWeak cmp).

(** Two sorted arrangements of the same elements that keep the ties in the
    same order are the same list. *)
Lemma stable_sorted_unique (s s' : list A) :
  Permutation s s' ->
  StronglySorted (fun a b => cmp a b <> Gt) s ->
  StronglySorted (fun a b => cmp a b <> Gt) s' ->
  (forall w, In w s -> List.filter (isTie cmp w) s = List.filter (isTie cmp w) s') ->
  s = s'.
Proof.
  revert s'. induction s as [|x s IH]; intros s' Hp Hs Hs' Hf.
  - now apply Permutation_nil in Hp.
  - destruct s' as [|y s']; [now apply Permutation_sym, Permutation_nil in Hp|].
    inversion Hs as [|? ? Hs1 Hx]; subst. inversion Hs' as [|? ? Hs1' Hy]; subst.
    assert (Exy : cmp x y = Eq).
    { assert (Hxy : cmp x y <> Gt).
      { assert (Hin : In y (x :: s))
          by (eapply Permutation_in; [apply Permutation_sym, Hp | now left]).
        destruct Hin as [->|Hin]; [now rewrite (sw_refl cmp Hcmp)|].
        rewrite List.Forall_forall in Hx. now apply Hx. }
      assert (Hyx : cmp y x <> Gt).
      { assert (Hin : In x (y :: s'))
          by (eapply Permutation_in; [apply Hp | now left]).
        destruct Hin as [->|Hin]; [now rewrite (sw_refl cmp Hcmp)|].
        rewrite List.Forall_forall in Hy. now apply Hy. }
      rewrite (sw_antisym cmp Hcmp x y) in Hyx.
      destruct (cmp x y); cbn in Hyx; congruence. }
    assert (x = y) as <-.
    { specialize (Hf x (or_introl eq_refl)). cbn [List.filter] in Hf.
      assert (Txx : isTie cmp x x = true)
        by (unfold isTie; now rewrite (sw_refl cmp Hcmp)).
      assert (Txy : isTie cmp x y = true) by (unfold isTie; now rewrite Exy).
      rewrite Txx, Txy in Hf. congruence. }
    f_equal. apply IH; [now apply Permutation_cons_inv in Hp | assumption ..|].
    intros w Hw. specialize (Hf w (or_intror Hw)). cbn [List.filter] in Hf.
    destruct (isTie cmp w x); congruence.
Qed.

Lemma sortBy_unique (l s : list A) :
  Permutation l s ->
  StronglySorted (fun a b => cmp a b <> Gt) s ->
  (forall w, In w l ->
             List.filter (isTie cmp w) s = List.filter (isTie cmp w) l) ->
  s = sortBy cmp l.
Proof.
  intros Hp Hs Hf.
  apply stable_sorted_unique;
    [ rewrite <- Hp; apply sortBy_perm
    | exact Hs
    | apply sortBy_sorted; exact Hcmp
    | ].
  intros w Hw. rewrite (sortBy_stable cmp Hcmp). apply Hf.
  eapply Permutation_in; [apply Permutation_sym, Hp | exact Hw].
Qed.

End StableUnique.

Lemma sortRoutes_stringEntry (a b : RouteEntry) :
  stringEntry a = true -> stringEntry b = true ->
  exists z, sortRoutes a b = Ok z /\ (z ?= 0) = entryCmp a b.
Proof.
  destruct a as [[va pa] ma], b as [[vb pb] mb]. unfold stringEntry. cbn.
  destruct va as [| | | | |va|], pa as [| | | | |pa|]; try discriminate.
  destruct vb as [| | | | |vb|], pb as [| | | | |pb|]; try discriminate.
  intros _ _. apply (sortRoutes_strings va pa vb pb ma mb).
Qed.

Lemma StrictWeak_entry : StrictWeak entryCmp.
Proof.
  apply (StrictWeak_key routeCmp StrictWeak_route
           (fun e => (toString (verb (route e)), toString (path (route e))))).
Qed.

Lemma insertSorted_strings (x : RouteEntry) (l : list RouteEntry) :
  stringEntry x = true -> Forall (fun e => stringEntry e = true) l ->
  insertSorted sortRoutes x l = Ok (insertBy entryCmp x l).
Proof.
  intros Hx. induction 1 as [|y l Hy Hl IH]; [reflexivity|].
  cbn [insertSorted insertBy].
  destruct (sortRoutes_stringEntry x y Hx Hy) as (z & Ez & Hz).
  rewrite Ez. cbn. rewrite <- Hz, IH.
  destruct (Z.compare_spec z 0) as [->| |]; cbn.
  - reflexivity.
  - now rewrite (proj2 (Z.leb_le z 0)) by lia.
  - now rewrite (proj2 (Z.leb_gt z 0)) by lia.
Qed.

Lemma sort_strings (l : list RouteEntry) :
  Forall (fun e => stringEntry e = true) l ->
  sort sortRoutes l = Ok (sortBy entryCmp l).
Proof.
  induction 1 as [|x l Hx Hl IH]; [reflexivity|].
  cbn [sort sortBy]. rewrite IH. cbn.
  apply insertSorted_strings; [exact Hx|].
  eapply Permutation_Forall; [apply sortBy_perm | exact Hl].
Qed.

(** *** The rules of the comparator *)

Lemma partCmp_refl (s : string) : partCmp s s = Eq.
Proof. apply (sw_refl partCmp StrictWeak_part). Qed.

Lemma compareParts_common (common l1 l2 : list string) :
  compareParts (common ++ l1) (common ++ l2) = compareParts l1 l2.
Proof.
  induction common as [|s common IH]; [reflexivity|].
  cbn [app]. now rewrite compareParts_cons, partCmp_refl.
Qed.

Lemma compareParts_prefix_l (l extra : list string) :
  compareParts (l ++ extra) l = None.
Proof.
  induction l as [|s l IH]; [now destruct extra|].
  cbn [app]. now rewrite compareParts_cons, partCmp_refl.
Qed.

Lemma compareParts_prefix_r (l extra : list string) :
  compareParts l (l ++ extra) = None.
Proof.
  induction l as [|s l IH]; [reflexivity|].
  cbn [app]. now rewrite compareParts_cons, partCmp_refl.
Qed.

Lemma sortRoutes_verbs (v1 p1 v2 p2 : string) (m1 m2 : SharedMethod) :
  sortRoutes (entry v1 p1 m1) (entry v2 p2 m2) =
  if Js.gt (normalizeVerb v1) (normalizeVerb v2) then Ok (-1)
  else if Js.lt (normalizeVerb v1) (normalizeVerb v2) then Ok 1
  else Ok (comparePaths (split "/" p1) (split "/" p2)).
Proof. reflexivity. Qed.

Lemma ltb_irrefl (s : string) : String.ltb s s = false.
Proof.
  unfold String.ltb. now rewrite (sw_refl String.compare StrictWeak_string).
Qed.

Lemma ltb_asym (s1 s2 : string) :
  String.ltb s1 s2 = true -> String.ltb s2 s1 = false.
Proof.
  unfold String.ltb. rewrite (String.compare_antisym s1 s2).
  now destruct (String.compare s2 s1).
Qed.

Lemma ltb_total (s1 s2 : string) :
  s1 <> s2 -> String.ltb s1 s2 = true \/ String.ltb s2 s1 = true.
Proof.
  intros Hne. unfold String.ltb. rewrite (String.compare_antisym s2 s1).
  destruct (String.compare s1 s2) eqn:E; cbn; auto.
  now apply String.compare_eq_iff in E.
Qed.

Lemma isEmpty_false (s : string) : s <> "" -> isEmpty s = false.
Proof. intros H. unfold isEmpty. now apply String.eqb_neq. Qed.

Lemma comparePaths_first_difference (common : list string) (s1 s2 : string)
    (rest1 rest2 : list string) :
  comparePaths (common ++ s1 :: rest1) (common ++ s2 :: rest2) =
  match partCmp s1 s2 with
  | Lt => -1
  | Gt => 1
  | Eq => comparePaths rest1 rest2
  end.
Proof.
  unfold comparePaths. rewrite compareParts_common, compareParts_cons.
  destruct (partCmp s1 s2); try reflexivity.
  destruct (compareParts rest1 rest2); [reflexivity|].
  rewrite !length_app. cbn [length]. lia.
Qed.

(** The weight of the parts, rule by rule. *)
Lemma partCmp_rules (s1 s2 : string) :
  (s1 = "" -> s2 <> "" -> partCmp s1 s2 = Gt) /\
  (s1 <> "" -> s2 = "" -> partCmp s1 s2 = Lt) /\
  (s1 <> "" -> s2 <> "" -> isWildcard s1 = true -> isWildcard s2 = false ->
   partCmp s1 s2 = Gt) /\
  (s1 <> "" -> s2 <> "" -> isWildcard s1 = false -> isWildcard s2 = true ->
   partCmp s1 s2 = Lt) /\
  (s1 <> "" -> s2 <> "" -> isWildcard s1 = isWildcard s2 ->
   (Js.lt s1 s2 = true -> partCmp s1 s2 = Lt) /\
   (Js.gt s1 s2 = true -> partCmp s1 s2 = Gt)).
Proof.
  unfold partCmp, partClass. split; [|split; [|split; [|split]]].
  - intros -> H2. rewrite (isEmpty_false s2 H2). cbn. now destruct (isWildcard s2).
  - intros H1 ->. rewrite (isEmpty_false s1 H1). cbn. now destruct (isWildcard s1).
  - intros H1 H2 W1 W2. now rewrite (isEmpty_false s1 H1), (isEmpty_false s2 H2), W1, W2.
  - intros H1 H2 W1 W2. now rewrite (isEmpty_false s1 H1), (isEmpty_false s2 H2), W1, W2.
  - intros H1 H2 W. rewrite (isEmpty_false s1 H1), (isEmpty_false s2 H2), W.
    unfold Js.lt, Js.gt, String.ltb. rewrite (String.compare_antisym s1 s2).
    split; intros L; destruct (isWildcard s2); cbn;
      now destruct (String.compare s2 s1).
Qed.

Lemma join_split (s : string) : join "/" (split "/" s) = s.
Proof.
  induction s as [|c s IH]; [reflexivity|]. cbn [split].
  pose proof (split_nonempty "/" s) as Hne.
  destruct (Ascii.eqb_spec c "/") as [->|Hc].
  - rewrite join_cons by exact Hne. now rewrite IH.
  - destruct (split "/" s) as [|seg segs]; [congruence|].
    destruct segs as [|seg' segs]; cbn in *; now rewrite IH.
Qed.

Lemma partCmp_eq (s1 s2 : string) : partCmp s1 s2 = Eq -> s1 = s2.
Proof.
  unfold partCmp. destruct (Nat.compare _ _); try discriminate.
  cbn. apply String.compare_eq_iff.
Qed.

Lemma routeCmp_eq (v1 p1 v2 p2 : string) :
  routeCmp (v1, p1) (v2, p2) = Eq <->
  normalizeVerb v1 = normalizeVerb v2 /\ p1 = p2.
Proof.
  unfold routeCmp. cbn [fst snd]. split.
  - destruct (String.compare _ _) eqn:E; try discriminate. cbn.
    apply String.compare_eq_iff in E. intros H. split; [now symmetry|].
    apply (listCmp_eq partCmp) in H; [|exact partCmp_eq].
    now rewrite <- (join_split p1), <- (join_split p2), H.
  - intros [-> ->]. rewrite (sw_refl String.compare StrictWeak_string). cbn.
    apply (sw_refl _ (StrictWeak_list _ StrictWeak_part)).
Qed.

Lemma sgn_CompOpp (z z' : Z) :
  (z' ?= 0) = CompOpp (z ?= 0) -> Z.sgn z' = - Z.sgn z.
Proof.
  destruct (Z.compare_spec z 0), (Z.compare_spec z' 0); cbn; try discriminate; lia.
Qed.

Lemma tied_isTie (a b : RouteEntry) :
  stringEntry a = true -> stringEntry b = true ->
  tied a b = isTie entryCmp a b.
Proof.
  intros Ha Hb. destruct (sortRoutes_stringEntry a b Ha Hb) as (z & Ez & Hz).
  unfold tied, isTie. rewrite Ez, <- Hz.
  now destruct (Z.compare_spec z 0) as [->| |]; [| apply Z.eqb_neq; lia ..].
Qed.

Lemma notAfter_entryCmp (a b : RouteEntry) :
  stringEntry a = true -> stringEntry b = true ->
  notAfter a b <-> entryCmp a b <> Gt.
Proof.
  intros Ha Hb. destruct (sortRoutes_stringEntry a b Ha Hb) as (z & Ez & Hz).
  unfold notAfter. rewrite Ez, <- Hz. split.
  - intros (z' & [= <-] & Hle). rewrite Z.compare_gt_iff. lia.
  - intros H. exists z. split; [reflexivity|]. rewrite Z.compare_gt_iff in H. lia.
Qed.

(** Two lists of parts differ at a first place, or one starts with the
    other. *)
Lemma first_difference_or_prefix (l1 l2 : list string) :
  (exists common s1 s2 rest1 rest2,
      l1 = common ++ s1 :: rest1 /\ l2 = common ++ s2 :: rest2 /\ s1 <> s2) \/
  (exists extra, l1 = l2 ++ extra) \/
  (exists extra, l2 = l1 ++ extra).
Proof.
  revert l2. induction l1 as [|x l1 IH]; intros l2.
  - right. right. now exists l2.
  - destruct l2 as [|y l2]; [right; left; now exists (x :: l1)|].
    destruct (String.eqb_spec x y) as [<-|Hne].
    + destruct (IH l2) as [(common & s1 & s2 & r1 & r2 & -> & -> & Hne)|[[extra ->]|[extra ->]]].
      * left. now exists (x :: common), s1, s2, r1, r2.
      * right. left. now exists extra.
      * right. right. now exists extra.
    + left. now exists [], x, y, l1, l2.
Qed.

Lemma verbs_trichotomy (v1 v2 : string) :
  Js.gt v1 v2 = true \/ Js.lt v1 v2 = true \/ v1 = v2.
Proof.
  destruct (String.eqb_spec v1 v2) as [->|Hne]; [now right; right|].
  destruct (ltb_total v1 v2 Hne) as [H|H]; [right; left | left]; exact H.
Qed.

Lemma StronglySorted_notAfter (s : list RouteEntry) :
  Forall (fun e => stringEntry e = true) s ->
  StronglySorted notAfter s <->
  StronglySorted (fun a b => entryCmp a b <> Gt) s.
Proof.
  induction 1 as [|x s Hx Hs IH]; [split; constructor|].
  split; intros Hsorted; inversion Hsorted as [|? ? Hs' Hhd]; subst;
    (constructor; [now apply IH|]);
    rewrite List.Forall_forall in Hhd |- *; rewrite List.Forall_forall in Hs;
    intros y Hy; apply (notAfter_entryCmp x y Hx (Hs y Hy)); now apply Hhd.
Qed.

(** C1: [sortRoutes] applies its rules in sequence until one discriminates.
    (1) The verbs, lowercased and with [del] read as [delete], are compared
    in descending order: the greater verb is registered first.  (2) With
    equal verbs, the paths are split on [/] and compared part by part; at
    the first place where the parts differ, an empty part comes after a
    part that is not empty, a placeholder (first character [:]) comes after
    a literal, and otherwise the smaller part comes first.  (3) When one
    path runs out of parts before any differ, the path with more parts
    comes first.  These cases are all the cases.  So [PUT /x] comes before
    [GET /x], and [GET /widgets/count] before [GET /widgets/:id]. *)
Theorem sortRoutes_rules :
  (forall (v1 p1 v2 p2 : string) (m1 m2 : SharedMethod),
      let r1 := entry v1 p1 m1 in
      let r2 := entry v2 p2 m2 in
      (Js.gt (normalizeVerb v1) (normalizeVerb v2) = true ->
       sortRoutes r1 r2 = Ok (-1)) /\
      (Js.lt (normalizeVerb v1) (normalizeVerb v2) = true ->
       sortRoutes r1 r2 = Ok 1) /\
      (normalizeVerb v1 = normalizeVerb v2 ->
       (forall (common : list string) (s1 s2 : string) (rest1 rest2 : list string),
           split "/" p1 = common ++ s1 :: rest1 ->
           split "/" p2 = common ++ s2 :: rest2 ->
           (s1 = "" -> s2 <> "" -> sortRoutes r1 r2 = Ok 1) /\
           (s1 <> "" -> s2 = "" -> sortRoutes r1 r2 = Ok (-1)) /\
           (s1 <> "" -> s2 <> "" ->
            isWildcard s1 = true -> isWildcard s2 = false ->
            sortRoutes r1 r2 = Ok 1) /\
           (s1 <> "" -> s2 <> "" ->
            isWildcard s1 = false -> isWildcard s2 = true ->
            sortRoutes r1 r2 = Ok (-1)) /\
           (s1 <> "" -> s2 <> "" -> isWildcard s1 = isWildcard s2 ->
            (Js.lt s1 s2 = true -> sortRoutes r1 r2 = Ok (-1)) /\
            (Js.gt s1 s2 = true -> sortRoutes r1 r2 = Ok 1))) /\
       (forall extra : list string,
           split "/" p1 = split "/" p2 ++ extra ->
           sortRoutes r1 r2 = Ok (- Z.of_nat (length extra))) /\
       (forall extra : list string,
           split "/" p2 = split "/" p1 ++ extra ->
           sortRoutes r1 r2 = Ok (Z.of_nat (length extra))))) /\
  (forall v1 v2 : string,
      Js.gt (normalizeVerb v1) (normalizeVerb v2) = true \/
      Js.lt (normalizeVerb v1) (normalizeVerb v2) = true \/
      normalizeVerb v1 = normalizeVerb v2) /\
  (forall p1 p2 : string,
      (exists common s1 s2 rest1 rest2,
          split "/" p1 = common ++ s1 :: rest1 /\
          split "/" p2 = common ++ s2 :: rest2 /\ s1 <> s2) \/
      (exists extra, split "/" p1 = split "/" p2 ++ extra) \/
      (exists extra, split "/" p2 = split "/" p1 ++ extra)) /\
  normalizeVerb "DEL" = "delete" /\
  (forall m1 m2 : SharedMethod,
      sortRoutes (entry "PUT" "/x" m1) (entry "GET" "/x" m2) = Ok (-1)) /\
  (forall m1 m2 : SharedMethod,
      sortRoutes (entry "GET" "/widgets/count" m1)
                 (entry "GET" "/widgets/:id" m2) = Ok (-1)).
Proof.
  split; [|split; [|split; [|repeat split]]];
    [| intros v1 v2; apply verbs_trichotomy
     | intros p1 p2; apply first_difference_or_prefix].
  intros v1 p1 v2 p2 m1 m2 r1 r2. subst r1 r2. rewrite sortRoutes_verbs.
  split; [now intros ->|].
  split; [intros H; unfold Js.gt, Js.lt in *; now rewrite (ltb_asym _ _ H), H|].
  intros ->. unfold Js.gt, Js.lt. rewrite ltb_irrefl.
  split; [|split].
  - intros common s1 s2 rest1 rest2 -> ->.
    rewrite comparePaths_first_difference.
    destruct (partCmp_rules s1 s2) as (R1 & R2 & R3 & R4 & R5).
    split; [intros E1 E2; now rewrite (R1 E1 E2)|].
    split; [intros E1 E2; now rewrite (R2 E1 E2)|].
    split; [intros E1 E2 W1 W2; now rewrite (R3 E1 E2 W1 W2)|].
    split; [intros E1 E2 W1 W2; now rewrite (R4 E1 E2 W1 W2)|].
    intros E1 E2 W. destruct (R5 E1 E2 W) as [L G].
    split; intros H; [now rewrite (L H) | now rewrite (G H)].
  - intros extra ->. unfold comparePaths.
    rewrite compareParts_prefix_l, length_app. f_equal. lia.
  - intros extra ->. unfold comparePaths.
    rewrite compareParts_prefix_r, length_app. f_equal. lia.
Qed.

Lemma sortRoutes_rules_witness :
  sortRoutes (entry "get" "/widgets/:id" Sample.find)
             (entry "get" "/widgets/count" Sample.count) = Ok 1 /\
  sortRoutes (entry "get" "/widgets/:id/parts" Sample.find)
             (entry "get" "/widgets/:id" Sample.count) = Ok (-1).
Proof.
  destruct sortRoutes_rules as [Hrules _].
  destruct (Hrules "get" "/widgets/:id" "get" "/widgets/count"
              Sample.find Sample.count) as (_ & _ & Hpaths).
  destruct (Hrules "get" "/widgets/:id/parts" "get" "/widgets/:id"
              Sample.find Sample.count) as (_ & _ & Hpaths').
  split.
  - destruct (Hpaths eq_refl) as (Hfirst & _).
    destruct (Hfirst [""; "widgets"] ":id" "count" [] [] eq_refl eq_refl)
      as (_ & _ & Hwild & _).
    apply Hwild; [discriminate | discriminate | reflexivity | reflexivity].
  - destruct (Hpaths' eq_refl) as (_ & Hlonger & _).
    apply (Hlonger ["parts"]). reflexivity.
Defined.

(** C2, as stated, fails: [sortRoutes] returns [0] for two routes that are
    not equal, the legacy verb [del] being read as [delete]. *)
Lemma sortRoutes_zero_counterexample :
  sortRoutes (entry "del" "/x" Sample.find) (entry "delete" "/x" Sample.find) = Ok 0 /\
  route (entry "del" "/x" Sample.find) <> route (entry "delete" "/x" Sample.find).
Proof. split; [reflexivity | discriminate]. Qed.

(** C2, amended: on routes with string verbs and paths, [sortRoutes(a, b)]
    and [sortRoutes(b, a)] have opposite signs; [sortRoutes(a, b) == 0]
    exactly when the two paths are equal and the two verbs are equal once
    lowercased and with [del] read as [delete]; coming before is
    transitive, and so is not coming after.  Consequently the sort of a
    list of such routes succeeds; its result is a permutation of the list,
    is sorted, keeps the routes that tie in their original order, and is
    the only list to do so; and a second sort leaves it as it is. *)
Theorem sortRoutes_strict_weak_order :
  (forall (v1 p1 v2 p2 : string) (m1 m2 : SharedMethod),
      exists z z',
        sortRoutes (entry v1 p1 m1) (entry v2 p2 m2) = Ok z /\
        sortRoutes (entry v2 p2 m2) (entry v1 p1 m1) = Ok z' /\
        Z.sgn z' = - Z.sgn z) /\
  (forall (v1 p1 v2 p2 : string) (m1 m2 : SharedMethod),
      sortRoutes (entry v1 p1 m1) (entry v2 p2 m2) = Ok 0 <->
      normalizeVerb v1 = normalizeVerb v2 /\ p1 = p2) /\
  (forall (a b c : RouteEntry) (zab zbc : Z),
      stringEntry a = true -> stringEntry b = true -> stringEntry c = true ->
      sortRoutes a b = Ok zab -> sortRoutes b c = Ok zbc ->
      exists zac, sortRoutes a c = Ok zac /\
                  (zab < 0 -> zbc < 0 -> zac < 0) /\
                  (zab <= 0 -> zbc <= 0 -> zac <= 0)) /\
  (forall l : list RouteEntry,
      Forall (fun e => stringEntry e = true) l ->
      exists sorted,
        sort sortRoutes l = Ok sorted /\
        Permutation l sorted /\
        StronglySorted notAfter sorted /\
        (forall w, stringEntry w = true ->
                   List.filter (tied w) sorted = List.filter (tied w) l) /\
        sort sortRoutes sorted = Ok sorted /\
        (forall other : list RouteEntry,
            Permutation l other ->
            StronglySorted notAfter other ->
            (forall w, In w l ->
                       List.filter (tied w) other = List.filter (tied w) l) ->
            other = sorted)).
Proof.
  split; [|split; [|split]].
  - intros v1 p1 v2 p2 m1 m2.
    destruct (sortRoutes_strings v1 p1 v2 p2 m1 m2) as (z & Ez & Hz).
    destruct (sortRoutes_strings v2 p2 v1 p1 m2 m1) as (z' & Ez' & Hz').
    exists z, z'. split; [exact Ez|]. split; [exact Ez'|].
    apply sgn_CompOpp. rewrite Hz, Hz'. apply (sw_antisym routeCmp StrictWeak_route).
  - intros v1 p1 v2 p2 m1 m2.
    destruct (sortRoutes_strings v1 p1 v2 p2 m1 m2) as (z & Ez & Hz).
    rewrite Ez, <- routeCmp_eq, <- Hz. split.
    + now intros [= ->].
    + intros H. apply Z.compare_eq in H. now subst.
  - intros a b c zab zbc Ha Hb Hc Eab Ebc.
    destruct (sortRoutes_stringEntry a b Ha Hb) as (z1 & E1 & H1).
    destruct (sortRoutes_stringEntry b c Hb Hc) as (z2 & E2 & H2).
    destruct (sortRoutes_stringEntry a c Ha Hc) as (z3 & E3 & H3).
    rewrite E1 in Eab. rewrite E2 in Ebc.
    injection Eab as ->. injection Ebc as ->.
    exists z3. split; [exact E3|]. split.
    + unfold Z.lt. rewrite H1, H2, H3.
      apply (sw_trans entryCmp StrictWeak_entry a b c).
    + unfold Z.le. rewrite H1, H2, H3.
      apply (sw_trans_le entryCmp StrictWeak_entry a b c).
  - intros l Hl. exists (sortBy entryCmp l).
    assert (Hs : Forall (fun e => stringEntry e = true) (sortBy entryCmp l)).
    { eapply Permutation_Forall; [apply sortBy_perm | exact Hl]. }
    split; [now apply sort_strings|].
    split; [apply sortBy_perm|].
    split; [|split; [|split]].
    + apply (StronglySorted_notAfter _ Hs).
      apply (sortBy_sorted entryCmp StrictWeak_entry).
    + intros w Hw.
      rewrite (filter_ext_in (tied w) (isTie entryCmp w) (sortBy entryCmp l)).
      * rewrite (filter_ext_in (tied w) (isTie entryCmp w) l).
        -- apply (sortBy_stable entryCmp StrictWeak_entry).
        -- intros e He. apply tied_isTie; [exact Hw|].
           rewrite Forall_forall in Hl. apply Hl. now apply list_elem_of_In.
      * intros e He. apply tied_isTie; [exact Hw|].
        rewrite Forall_forall in Hs. apply Hs. now apply list_elem_of_In.
    + rewrite (sort_strings _ Hs). f_equal.
      apply (sortBy_twice entryCmp StrictWeak_entry).
    + intros other Hp Hsorted Hties.
      assert (Ho : Forall (fun e => stringEntry e = true) other)
        by (eapply Permutation_Forall; [exact Hp | exact Hl]).
      apply (sortBy_unique entryCmp StrictWeak_entry l other Hp).
      * now apply (StronglySorted_notAfter _ Ho).
      * intros w Hw.
        assert (Hws : stringEntry w = true).
        { rewrite List.Forall_forall in Hl. now apply Hl. }
        rewrite <- (filter_ext_in (tied w) (isTie entryCmp w) other).
        -- rewrite <- (filter_ext_in (tied w) (isTie entryCmp w) l).
           ++ now apply Hties.
           ++ intros e He. apply tied_isTie; [exact Hws|].
              rewrite List.Forall_forall in Hl. now apply Hl.
        -- intros e He. apply tied_isTie; [exact Hws|].
           rewrite List.Forall_forall in Ho. now apply Ho.
Qed.

Lemma sortRoutes_strict_weak_order_witness :
  exists sorted,
    sort sortRoutes [entry "get" "/widgets/:id" Sample.find;
                     entry "put" "/widgets/:id" Sample.count;
                     entry "get" "/widgets/count" Sample.count] = Ok sorted /\
    sort sortRoutes sorted = Ok sorted.
Proof.
  destruct sortRoutes_strict_weak_order as (_ & _ & _ & Hsort).
  destruct (Hsort [entry "get" "/widgets/:id" Sample.find;
                   entry "put" "/widgets/:id" Sample.count;
                   entry "get" "/widgets/count" Sample.count])
    as (sorted & E & _ & _ & _ & E' & _); [repeat constructor|].
  exists sorted. split; assumption.
Defined.

(** Sorts by verb and path, by the accuracy of the path, and of paths with
    common parts. *)
Example sort_verb_and_path :
  sort sortRoutes [entry "get" "/" Sample.find; entry "get" "/:id" Sample.find;
                   entry "get" "/findOne" Sample.find;
                   entry "delete" "/" Sample.find;
                   entry "del" "/:id" Sample.find] =
  Ok [entry "get" "/findOne" Sample.find; entry "get" "/:id" Sample.find;
      entry "get" "/" Sample.find; entry "del" "/:id" Sample.find;
      entry "delete" "/" Sample.find].
Proof. reflexivity. Qed.

Example sort_path_accuracy :
  sort sortRoutes [entry "get" "/" Sample.find; entry "get" "/:id/docs" Sample.find;
                   entry "get" "/:id" Sample.find;
                   entry "get" "/findOne" Sample.find] =
  Ok [entry "get" "/findOne" Sample.find; entry "get" "/:id/docs" Sample.find;
      entry "get" "/:id" Sample.find; entry "get" "/" Sample.find].
Proof. reflexivity. Qed.

Example sort_common_parts :
  sort sortRoutes [entry "get" "/sum" Sample.find; entry "get" "/sum/1" Sample.find] =
  Ok [entry "get" "/sum/1" Sample.find; entry "get" "/sum" Sample.find].
Proof. reflexivity. Qed.

(** The sort on the three routes above. *)
Example sort_sample :
  sort sortRoutes [entry "get" "/widgets/:id" Sample.find;
                   entry "put" "/widgets/:id" Sample.count;
                   entry "get" "/widgets/count" Sample.count] =
  Ok [entry "put" "/widgets/:id" Sample.count;
      entry "get" "/widgets/count" Sample.count;
      entry "get" "/widgets/:id" Sample.find].
Proof. reflexivity. Qed.

(** ** Route derivation *)

Section Derivation.
Variable transform : string -> string.

Lemma or_truthy (a b : value) : truthy a = true -> Js.or a b = a.
Proof. unfold Js.or. now intros ->. Qed.

Lemma or_falsy (a b : value) : truthy a = false -> Js.or a b = b.
Proof. unfold Js.or. now intros ->. Qed.

Lemma eqStr_true (v : value) (s : string) : eqStr v s = true <-> v = VString s.
Proof.
  destruct v as [| | | | |t|]; cbn; try (split; [discriminate | discriminate]).
  rewrite String.eqb_eq. split; [now intros -> | now intros [= ->]].
Qed.

Lemma eqStr_false (v : value) (s : string) : eqStr v s = false <-> v <> VString s.
Proof.
  rewrite <- eqStr_true. destruct (eqStr v s); split; congruence.
Qed.

Lemma getRoutes_absent (obj : Obj) (adapterOptions : option Options) :
  http obj = HttpAbsent ->
  getRoutes transform obj adapterOptions =
  if eqStr (name obj) "sharedCtor" then
    [ {| verb := VString "all"; path := VString "/prototype" |} ]
  else
    [ {| verb := VString "all";
         path := if truthy (name obj)
                 then toPathOf transform (selectNormalize obj adapterOptions)
                               (add (VString "/") (name obj))
                 else VString "" |} ].
Proof. unfold getRoutes. now intros ->. Qed.

Lemma getRoutes_declared (obj : Obj) (adapterOptions : option Options)
    (declared : list Route) :
  http obj = HttpRoutes declared \/
  (exists r, http obj = HttpRoute r /\ declared = [r]) ->
  getRoutes transform obj adapterOptions =
  map (patchRoute (toPathOf transform (selectNormalize obj adapterOptions)) obj)
      declared.
Proof. unfold getRoutes. now intros [->|(r & -> & ->)]. Qed.

(** C5: an entity without declared routes has exactly one route, of verb
    [all]: of path [/prototype], not normalized, when it is the shared
    constructor; of path [toPath('/' + name)] otherwise; of the empty path
    when it has no name.  A declared route keeps its verb, lowercased, and
    its path; a missing verb is [all] and a missing path is ['/' + name];
    the path goes through [toPath].  [toPath] normalizes when the
    [normalizeHttpPath] option of the class is set and true, or is not set
    and the option of the adapter is true.  The options of the class are
    those of [obj.sharedClass] for a method, whose own options are not
    read, and those of [obj] itself for a class. *)
Theorem getRoutes_defaults :
  (forall (obj : Obj) (adapterOptions : option Options),
      http obj = HttpAbsent ->
      let toPath := toPathOf transform (selectNormalize obj adapterOptions) in
      (name obj = VString "sharedCtor" ->
       getRoutes transform obj adapterOptions =
       [ {| verb := VString "all"; path := VString "/prototype" |} ]) /\
      (name obj <> VString "sharedCtor" -> truthy (name obj) = true ->
       getRoutes transform obj adapterOptions =
       [ {| verb := VString "all";
            path := toPath (VString ("/" ++ toString (name obj))) |} ]) /\
      (truthy (name obj) = false ->
       getRoutes transform obj adapterOptions =
       [ {| verb := VString "all"; path := VString "" |} ])) /\
  (forall (obj : Obj) (adapterOptions : option Options) (declared : list Route),
      http obj = HttpRoutes declared \/
      (exists r, http obj = HttpRoute r /\ declared = [r]) ->
      let toPath := toPathOf transform (selectNormalize obj adapterOptions) in
      length (getRoutes transform obj adapterOptions) = length declared /\
      forall (i : nat) (r : Route),
        declared !! i = Some r ->
        exists r', getRoutes transform obj adapterOptions !! i = Some r' /\
          (truthy (verb r) = false -> verb r' = VString "all") /\
          (truthy (verb r) = true ->
           verb r' = VString (toLowerCase (toString (verb r)))) /\
          (truthy (path r) = false ->
           path r' = toPath (VString ("/" ++ toString (name obj)))) /\
          (truthy (path r) = true -> path r' = toPath (path r))) /\
  (forall (obj : Obj) (adapterOptions : option Options),
      (forall sc classOptions,
          sharedClass obj = Some sc -> refOptions sc = Some classOptions ->
          optNormalizeHttpPath classOptions <> VUndefined ->
          selectNormalize obj adapterOptions = optNormalizeHttpPath classOptions) /\
      (forall classOptions,
          sharedClass obj = None -> options obj = Some classOptions ->
          optNormalizeHttpPath classOptions <> VUndefined ->
          selectNormalize obj adapterOptions = optNormalizeHttpPath classOptions) /\
      ((exists sc, sharedClass obj = Some sc /\
                   (refOptions sc = None \/
                    exists classOptions,
                      refOptions sc = Some classOptions /\
                      optNormalizeHttpPath classOptions = VUndefined)) \/
       (sharedClass obj = None /\
        (options obj = None \/
         exists classOptions,
           options obj = Some classOptions /\
           optNormalizeHttpPath classOptions = VUndefined)) ->
       selectNormalize obj adapterOptions =
       match adapterOptions with
       | Some options => optNormalizeHttpPath options
       | None => VUndefined
       end) /\
      (forall classOptions,
          classOptionsOf obj = Some classOptions ->
          optNormalizeHttpPath classOptions <> VUndefined ->
          selectNormalize obj adapterOptions = optNormalizeHttpPath classOptions) /\
      (forall options,
          adapterOptions = Some options ->
          classOptionsOf obj = None \/
          (exists classOptions, classOptionsOf obj = Some classOptions /\
                                optNormalizeHttpPath classOptions = VUndefined) ->
          selectNormalize obj adapterOptions = optNormalizeHttpPath options) /\
      (forall path,
          toPathOf transform (selectNormalize obj adapterOptions) path =
          if truthy (selectNormalize obj adapterOptions)
          then normalizeHttpPath transform path else path)).
Proof.
  split; [|split].
  - intros obj adapterOptions H toPath. rewrite (getRoutes_absent obj adapterOptions H).
    split; [|split].
    + now intros ->.
    + intros Hn Ht. apply eqStr_false in Hn. rewrite Hn, Ht.
      now destruct (name obj).
    + intros Ht. rewrite Ht.
      destruct (eqStr (name obj) "sharedCtor") eqn:E; [|reflexivity].
      apply eqStr_true in E. now rewrite E in Ht.
  - intros obj adapterOptions declared H toPath.
    rewrite (getRoutes_declared obj adapterOptions declared H).
    split; [apply length_map|].
    intros i r Hi. eexists. split; [now rewrite list_lookup_fmap, Hi|].
    cbn [patchRoute verb path]. fold toPath.
    split; [intros Hv; now rewrite (or_falsy _ _ Hv)|].
    split; [intros Hv; now rewrite (or_truthy _ _ Hv)|].
    split; [intros Hp; rewrite (or_falsy _ _ Hp); now destruct (name obj)|].
    intros Hp. now rewrite (or_truthy _ _ Hp).
  - intros obj adapterOptions. unfold selectNormalize.
    split; [|split; [|split; [|split; [|split]]]].
    + intros sc classOptions Hsc Hco Hn. unfold classOptionsOf. rewrite Hsc, Hco.
      destruct (optNormalizeHttpPath classOptions), adapterOptions; congruence.
    + intros classOptions Hsc Hco Hn. unfold classOptionsOf. rewrite Hsc, Hco.
      destruct (optNormalizeHttpPath classOptions), adapterOptions; congruence.
    + unfold classOptionsOf.
      intros [(sc & -> & [->|(classOptions & -> & ->)])
             |(-> & [->|(classOptions & -> & ->)])];
        now destruct adapterOptions.
    + intros classOptions -> Hn.
      destruct (optNormalizeHttpPath classOptions), adapterOptions; congruence.
    + intros options -> [->|(classOptions & -> & ->)]; reflexivity.
    + intros path. unfold toPathOf, untransformedPath.
      now destruct (truthy _).
Qed.

End Derivation.

Lemma getRoutes_defaults_witness :
  getRoutes Inflection.transform (objOfClass Sample.Widget)
            (Some Sample.normalizing) =
  [ {| verb := VString "all"; path := VString "/widget" |} ] /\
  getRoutes Inflection.transform (objOfMethod Sample.widgetCtor)
            (Some Sample.normalizing) =
  [ {| verb := VString "all"; path := VString "/prototype/:id" |} ] /\
  selectNormalize (objOfMethod Sample.findByName) (Some Sample.notNormalizing) =
  VBool true /\
  selectNormalize (objOfClass Sample.MyWidget) (Some Sample.notNormalizing) =
  VBool true /\
  selectNormalize (objOfClass Sample.Widget) (Some Sample.notNormalizing) =
  VBool false /\
  getRoutes Inflection.transform (objOfClass Sample.MyWidget)
            (Some Sample.notNormalizing) =
  [ {| verb := VString "all"; path := VString "/my-widget" |} ].
Proof.
  destruct (getRoutes_defaults Inflection.transform)
    as (Habsent & Hdeclared & Hselect).
  destruct (Hselect (objOfMethod Sample.findByName) (Some Sample.notNormalizing))
    as (Hmethod & _).
  destruct (Hselect (objOfClass Sample.MyWidget) (Some Sample.notNormalizing))
    as (_ & Hclass & _ & _ & _ & HtoPath).
  destruct (Hselect (objOfClass Sample.Widget) (Some Sample.notNormalizing))
    as (_ & _ & Hadapter & _).
  split; [|split; [|split; [|split; [|split]]]].
  - destruct (Habsent (objOfClass Sample.Widget) (Some Sample.normalizing) eq_refl)
      as (_ & Hname & _).
    apply Hname; [discriminate | reflexivity].
  - destruct (Hdeclared (objOfMethod Sample.widgetCtor) (Some Sample.normalizing)
                [ {| verb := VUndefined; path := VString "/prototype/:id" |} ])
      as (Hlen & Hroute).
    + right. eexists. split; reflexivity.
    + destruct (Hroute 0%nat {| verb := VUndefined; path := VString "/prototype/:id" |}
                  eq_refl) as (r' & Hr & Hverb & _ & _ & Hpath).
      destruct (getRoutes Inflection.transform (objOfMethod Sample.widgetCtor)
                  (Some Sample.normalizing)) as [|r [|r2 rs]];
        [discriminate | | discriminate].
      injection Hr as ->. destruct r' as [v p]. cbn in Hverb, Hpath.
      now rewrite (Hverb eq_refl), (Hpath eq_refl).
  - apply (Hmethod {| refOptions := Some Sample.normalizing |} Sample.normalizing);
      [reflexivity | reflexivity | discriminate].
  - apply (Hclass Sample.normalizing); [reflexivity | reflexivity | discriminate].
  - apply Hadapter. right. split; [reflexivity | now left].
  - destruct (Habsent (objOfClass Sample.MyWidget) (Some Sample.notNormalizing)
                eq_refl) as (_ & Hname & _).
    rewrite Hname by (discriminate || reflexivity).
    rewrite HtoPath, (Hclass Sample.normalizing)
      by (reflexivity || discriminate).
    reflexivity.
Defined.

(** *** Derivation, again

    [getClasses] derives the routes of the same shared objects at each
    call, from the routes the call before has patched. *)

Lemma lowerUnit_twice (c : ascii) : lowerUnit (lowerUnit c) = lowerUnit c.
Proof. destruct c as [[|] [|] [|] [|] [|] [|] [|] [|]]; reflexivity. Qed.

Lemma toLowerCase_twice (s : string) : toLowerCase (toLowerCase s) = toLowerCase s.
Proof.
  induction s as [|c s IH]; [reflexivity|]. cbn. now rewrite lowerUnit_twice, IH.
Qed.

Section DerivationAgain.
Variable transform : string -> string.
Hypothesis transform_no_slash :
  forall s, plainRun s = true -> contains "/" (transform s) = false.
Hypothesis transform_idempotent :
  forall s, plainRun s = true -> transform (transform s) = transform s.

Lemma toPathOf_twice (normalize : value) (p : string) :
  toPathOf transform normalize (toPathOf transform normalize (VString p)) =
  toPathOf transform normalize (VString p).
Proof.
  unfold toPathOf. destruct (truthy normalize); [|reflexivity].
  now apply normalizeHttpPath_twice.
Qed.

Lemma patchRoute_again (normalize : value) (obj : Obj) (r : Route) :
  let r' := patchRoute (toPathOf transform normalize) obj r in
  truthy (verb r') = true -> truthy (path r') = true -> isString (path r') = true ->
  patchRoute (toPathOf transform normalize) obj r' = r'.
Proof.
  intros r' Hv Hp Hs. subst r'. unfold patchRoute in *. cbn [verb path] in *.
  f_equal.
  - unfold Js.or at 1. rewrite Hv. cbn [toString]. now rewrite toLowerCase_twice.
  - unfold Js.or at 1. rewrite Hp.
    destruct (Js.or (path r) (add (VString "/") (name obj))) as [| | | | |p|] eqn:E.
    all: try (unfold toPathOf, untransformedPath in *;
              destruct (truthy normalize); cbn in Hs; discriminate).
    apply toPathOf_twice.
Qed.

(** X1: a second derivation returns the routes of the first one, when these
    have verbs, and strings for paths, that are not empty. *)
Lemma getRoutes_again (obj : Obj) (adapterOptions : option Options) :
  Forall (fun r => truthy (verb r) = true /\ truthy (path r) = true /\
                   isString (path r) = true)
         (getRoutes transform obj adapterOptions) ->
  getRoutes transform (patched transform obj adapterOptions) adapterOptions =
  getRoutes transform obj adapterOptions.
Proof.
  unfold getRoutes, patched. cbn [http name]. 
  change (selectNormalize
            {| http := _; name := name obj; sharedClass := sharedClass obj;
               options := options obj |} adapterOptions)
    with (selectNormalize obj adapterOptions).
  destruct (http obj) as [|r|rs]; [reflexivity | |].
  - cbn [map]. intros H. inversion H as [|? ? (Hv & Hp & Hs) _]; subst. f_equal.
    now apply (patchRoute_again _ obj r).
  - intros H. rewrite map_map. apply map_ext_Forall.
    rewrite Forall_map in H. eapply Forall_impl; [exact H|].
    intros r (Hv & Hp & Hs). now apply (patchRoute_again _ obj r).
Qed.

End DerivationAgain.

(** C10, as stated, fails: a declared route whose path is [undefined], a
    value that is not a string, is given the default path before the
    normalization, which is enabled here, and its derived path is a
    string. *)
Lemma getRoutes_undefined_path_counterexample :
  methodHttp Sample.findWithoutPath =
    HttpRoute {| verb := VString "get"; path := VUndefined |} /\
  isString VUndefined = false /\
  truthy (selectNormalize (objOfMethod Sample.findWithoutPath) None) = true /\
  getRoutes Inflection.transform (objOfMethod Sample.findWithoutPath) None =
    [ {| verb := VString "get"; path := VString "/find" |} ].
Proof. repeat split. Qed.

Section NonStringPaths.
Variable transform : string -> string.

(** C10, amended: [normalizeHttpPath] returns [undefined] for every input
    that is not a string.  Consequently, with normalization enabled, a
    declared route whose path is not a string and is truthy (a number other
    than zero, [true], an object) is derived into a route whose path is
    [undefined]; a declared path that is not a string and is falsy
    ([undefined], [null], [false], [0], [NaN]) is replaced by ['/' + name]
    before the normalization, and the derived path is a string. *)
Theorem normalizeHttpPath_non_string :
  (forall v : value,
      isString v = false -> normalizeHttpPath transform v = VUndefined) /\
  (forall (obj : Obj) (adapterOptions : option Options) (declared : list Route)
          (i : nat) (r : Route),
      http obj = HttpRoutes declared \/
      (exists r0, http obj = HttpRoute r0 /\ declared = [r0]) ->
      truthy (selectNormalize obj adapterOptions) = true ->
      declared !! i = Some r ->
      isString (path r) = false ->
      exists r',
        getRoutes transform obj adapterOptions !! i = Some r' /\
        (truthy (path r) = true -> path r' = VUndefined) /\
        (truthy (path r) = false ->
         path r' = normalizeHttpPath transform
                     (VString ("/" ++ toString (name obj))) /\
         isString (path r') = true)).
Proof.
  split; [now intros [| | | | |s|]|].
  intros obj adapterOptions declared i r H Hn Hi Hs.
  rewrite (getRoutes_declared transform obj adapterOptions declared H).
  eexists. split; [now rewrite list_lookup_fmap, Hi|].
  cbn [patchRoute path]. unfold toPathOf. rewrite Hn. split.
  - intros Ht. rewrite (or_truthy _ _ Ht). now destruct (path r).
  - intros Hf. rewrite (or_falsy _ _ Hf). now destruct (name obj).
Qed.

End NonStringPaths.

Lemma normalizeHttpPath_non_string_witness :
  exists r',
    getRoutes Inflection.transform (objOfMethod Sample.findWithNumber) None !! 0%nat
      = Some r' /\ path r' = VUndefined.
Proof.
  destruct (normalizeHttpPath_non_string Inflection.transform) as [_ H].
  destruct (H (objOfMethod Sample.findWithNumber) None
              [ {| verb := VString "get"; path := VNumber 5 |} ] 0%nat
              {| verb := VString "get"; path := VNumber 5 |})
    as (r' & Hr & Htruthy & _).
  - right. eexists. split; reflexivity.
  - reflexivity.
  - reflexivity.
  - reflexivity.
  - exists r'. split; [exact Hr | now apply Htruthy].
Defined.

(** ** Rest methods *)

Lemma prefix_append (p x : string) : String.prefix p (p ++ x) = true.
Proof.
  induction p as [|c p IH]; cbn; [now destruct x|].
  destruct (ascii_dec c c); [exact IH | congruence].
Qed.

Lemma prefix_refl (p : string) : String.prefix p p = true.
Proof. rewrite <- (append_empty_r p) at 2. apply prefix_append. Qed.

(** The left side of a join is a prefix of the result. *)
Lemma joinPaths_prefix (p s : string) :
  exists q, joinPaths (VString p) (VString s) = VString q /\
            String.prefix p q = true.
Proof.
  destruct (String.eqb_spec p "") as [->|Hp].
  { exists s. split; [reflexivity | now destruct s]. }
  destruct (String.eqb_spec s "") as [->|Hs].
  { exists p. split; [apply joinPaths_empty_right | apply prefix_refl]. }
  destruct (String.eqb_spec s "/") as [->|Hs'].
  { exists p. split; [now apply joinPaths_slash_right | apply prefix_refl]. }
  destruct (last_is_char p Hp) as [c Hc], (first_is_char s Hs) as [d Hd].
  rewrite (joinPaths_strings p s c d Hc Hd Hs').
  eexists. split; [reflexivity|].
  destruct (Ascii.eqb c "/"), (Ascii.eqb d "/"); apply prefix_append.
Qed.

Section RestMethods.
Variable transform : string -> string.

Lemma getRoutes_nonempty (obj : Obj) (adapterOptions : option Options) :
  http obj <> HttpRoutes [] -> getRoutes transform obj adapterOptions <> [].
Proof.
  unfold getRoutes. destruct (http obj) as [|r|[|r rs]]; try discriminate.
  - intros _. now destruct (eqStr _ _).
  - congruence.
Qed.

Lemma flat_map_nonempty {A B : Type} (f : A -> list B) (l : list A) :
  l <> [] -> (forall x, f x <> []) -> flat_map f l <> [].
Proof.
  destruct l as [|x l]; [congruence|]. intros _ Hf. cbn.
  specialize (Hf x). destruct (f x); [congruence | discriminate].
Qed.

Lemma restMethods_elem (sc : SharedClass) (adapterOptions : option Options)
    (rm : RestMethod) :
  rm ∈ restMethods (newRestClass transform sc adapterOptions) ->
  exists sm, sm ∈ methods sc /\ isSharedCtor sm = false /\
    rm = newRestMethod transform adapterOptions
           (option_map (newRestMethod transform adapterOptions None) (sharedCtor sc))
           sm.
Proof.
  cbn. intros H. apply list_elem_of_fmap in H as (sm & -> & Hsm).
  apply list_elem_of_filter in Hsm as [Hc Hsm]. now exists sm.
Qed.

Lemma ctor_routes (adapterOptions : option Options) (c : SharedMethod) :
  routes (newRestMethod transform adapterOptions None c) =
  getRoutes transform (objOfMethod c) adapterOptions.
Proof. cbn. now destruct (isStatic c). Qed.

Lemma length_cross {A B C : Type} (f : A -> B -> C) (l1 : list A) (l2 : list B) :
  length (flat_map (fun x => map (f x) l2) l1) = (length l1 * length l2)%nat.
Proof.
  induction l1 as [|x l1 IH]; [reflexivity|].
  cbn [flat_map]. rewrite length_app, length_map, IH. reflexivity.
Qed.

Lemma elem_of_cross {A B C : Type} (f : A -> B -> C) (l1 : list A) (l2 : list B)
    (z : C) :
  z ∈ flat_map (fun x => map (f x) l2) l1 <->
  exists y x, y ∈ l2 /\ x ∈ l1 /\ z = f x y.
Proof.
  rewrite list_elem_of_In, in_flat_map. split.
  - intros (x & Hx & Hz). apply in_map_iff in Hz as (y & <- & Hy).
    exists y, x. now rewrite !list_elem_of_In.
  - intros (y & x & Hy & Hx & ->). exists x. rewrite <- list_elem_of_In.
    split; [exact Hx|]. apply in_map. now apply list_elem_of_In.
Qed.

(** C6, amended: every rest method of a class has at least one route,
    unless an empty array of routes is declared for it, or for the shared
    constructor of its class; the routes of a static method, and of a
    method of a class without shared constructor, are its own routes; and
    the routes of a method that is not static, in a class with a shared
    constructor, are the cross product of its own routes and the routes of
    the constructor: each of them has the verb of a route [m] of the method
    and the path [joinPaths(c.path, m.path)] for a route [c] of the
    constructor, of which, between strings, [c.path] is a prefix. *)
Theorem restMethod_routes :
  forall (sc : SharedClass) (adapterOptions : option Options) (rm : RestMethod),
    rm ∈ restMethods (newRestClass transform sc adapterOptions) ->
    let sm := sharedMethod rm in
    let methodRoutes := getRoutes transform (objOfMethod sm) adapterOptions in
    (methodHttp sm <> HttpRoutes [] ->
     (forall c, sharedCtor sc = Some c -> methodHttp c <> HttpRoutes []) ->
     routes rm <> []) /\
    (isStatic sm = true \/ sharedCtor sc = None -> routes rm = methodRoutes) /\
    (forall c : SharedMethod,
        isStatic sm = false -> sharedCtor sc = Some c ->
        let ctorRoutes := getRoutes transform (objOfMethod c) adapterOptions in
        length (routes rm) = (length methodRoutes * length ctorRoutes)%nat /\
        (forall r : Route,
            r ∈ routes rm <->
            exists cr m, cr ∈ ctorRoutes /\ m ∈ methodRoutes /\
              r = {| verb := verb m; path := joinPaths (path cr) (path m) |}) /\
        (forall r : Route,
            r ∈ routes rm ->
            exists cr m, cr ∈ ctorRoutes /\ m ∈ methodRoutes /\
              path r = joinPaths (path cr) (path m) /\
              forall p s : string,
                path cr = VString p -> path m = VString s ->
                exists q, path r = VString q /\ String.prefix p q = true)).
Proof.
  intros sc adapterOptions rm Hrm sm methodRoutes. subst sm methodRoutes.
  apply restMethods_elem in Hrm as (sm' & _ & _ & ->).
  cbn [sharedMethod newRestMethod routes].
  split; [|split].
  - intros Hm Hc. destruct (isStatic sm') eqn:Es.
    + now apply getRoutes_nonempty.
    + destruct (sharedCtor sc) as [c|] eqn:Ec; cbn [option_map].
      * apply flat_map_nonempty; [now apply getRoutes_nonempty|].
        intros route. rewrite ctor_routes.
        pose proof (getRoutes_nonempty (objOfMethod c) adapterOptions (Hc c eq_refl)) as Hne.
        destruct (getRoutes transform (objOfMethod c) adapterOptions);
          [congruence | discriminate].
      * now apply getRoutes_nonempty.
  - intros [->| ->]; [reflexivity | now destruct (isStatic sm')].
  - intros c Es Ec. rewrite Es, Ec. cbn [option_map].
    rewrite ctor_routes. split; [apply length_cross|].
    split.
    + intros r.
      apply (elem_of_cross
               (fun route ctorRoute =>
                  {| verb := verb route;
                     path := joinPaths (path ctorRoute) (path route) |})).
    + intros r Hr.
      apply (elem_of_cross
               (fun route ctorRoute =>
                  {| verb := verb route;
                     path := joinPaths (path ctorRoute) (path route) |}))
        in Hr as (cr & m & Hcr & Hm & ->).
      exists cr, m. split; [exact Hcr|]. split; [exact Hm|].
      split; [reflexivity|].
      intros p s Hp Hs. cbn [path]. rewrite Hp, Hs. apply joinPaths_prefix.
Qed.

End RestMethods.

(** C6, as stated, fails: a method declared with an empty array of routes
    has no route. *)
Lemma restMethod_routes_counterexample :
  map routes
      (restMethods (newRestClass Inflection.transform Sample.WidgetWithoutRoutes
                                 (Some Sample.noOptions))) = [[]].
Proof. reflexivity. Qed.

Lemma restMethod_routes_witness :
  map routes
      (restMethods (newRestClass Inflection.transform Sample.Widget
                                 (Some Sample.noOptions))) =
  [ [ {| verb := VString "all"; path := VString "/find" |} ];
    [ {| verb := VString "get"; path := VString "/prototype/:id/count" |} ] ] /\
  forall rm,
    rm ∈ restMethods (newRestClass Inflection.transform Sample.Widget
                                   (Some Sample.noOptions)) ->
    routes rm <> [].
Proof.
  split; [reflexivity|]. intros rm Hrm.
  destruct (restMethod_routes Inflection.transform Sample.Widget
              (Some Sample.noOptions) rm Hrm) as (Hne & _).
  apply Hne.
  - apply list_elem_of_fmap in Hrm as (sm & -> & Hsm).
    apply list_elem_of_filter in Hsm as [_ Hsm]. cbn [sharedMethod newRestMethod].
    cbn in Hsm. repeat (apply elem_of_cons in Hsm as [->|Hsm]; [discriminate|]).
    now apply elem_of_nil in Hsm.
  - intros c [= <-]. discriminate.
Defined.

(** ** The route table *)




Section Registration.
Variable isRouterMethod : string -> bool.
Variable memberError : string -> value -> option string.
Variable mountError : value -> option string.








End Registration.

Section CreateHandler.
Variable transform : string -> string.
Variable isRouterMethod : string -> bool.
Variable memberError : string -> value -> option string.
Variable mountError : value -> option string.


End CreateHandler.



(** The router of the sample registry. *)
Example createHandler_sample :
  createHandler Inflection.transform Express.isRouterMethod Sample.memberError
    Sample.mountError
    {| remotes := {| cors := VUndefined; classes := [Sample.Widget] |};
       adapterOptions := Sample.noOptions |} =
  Ok [TolerateEmptyJson; Urlencoded; Json;
      Mount (VString "/Widget")
        [MethodRoute (VString "get") (VString "/prototype/:id/count")
           (restPrototypeMethodHandler Sample.count);
         MethodRoute (VString "all") (VString "/find")
           (restStaticMethodHandler Sample.find);
         RemoteMethodNotFound (VString "Widget")];
      UrlNotFound; ErrorHandler].
Proof. reflexivity. Qed.

(** ** The method index *)

Lemma find_append {A : Type} (f : A -> bool) (l1 l2 : list A) :
  List.find f (l1 ++ l2) =
  match List.find f l1 with
  | Some x => Some x
  | None => List.find f l2
  end.
Proof.
  induction l1 as [|x l1 IH]; [reflexivity|]. cbn. now destruct (f x).
Qed.

(** What [_createRestMethodByNameCache] does, method by method. *)
Lemma cache_methods (ms : list RestMethod) (map : gmap string RestMethod)
    (name : string) :
  foldl (fun map restMethod => <[fullName restMethod := restMethod]> map) map ms
    !! name =
  match List.find (fun m => String.eqb (fullName m) name) (rev ms) with
  | Some m => Some m
  | None => map !! name
  end.
Proof.
  revert map. induction ms as [|m ms IH]; intros map; [reflexivity|].
  cbn [foldl rev]. rewrite IH, find_append.
  destruct (List.find _ (rev ms)); [reflexivity|]. cbn [List.find].
  destruct (String.eqb_spec (fullName m) name) as [<-|Hne].
  - apply lookup_insert_eq.
  - now apply lookup_insert_ne.
Qed.

Lemma cache_classes (classes : list RestClass) (map : gmap string RestMethod)
    (name : string) :
  foldl (fun restMethodByNameMap restClass =>
           foldl (fun map restMethod => <[fullName restMethod := restMethod]> map)
                 restMethodByNameMap (restMethods restClass))
        map classes !! name =
  match List.find (fun m => String.eqb (fullName m) name)
                  (rev (flat_map restMethods classes)) with
  | Some m => Some m
  | None => map !! name
  end.
Proof.
  revert map. induction classes as [|c classes IH]; intros map; [reflexivity|].
  cbn [foldl flat_map]. rewrite IH, rev_app_distr, find_append.
  destruct (List.find _ (rev (flat_map restMethods classes))); [reflexivity|].
  apply cache_methods.
Qed.

(** The cache maps a name to the last method of that full name. *)
Lemma cache_lookup (classes : list RestClass) (name : string) :
  _createRestMethodByNameCache classes !! name =
  List.find (fun m => String.eqb (fullName m) name)
            (rev (flat_map restMethods classes)).
Proof.
  unfold _createRestMethodByNameCache. rewrite cache_classes.
  now destruct (List.find _ _).
Qed.

(** The rebuilt cache, from the registry: its rest methods are those of
    the shared methods of the registry, the shared constructors apart. *)
Lemma cache_registry (transform : string -> string) (options : Options)
    (registry : list SharedClass) (name : string) :
  let rebuilt :=
    _createRestMethodByNameCache (getClasses transform registry (Some options)) in
  (forall m, rebuilt !! name = Some m ->
     exists sc sm, sc ∈ registry /\ sm ∈ methods sc /\ isSharedCtor sm = false /\
       stringName sm = name /\
       m = newRestMethod transform (Some options)
             (option_map (newRestMethod transform (Some options) None)
                         (sharedCtor sc))
             sm) /\
  (rebuilt !! name = None <->
   forall sc sm, sc ∈ registry -> sm ∈ methods sc -> isSharedCtor sm = false ->
                 stringName sm <> name).
Proof.
  cbv zeta. rewrite cache_lookup. split.
  - intros m Hm. apply find_some in Hm as [Hin Heq]. apply String.eqb_eq in Heq.
    apply in_rev, in_flat_map in Hin as (rc & Hrc & Hin).
    unfold getClasses in Hrc. apply in_map_iff in Hrc as (sc & <- & Hsc).
    apply list_elem_of_In, restMethods_elem in Hin as (sm & Hsm & Hc & ->).
    exists sc, sm. split; [now apply list_elem_of_In|]. now repeat split.
  - split.
    + intros Hnone sc sm Hsc Hsm Hc Hname.
      assert (H : String.eqb
                    (fullName
                       (newRestMethod transform (Some options)
                          (option_map (newRestMethod transform (Some options) None)
                                      (sharedCtor sc))
                          sm))
                    name = false).
      { apply (find_none _ _ Hnone).
        apply in_rev. rewrite rev_involutive. apply in_flat_map.
        exists (newRestClass transform sc (Some options)). split.
        - unfold getClasses.
          apply (in_map (fun c => newRestClass transform c (Some options))).
          now apply list_elem_of_In.
        - cbn [restMethods newRestClass]. apply in_map.
          apply list_elem_of_In, list_elem_of_filter. now split. }
      cbn [fullName newRestMethod] in H. apply String.eqb_neq in H. congruence.
    + intros Hall. destruct (List.find _ _) as [m|] eqn:E; [|reflexivity].
      apply find_some in E as [Hin Heq]. apply String.eqb_eq in Heq.
      apply in_rev, in_flat_map in Hin as (rc & Hrc & Hin).
      unfold getClasses in Hrc. apply in_map_iff in Hrc as (sc & <- & Hsc).
      apply list_elem_of_In, restMethods_elem in Hin as (sm & Hsm & Hc & ->).
      exfalso. apply (Hall sc sm); try assumption. now apply list_elem_of_In.
Qed.

Section MethodIndex.
Variable transform : string -> string.
Variable inheritedName : string -> bool.

(** C7, on the code: the index is a plain object, and a name that the
    object inherits from [Object.prototype], and that no method has, is not
    looked up as the claim says.  Once a cache exists, the lookup finds the
    inherited value, takes it for a cached method, rebuilds nothing and
    throws a [TypeError] where it reads the shared method of that value;
    without a cache yet, it rebuilds the cache once and throws as well.
    The lookup is not declared a miss. *)
Theorem getRestMethodByName_inherited_name :
  forall (options : Options) (registry : list SharedClass)
         (isMethodEnabled : SharedMethod -> bool) (name : string) (st : IndexState),
    inheritedName name = true ->
    let rebuilt :=
      _createRestMethodByNameCache (getClasses transform registry (Some options)) in
    let result :=
      getRestMethodByName transform inheritedName options registry isMethodEnabled
                          name st in
    (forall cache,
        _cachedRestMethodsByName st = Some cache -> cache !! name = None ->
        result = (TypeError, st)) /\
    (_cachedRestMethodsByName st = None -> rebuilt !! name = None ->
     result = (TypeError,
               {| _cachedRestMethodsByName := Some rebuilt;
                  cacheBuilds := S (cacheBuilds st) |})).
Proof.
  intros options registry isMethodEnabled name st Hi rebuilt result.
  subst result. unfold getRestMethodByName, cacheGet. fold rebuilt. split.
  - intros cache -> Hnone. now rewrite Hnone, Hi.
  - intros -> Hnone. now rewrite Hnone, Hi.
Qed.

(** X25: [getRestMethodByName] never returns a method whose live
    [isMethodEnabled] check fails: a method found in the cached map and
    disabled since is answered by [undefined], the cache being left as it
    is.  A lookup that finds no cache, or finds in the cache neither a
    method of that name nor a value that the cache inherits under that
    name, rebuilds the whole cache from the current registry, exactly once,
    and answers from the rebuilt cache, which maps each full name to the
    rest method of a shared method of that name of the registry that is
    not a shared constructor, and has no method for the other names; a
    lookup that finds the name in the cache rebuilds nothing.  A name that
    the cache inherits and no method has makes the lookup throw. *)
Theorem getRestMethodByName_masks_and_rebuilds :
  forall (options : Options) (registry : list SharedClass)
         (isMethodEnabled : SharedMethod -> bool) (name : string) (st : IndexState),
    let rebuilt :=
      _createRestMethodByNameCache (getClasses transform registry (Some options)) in
    let result :=
      getRestMethodByName transform inheritedName options registry isMethodEnabled
                          name st in
    (forall m, fst result = Ok (Some m) -> isMethodEnabled (sharedMethod m) = true) /\
    (forall cache m,
        _cachedRestMethodsByName st = Some cache -> cache !! name = Some m ->
        snd result = st /\
        (isMethodEnabled (sharedMethod m) = false -> fst result = Ok None) /\
        (isMethodEnabled (sharedMethod m) = true -> fst result = Ok (Some m))) /\
    (_cachedRestMethodsByName st = None \/
     (exists cache, _cachedRestMethodsByName st = Some cache /\
                    cache !! name = None /\ inheritedName name = false) ->
     _cachedRestMethodsByName (snd result) = Some rebuilt /\
     cacheBuilds (snd result) = S (cacheBuilds st) /\
     fst result =
       match rebuilt !! name with
       | Some m => Ok (if isMethodEnabled (sharedMethod m) then Some m else None)
       | None => if inheritedName name then TypeError else Ok None
       end) /\
    (forall m, rebuilt !! name = Some m ->
       exists sc sm, sc ∈ registry /\ sm ∈ methods sc /\ isSharedCtor sm = false /\
         stringName sm = name /\
         m = newRestMethod transform (Some options)
               (option_map (newRestMethod transform (Some options) None)
                           (sharedCtor sc))
               sm) /\
    (rebuilt !! name = None <->
     forall sc sm, sc ∈ registry -> sm ∈ methods sc -> isSharedCtor sm = false ->
                   stringName sm <> name).
Proof.
  intros options registry isMethodEnabled name st rebuilt result.
  subst result. unfold getRestMethodByName, cacheGet. fold rebuilt.
  split; [|split; [|split]].
  - intros m.
    destruct (_cachedRestMethodsByName st) as [cache|]; cbn.
    + destruct (cache !! name) as [m'|]; cbn.
      * destruct (isMethodEnabled (sharedMethod m')) eqn:E; now intros [= <-].
      * destruct (inheritedName name); cbn; [discriminate|].
        destruct (rebuilt !! name) as [m'|]; cbn; [|discriminate].
        destruct (isMethodEnabled (sharedMethod m')) eqn:E; now intros [= <-].
    + destruct (rebuilt !! name) as [m'|]; cbn.
      * destruct (isMethodEnabled (sharedMethod m')) eqn:E; now intros [= <-].
      * destruct (inheritedName name); discriminate.
  - intros cache m -> Hm. cbn. rewrite Hm. cbn.
    split; [reflexivity|]. split; now intros ->.
  - intros [->|(cache & -> & Hnone & Hi)]; cbn; rewrite ?Hnone, ?Hi; cbn;
      destruct (rebuilt !! name); cbn; try (repeat split; fail);
      destruct (inheritedName name); repeat split.
  - exact (cache_registry transform options registry name).
Qed.

End MethodIndex.

Lemma getRestMethodByName_inherited_name_witness :
  getRestMethodByName Inflection.transform ObjectPrototype.inheritedName
    Sample.noOptions [Sample.Widget] (fun _ => true) "toString" Sample.indexed =
  (TypeError, Sample.indexed).
Proof.
  apply (proj1 (getRestMethodByName_inherited_name Inflection.transform
                  ObjectPrototype.inheritedName Sample.noOptions [Sample.Widget]
                  (fun _ => true) "toString" Sample.indexed eq_refl)
               {[ "Widget.find" := Sample.restFind ]} eq_refl).
  apply lookup_singleton_ne. discriminate.
Defined.

Lemma getRestMethodByName_masks_and_rebuilds_witness :
  getRestMethodByName Inflection.transform ObjectPrototype.inheritedName
    Sample.noOptions [Sample.Widget] (fun _ => false) "Widget.find" Sample.indexed =
  (Ok None, Sample.indexed).
Proof.
  destruct (getRestMethodByName_masks_and_rebuilds Inflection.transform
              ObjectPrototype.inheritedName Sample.noOptions [Sample.Widget]
              (fun _ => false) "Widget.find" Sample.indexed) as (_ & Hhit & _).
  destruct (Hhit {[ "Widget.find" := Sample.restFind ]} Sample.restFind eq_refl
              (lookup_singleton_eq _ _)) as (Hst & Hnone & _).
  rewrite (surjective_pairing (getRestMethodByName _ _ _ _ _ _ _)).
  now rewrite Hst, (Hnone eq_refl).
Defined.

(** ** The invocation pipeline *)

Section DeferredConstructorError.
Context {Err Inst Data : Type}.
Variable invokeSharedCtor :
  SharedMethod -> Context Err Inst Data ->
  Context Err Inst Data * option Err * option Inst.
Variables restBeforeHook restAfterHook : SharedMethod -> Step Err Inst Data.
Variables invokeMethodInContext done : Step Err Inst Data.

Abbreviation invokeMethod :=
  (_invokeMethod restBeforeHook restAfterHook invokeMethodInContext done).
Abbreviation handle :=
  (runHandler invokeSharedCtor restBeforeHook restAfterHook
              invokeMethodInContext done).

(** The events of a series start with its first step. *)
Lemma series_first (event : Context Err Inst Data -> Event Err Inst Data)
    (step : Step Err Inst Data)
    (steps : list ((Context Err Inst Data -> Event Err Inst Data) * Step Err Inst Data))
    (ctx : Context Err Inst Data) :
  exists events, snd (series ((event, step) :: steps) ctx) = event ctx :: events.
Proof.
  cbn [series]. destruct (step ctx) as [ctx1 [e|]]; [eexists; reflexivity|].
  destruct (series steps ctx1) as [[ctx2 e] events]. eexists. reflexivity.
Qed.

(** The first stage of the pipeline. *)
Lemma _invokeMethod_enters (ctx : Context Err Inst Data) (method : SharedMethod) :
  exists events,
    snd (invokeMethod ctx method) =
    (if restBefore method then RestBefore ctx else MethodInvokedInContext ctx)
      :: events.
Proof.
  unfold _invokeMethod.
  set (steps := _ ++ _ ++ _).
  assert (Hfirst : exists events,
             snd (series steps ctx) =
             (if restBefore method then RestBefore ctx
              else MethodInvokedInContext ctx) :: events).
  { subst steps. destruct (restBefore method); apply series_first. }
  destruct Hfirst as [events Hevents].
  destruct (series steps ctx) as [[ctx1 [e|]] events1]; cbn [snd] in *; subst events1.
  - eexists. reflexivity.
  - destruct (done ctx1) as [ctx2 [e|]]; eexists; reflexivity.
Qed.

(** C8: the handler of a method that is not static invokes the shared
    constructor and, whatever the constructor answers, enters
    [_invokeMethod] next, with the context the callback has written: the
    event after the constructor is the first stage of the pipeline,
    [rest.before] if the method has one and [invokeMethodInContext]
    otherwise, not a call of [next].  When the constructor fails with [e],
    the callback stores [e] in [sharedCtorError] and does not touch
    [instance]; when it succeeds, the callback stores the instance in
    [instance] and does not touch [sharedCtorError]. *)
Theorem sharedCtor_error_deferred :
  forall (method : SharedMethod) (ctx ctx1 : Context Err Inst Data)
         (err : option Err) (inst : option Inst),
    isStatic method = false ->
    invokeSharedCtor method ctx = (ctx1, err, inst) ->
    let ctx2 := storeSharedCtorResult ctx1 err inst in
    handle (handlerOf method) ctx =
      (fst (invokeMethod ctx2 method),
       SharedCtorInvoked :: snd (invokeMethod ctx2 method)) /\
    (exists events,
        snd (handle (handlerOf method) ctx) =
        SharedCtorInvoked
          :: (if restBefore method then RestBefore ctx2
              else MethodInvokedInContext ctx2)
          :: events) /\
    (forall e, err = Some e ->
               sharedCtorError ctx2 = Some e /\ instance ctx2 = instance ctx1) /\
    (err = None ->
     instance ctx2 = inst /\ sharedCtorError ctx2 = sharedCtorError ctx1 /\
     (sharedCtorError ctx1 = None -> sharedCtorError ctx2 = None)).
Proof.
  intros method ctx ctx1 err inst Hs Hc ctx2.
  assert (E : handle (handlerOf method) ctx =
              (fst (invokeMethod ctx2 method),
               SharedCtorInvoked :: snd (invokeMethod ctx2 method))).
  { unfold handlerOf. rewrite Hs. cbn [runHandler].
    unfold runPrototypeMethodHandler. rewrite Hc. fold ctx2.
    now destruct (invokeMethod ctx2 method). }
  split; [exact E|]. split; [|split].
  - rewrite E. cbn [snd].
    destruct (_invokeMethod_enters ctx2 method) as [events ->]. now exists events.
  - intros e ->. split; reflexivity.
  - intros ->. split; [reflexivity|]. split; [reflexivity|]. intros H. exact H.
Qed.

End DeferredConstructorError.

Lemma sharedCtor_error_deferred_witness :
  snd (runHandler
         (fun _ (ctx : Context string string unit) => (ctx, Some "ctor failed", None))
         (fun _ ctx => (ctx, None)) (fun _ ctx => (ctx, None))
         (fun ctx => (ctx, sharedCtorError ctx)) (fun ctx => (ctx, None))
         (handlerOf Sample.count)
         {| sharedCtorError := None; instance := None; ctxData := tt |}) =
  [ SharedCtorInvoked;
    MethodInvokedInContext
      {| sharedCtorError := Some "ctor failed"; instance := None; ctxData := tt |};
    Next "ctor failed" ].
Proof.
  destruct (sharedCtor_error_deferred
              (fun _ (ctx : Context string string unit) => (ctx, Some "ctor failed", None))
              (fun _ ctx => (ctx, None)) (fun _ ctx => (ctx, None))
              (fun ctx => (ctx, sharedCtorError ctx)) (fun ctx => (ctx, None))
              Sample.count
              {| sharedCtorError := None; instance := None; ctxData := tt |}
              {| sharedCtorError := None; instance := None; ctxData := tt |}
              (Some "ctor failed") None eq_refl eq_refl) as (E & _).
  rewrite E. reflexivity.
Defined.

(** * Further properties *)

(** ** Route derivation *)

Section DerivedRoutes.
Variable transform : string -> string.

Lemma patchRoute_verb (toPath : value -> value) (obj : Obj) (r : Route) :
  exists v, verb (patchRoute toPath obj r) = VString v /\ toLowerCase v = v.
Proof.
  eexists. split; [reflexivity|]. apply toLowerCase_twice.
Qed.

(** X2: every derived route has a string for verb, in lower case; an entity
    has one route, or as many as its declared array; and with the
    normalization enabled, a derived path is a string or [undefined]. *)
Theorem getRoutes_verbs_lowercase :
  forall (obj : Obj) (adapterOptions : option Options),
    length (getRoutes transform obj adapterOptions) =
      match http obj with
      | HttpRoutes declared => length declared
      | _ => 1%nat
      end /\
    forall r : Route,
      r ∈ getRoutes transform obj adapterOptions ->
      (exists v, verb r = VString v /\ toLowerCase v = v) /\
      (truthy (selectNormalize obj adapterOptions) = true ->
       isString (path r) = true \/ path r = VUndefined).
Proof.
  intros obj adapterOptions. unfold getRoutes.
  set (toPath := toPathOf transform (selectNormalize obj adapterOptions)).
  assert (Hdeclared : forall declared r,
             r ∈ map (patchRoute toPath obj) declared ->
             (exists v, verb r = VString v /\ toLowerCase v = v) /\
             (truthy (selectNormalize obj adapterOptions) = true ->
              isString (path r) = true \/ path r = VUndefined)).
  { intros declared r Hr. apply list_elem_of_fmap in Hr as (r0 & -> & _).
    split; [apply patchRoute_verb|].
    intros Hn. cbn [patchRoute path]. subst toPath. unfold toPathOf. rewrite Hn.
    destruct (Js.or _ _); cbn; auto. }
  destruct (http obj) as [|r0|declared].
  - split; [now destruct (eqStr _ _)|]. intros r Hr.
    destruct (eqStr (name obj) "sharedCtor").
    + apply list_elem_of_singleton in Hr as ->. split; [now exists "all"|]. now left.
    + apply list_elem_of_singleton in Hr as ->. split; [now exists "all"|].
      intros Hn. cbn [path]. destruct (truthy (name obj)); [|now left].
      subst toPath. unfold toPathOf. rewrite Hn. destruct (name obj); cbn; auto.
  - split; [reflexivity|]. apply Hdeclared.
  - split; [apply length_map|]. apply Hdeclared.
Qed.

End DerivedRoutes.

(** ** Route ranking *)

(** X3: [sortRoutes] throws exactly when a verb is not a string, or when the
    verbs tie and a path is not a string; what it throws is a [TypeError].
    When the verbs differ it does not look at the paths. *)
Theorem sortRoutes_throws_only_on_bad_types :
  forall a b : RouteEntry,
    (isString (verb (route a)) = false \/ isString (verb (route b)) = false ->
     sortRoutes a b = TypeError) /\
    (forall va vb : string,
        verb (route a) = VString va -> verb (route b) = VString vb ->
        (normalizeVerb va <> normalizeVerb vb ->
         sortRoutes a b = Ok (if Js.gt (normalizeVerb va) (normalizeVerb vb)
                              then -1 else 1)) /\
        (normalizeVerb va = normalizeVerb vb ->
         isString (path (route a)) = false \/ isString (path (route b)) = false ->
         sortRoutes a b = TypeError) /\
        (normalizeVerb va = normalizeVerb vb ->
         forall pa pb : string,
           path (route a) = VString pa -> path (route b) = VString pb ->
           sortRoutes a b = Ok (comparePaths (split "/" pa) (split "/" pb)))).
Proof.
  intros [[va pa] ma] [[vb pb] mb]. cbn [route verb path]. split.
  - unfold sortRoutes. cbn [route verb path].
    intros [H|H]; destruct va, vb; try discriminate; reflexivity.
  - intros sa sb -> ->. unfold sortRoutes. cbn [route verb path callToLowerCase].
    cbn. fold (normalizeVerb sa). fold (normalizeVerb sb).
    split; [|split].
    + intros Hne. unfold Js.gt, Js.lt.
      destruct (ltb_total _ _ Hne) as [H|H].
      * now rewrite (ltb_asym _ _ H), H.
      * now rewrite H.
    + intros -> H. unfold Js.gt, Js.lt. rewrite ltb_irrefl.
      destruct H as [H|H]; destruct pa, pb; try discriminate; reflexivity.
    + intros -> qa qb -> ->. unfold Js.gt, Js.lt. now rewrite ltb_irrefl.
Qed.

Lemma sortRoutes_throws_only_on_bad_types_witness :
  sortRoutes {| route := {| verb := VString "put"; path := VUndefined |};
                method := Sample.find |}
             {| route := {| verb := VString "get"; path := VString "/x" |};
                method := Sample.find |} = Ok (-1) /\
  sortRoutes {| route := {| verb := VString "get"; path := VUndefined |};
                method := Sample.find |}
             {| route := {| verb := VString "GET"; path := VString "/x" |};
                method := Sample.find |} = TypeError.
Proof.
  split.
  - apply (proj1 (proj2 (sortRoutes_throws_only_on_bad_types
                           {| route := {| verb := VString "put"; path := VUndefined |};
                              method := Sample.find |}
                           {| route := {| verb := VString "get"; path := VString "/x" |};
                              method := Sample.find |})
                        "put" "get" eq_refl eq_refl)).
    discriminate.
  - apply (proj1 (proj2 (proj2 (sortRoutes_throws_only_on_bad_types
                           {| route := {| verb := VString "get"; path := VUndefined |};
                              method := Sample.find |}
                           {| route := {| verb := VString "GET"; path := VString "/x" |};
                              method := Sample.find |})
                        "get" "GET" eq_refl eq_refl))).
    + reflexivity.
    + now left.
Defined.

(** ** Joining paths *)

Lemma doubledSlash_append (p s : string) (c d : ascii) :
  last p = Some (String c "") -> first s = Some (String d "") ->
  doubledSlash (p ++ s) =
  doubledSlash p || doubledSlash s || (Ascii.eqb c "/" && Ascii.eqb d "/").
Proof.
  revert c. induction p as [|a p IH]; intros c Hl Hf; [discriminate|].
  destruct s as [|d' s]; [discriminate|]. injection Hf as ->.
  destruct p as [|b p].
  - injection Hl as ->.
    change (doubledSlash (String c "" ++ String d s))
      with ((Ascii.eqb c "/" && Ascii.eqb d "/") || doubledSlash (String d s)).
    change (doubledSlash (String c "")) with false.
    cbn [orb]. apply orb_comm.
  - specialize (IH c Hl eq_refl).
    change (String a (String b p) ++ String d s)%string
      with (String a (String b p ++ String d s)%string).
    cbn [doubledSlash]. change (String b p ++ String d s)%string
      with (String b (p ++ String d s)%string) at 1.
    cbv beta iota. rewrite IH. cbn [doubledSlash].
    destruct (Ascii.eqb a "/" && Ascii.eqb b "/"); cbn [orb]; reflexivity.
Qed.

(** X4: joining never produces a doubled slash: when neither the prefix nor the
    suffix has two slashes in a row, their join is a string that has none
    either, whatever stands at the boundary. *)
Theorem joinPaths_no_doubled_slash (p s : string) :
  doubledSlash p = false -> doubledSlash s = false ->
  exists r : string,
    joinPaths (VString p) (VString s) = VString r /\ doubledSlash r = false.
Proof.
  intros Hp Hs.
  destruct (String.eqb_spec p "") as [->|Hpne]; [now exists s|].
  destruct (String.eqb_spec s "") as [->|Hsne].
  { exists p. split; [|exact Hp]. unfold joinPaths.
    now rewrite (proj2 (truthy_string _) Hpne). }
  destruct (String.eqb_spec s "/") as [->|Hsl].
  { exists p. split; [|exact Hp]. unfold joinPaths.
    now rewrite (proj2 (truthy_string _) Hpne). }
  destruct (last_is_char p Hpne) as [c Hc].
  destruct (first_is_char s Hsne) as [d Hd].
  rewrite (joinPaths_strings p s c d Hc Hd Hsl). eexists. split; [reflexivity|].
  destruct (Ascii.eqb_spec c "/") as [->|Hcs];
    destruct (Ascii.eqb_spec d "/") as [->|Hds].
  - destruct s as [|d' s]; [discriminate|]. injection Hd as ->.
    cbn [slice1]. destruct s as [|e s]; [now rewrite append_empty_r|].
    change (doubledSlash (String "/" (String e s)))
      with ((Ascii.eqb "/" "/" && Ascii.eqb e "/") || doubledSlash (String e s))
      in Hs.
    apply orb_false_iff in Hs as [He Hs].
    rewrite (doubledSlash_append p (String e s) "/" e Hc eq_refl).
    rewrite Hp, Hs. cbn [orb]. exact He.
  - rewrite (doubledSlash_append p s "/" d Hc Hd), Hp, Hs.
    cbn [orb andb]. now apply Ascii.eqb_neq.
  - rewrite (doubledSlash_append p s c "/" Hc Hd), Hp, Hs.
    cbn [orb]. apply andb_false_iff. left. now apply Ascii.eqb_neq.
  - change ("/" ++ s)%string with (String "/" s).
    rewrite (doubledSlash_append p (String "/" s) c "/" Hc eq_refl), Hp.
    destruct s as [|d' s]; [discriminate|]. injection Hd as ->.
    change (doubledSlash (String "/" (String d s)))
      with ((Ascii.eqb "/" "/" && Ascii.eqb d "/") || doubledSlash (String d s)).
    rewrite Hs.
    apply Ascii.eqb_neq in Hcs, Hds. now rewrite Hcs, Hds.
Qed.

Lemma joinPaths_no_doubled_slash_witness :
  exists r : string,
    joinPaths (VString "/widgets/") (VString "/:id/parts") = VString r /\
    doubledSlash r = false.
Proof.
  apply (joinPaths_no_doubled_slash "/widgets/" "/:id/parts"); reflexivity.
Defined.

(** ** The router of a class *)

Lemma StronglySorted_lookup {A : Type} (R : A -> A -> Prop) (l : list A)
    (i j : nat) (a b : A) :
  StronglySorted R l -> l !! i = Some a -> l !! j = Some b -> (i < j)%nat ->
  R a b.
Proof.
  intros Hs. revert i j. induction Hs as [|x l Hs IH Hx]; intros i j Hi Hj Hlt.
  - discriminate.
  - destruct j as [|j]; [lia|]. destruct i as [|i].
    + injection Hi as ->. cbn in Hj. rewrite List.Forall_forall in Hx.
      apply Hx. apply list_elem_of_In. eapply list_elem_of_lookup_2. exact Hj.
    + cbn in Hi, Hj. apply (IH i j Hi Hj). lia.
Qed.

Lemma normalizeDel_normalizeVerb (v1 v2 : string) :
  normalizeDel v1 = normalizeDel v2 -> normalizeVerb v1 = normalizeVerb v2.
Proof.
  unfold normalizeDel.
  destruct (String.eqb_spec v1 "del") as [->|H1];
    destruct (String.eqb_spec v2 "del") as [->|H2]; intros H; subst;
    reflexivity.
Qed.

Section ClassRouter.
Variable isRouterMethod : string -> bool.
Variable memberError : string -> value -> option string.

Lemma forEach_register_map (l : list RouteEntry) :
  Forall (registrable isRouterMethod) l ->
  forEach (fun m => _registerMethodRouteHandlers isRouterMethod memberError (method m) (route m)) l
  = Ok (map registration l).
Proof.
  induction 1 as [|x l [Hs Hv] Hl IH]; [reflexivity|].
  cbn [forEach map]. rewrite IH. unfold _registerMethodRouteHandlers, registration.
  unfold stringEntry in Hs. destruct (verb (route x)) as [| | | | |v|]; try discriminate.
  cbn in Hv |- *. unfold normalizeDel in Hv |- *.
  destruct (String.eqb v "del"); rewrite Hv; reflexivity.
Qed.

Lemma classRouter_sortBy (handleUnknownPaths : bool) (restClass : RestClass) :
  Forall (registrable isRouterMethod) (classEntries restClass) ->
  classRouter isRouterMethod memberError handleUnknownPaths restClass =
  Ok (map registration (sortBy entryCmp (classEntries restClass))
      ++ (if handleUnknownPaths
          then [RemoteMethodNotFound (className (restSharedClass restClass))]
          else [])).
Proof.
  intros Hc. unfold classRouter.
  assert (Hs : Forall (fun e => stringEntry e = true) (classEntries restClass)).
  { eapply Forall_impl; [exact Hc|]. now intros e [He _]. }
  rewrite (sort_strings _ Hs). cbn.
  rewrite forEach_register_map; [reflexivity|].
  eapply Permutation_Forall; [apply sortBy_perm | exact Hc].
Qed.


(** X6: dispatch priority: in the router of a class, of two routes on the same
    verb whose paths first differ where one has a literal part and the
    other a placeholder, the route with the literal is registered first, so
    that the placeholder cannot capture its requests, in whatever order the
    two were declared. *)
Theorem classRouter_literal_before_placeholder
    (handleUnknownPaths : bool) (restClass : RestClass)
    (router : list ClassLayer) (i j : nat) (v p1 p2 : string)
    (h1 h2 : Handler) (common rest1 rest2 : list string) (s1 s2 : string) :
  Forall (registrable isRouterMethod) (classEntries restClass) ->
  classRouter isRouterMethod memberError handleUnknownPaths restClass = Ok router ->
  router !! i = Some (MethodRoute (VString v) (VString p1) h1) ->
  router !! j = Some (MethodRoute (VString v) (VString p2) h2) ->
  split "/" p1 = common ++ s1 :: rest1 ->
  split "/" p2 = common ++ s2 :: rest2 ->
  s1 <> "" -> isWildcard s1 = false -> isWildcard s2 = true ->
  (i < j)%nat.
Proof.
  intros Hc Hr Hi Hj E1 E2 Hne W1 W2.
  rewrite (classRouter_sortBy _ _ Hc) in Hr. injection Hr as <-.
  set (sorted := sortBy entryCmp (classEntries restClass)) in *.
  assert (Hsorted : StronglySorted (fun a b => entryCmp a b <> Gt) sorted)
    by (apply sortBy_sorted; exact StrictWeak_entry).
  assert (Hstr : Forall (fun e => stringEntry e = true) sorted).
  { eapply Permutation_Forall; [apply sortBy_perm|].
    eapply Forall_impl; [exact Hc|]. now intros e [He _]. }
  assert (Hlayer : forall k w p h,
             (map registration sorted
              ++ (if handleUnknownPaths
                  then [RemoteMethodNotFound (className (restSharedClass restClass))]
                  else [])) !! k = Some (MethodRoute (VString w) (VString p) h) ->
             exists e u, sorted !! k = Some e /\ verb (route e) = VString u /\
                         normalizeDel u = w /\ path (route e) = VString p).
  { intros k w p h Hk. apply lookup_app_Some in Hk as [Hk|[_ Hk]].
    - rewrite list_lookup_fmap in Hk.
      destruct (sorted !! k) as [e|] eqn:Ee; [|discriminate].
      injection Hk as Hv Hp _. exists e.
      assert (He : stringEntry e = true).
      { rewrite List.Forall_forall in Hstr. apply Hstr, list_elem_of_In.
        eapply list_elem_of_lookup_2. exact Ee. }
      unfold stringEntry in He.
      destruct (verb (route e)) as [| | | | |u|]; try discriminate.
      exists u. now repeat split.
    - destruct handleUnknownPaths;
        destruct (k - _)%nat as [|[|n]]; discriminate. }
  destruct (Hlayer i v p1 h1 Hi) as (e1 & u1 & He1 & Hv1 & Hn1 & Hp1).
  destruct (Hlayer j v p2 h2 Hj) as (e2 & u2 & He2 & Hv2 & Hn2 & Hp2).
  assert (Hcmp : entryCmp e2 e1 = Gt).
  { unfold entryCmp, routeCmp. rewrite Hv1, Hv2, Hp1, Hp2. cbn [toString fst snd].
    rewrite (normalizeDel_normalizeVerb u1 u2) by congruence.
    rewrite (sw_refl String.compare StrictWeak_string). cbn [lexCmp].
    rewrite <- comparePaths_listCmp, E1, E2, comparePaths_first_difference.
    assert (Hs2 : s2 <> "") by (intros ->; discriminate).
    destruct (partCmp_rules s2 s1) as (_ & _ & Hgt & _).
    now rewrite (Hgt Hs2 Hne W2 W1). }
  destruct (Nat.lt_trichotomy i j) as [Hlt|[->|Hgt]]; [exact Hlt| |].
  - rewrite He1 in He2. injection He2 as ->.
    rewrite (sw_refl entryCmp StrictWeak_entry) in Hcmp. discriminate.
  - exfalso. now apply (StronglySorted_lookup _ _ j i e2 e1 Hsorted He2 He1 Hgt).
Qed.

End ClassRouter.


Lemma classRouter_literal_before_placeholder_witness : (0 < 1)%nat.
Proof.
  apply (classRouter_literal_before_placeholder Express.isRouterMethod
           Sample.memberError true
           (newRestClass Inflection.transform Sample.Gadget (Some Sample.noOptions))
           [MethodRoute (VString "get") (VString "/stats")
              (restStaticMethodHandler Sample.stats);
            MethodRoute (VString "get") (VString "/:id")
              (restStaticMethodHandler Sample.findById);
            RemoteMethodNotFound (VString "Gadget")]
           0 1 "get" "/stats" "/:id"
           (restStaticMethodHandler Sample.stats)
           (restStaticMethodHandler Sample.findById)
           [""] [] [] "stats" ":id");
    try reflexivity; try discriminate.
  repeat constructor.
Defined.

(** ** The handlers of unknown paths and of errors *)

Section UnknownPaths.
Variable transform : string -> string.
Variable isRouterMethod : string -> bool.
Variable memberError : string -> value -> option string.
Variable mountError : value -> option string.

Lemma forEach_register_layers (l : list RouteEntry) (registered : list ClassLayer) :
  forEach (fun m => _registerMethodRouteHandlers isRouterMethod memberError
                      (method m) (route m)) l
    = Ok registered ->
  forall layer, layer ∈ registered -> exists v p h, layer = MethodRoute v p h.
Proof.
  revert registered. induction l as [|x l IH]; intros registered.
  - intros [= <-] layer Hl. now apply elem_of_nil in Hl.
  - cbn [forEach].
    destruct (_registerMethodRouteHandlers _ _ _ _) as [y|] eqn:Ey; [|discriminate].
    destruct (forEach _ l) as [ys|]; [|discriminate]. cbn. intros [= <-] layer Hl.
    apply elem_of_cons in Hl as [->|Hl]; [|now apply (IH ys)].
    unfold _registerMethodRouteHandlers in Ey.
    destruct (if eqStr _ _ then _ else _); try discriminate.
    destruct (isRouterMethod _); [injection Ey as <-; eauto|].
    destruct (memberError _ _); [discriminate|]. injection Ey as <-. eauto.
Qed.

Lemma classRouter_shape (handleUnknownPaths : bool) (restClass : RestClass)
    (router : list ClassLayer) :
  classRouter isRouterMethod memberError handleUnknownPaths restClass = Ok router ->
  exists registered,
    router = registered
             ++ (if handleUnknownPaths
                 then [RemoteMethodNotFound (className (restSharedClass restClass))]
                 else []) /\
    forall layer, layer ∈ registered -> exists v p h, layer = MethodRoute v p h.
Proof.
  unfold classRouter.
  destruct (sort sortRoutes _) as [sorted|]; [|discriminate]. cbn.
  destruct (forEach _ sorted) as [registered|] eqn:E; [|discriminate]. cbn.
  intros [= <-]. exists registered. split; [reflexivity|].
  now apply (forEach_register_layers sorted).
Qed.

Lemma forEach_mount_layers (router : list ClassLayer) (routes : list Route)
    (mounts : list RootLayer) :
  forEach (mount mountError router) routes = Ok mounts ->
  forall layer, layer ∈ mounts ->
    exists route, route ∈ routes /\ layer = Mount (path route) router.
Proof.
  revert mounts. induction routes as [|r routes IH]; intros mounts.
  - intros [= <-] layer Hl. now apply elem_of_nil in Hl.
  - cbn [forEach].
    destruct (mount mountError router r) as [y|] eqn:Ey; [|discriminate].
    destruct (forEach _ routes) as [ys|]; [|discriminate]. cbn.
    intros [= <-] layer Hl. apply elem_of_cons in Hl as [->|Hl].
    + exists r. split; [now left|]. unfold mount in Ey.
      destruct (mountError (path r)); [discriminate|]. now injection Ey as <-.
    + destruct (IH ys eq_refl layer Hl) as (route & Hroute & ->).
      exists route. split; [now right | reflexivity].
Qed.

Lemma mountClasses_layers (handleUnknownPaths : bool) (classes : list RestClass)
    (mounted : list RootLayer) :
  mountClasses isRouterMethod memberError mountError handleUnknownPaths classes
    = Ok mounted ->
  forall layer, layer ∈ mounted ->
    exists restClass route router,
      restClass ∈ classes /\ route ∈ classRoutes restClass /\
      classRouter isRouterMethod memberError handleUnknownPaths restClass
        = Ok router /\
      layer = Mount (path route) router.
Proof.
  revert mounted. induction classes as [|c classes IH]; intros mounted.
  - intros [= <-] layer Hl. now apply elem_of_nil in Hl.
  - cbn [mountClasses].
    destruct (classRouter _ _ _ c) as [router|] eqn:Er; [|discriminate]. cbn.
    destruct (forEach _ (classRoutes c)) as [mounts|] eqn:Em; [|discriminate]. cbn.
    destruct (mountClasses _ _ _ _ classes) as [rest|]; [|discriminate]. cbn.
    intros [= <-] layer Hl. apply elem_of_app in Hl as [Hl|Hl].
    + destruct (forEach_mount_layers _ _ _ Em layer Hl) as (route & Hroute & ->).
      exists c, route, router. repeat split; try assumption. now left.
    + destruct (IH rest eq_refl layer Hl) as (c' & route & router' & Hc & H).
      exists c', route, router'. split; [now right | exact H].
Qed.

(** X7: the option [handleUnknownPaths] decides on all the handlers that answer
    unknown paths at once.  Set to [false], the table that [createHandler]
    builds has none: no class router has a handler for unknown methods and
    the root has no handler for unknown URLs, so that a request nothing
    matches goes on to the middleware that follows.  Set to anything else,
    or not set, every mounted class router ends with the handler for
    unknown methods of its class, after all its routes, and the root has
    the handler for unknown URLs.  The error handler is in the table unless
    [handleErrors] is [false], and is then its last layer. *)
Theorem createHandler_unknown_paths (adapter : RestAdapter) (root : list RootLayer) :
  createHandler transform isRouterMethod memberError mountError adapter = Ok root ->
  (optHandleUnknownPaths (adapterOptions adapter) = VBool false ->
   (UrlNotFound ∉ root) /\
   forall p router, Mount p router ∈ root ->
     forall layer, layer ∈ router -> exists v q h, layer = MethodRoute v q h) /\
  (optHandleUnknownPaths (adapterOptions adapter) <> VBool false ->
   UrlNotFound ∈ root /\
   forall p router, Mount p router ∈ root ->
     exists registered className,
       router = registered ++ [RemoteMethodNotFound className] /\
       forall layer, layer ∈ registered -> exists v q h, layer = MethodRoute v q h) /\
  (optHandleErrors (adapterOptions adapter) = VBool false -> ErrorHandler ∉ root) /\
  (optHandleErrors (adapterOptions adapter) <> VBool false ->
   List.last root TolerateEmptyJson = ErrorHandler).
Proof.
  unfold createHandler. destruct (notUndefinedNorFalse _); [discriminate|].
  destruct (mountClasses _ _ _) as [mounted|] eqn:Em; [|discriminate]. cbn.
  intros [= <-].
  pose proof (mountClasses_layers _ _ _ Em) as Hm.
  assert (Hmount : forall p router,
             Mount p router ∈
               TolerateEmptyJson :: Urlencoded :: Json
               :: mounted
                  ++ (if _shouldHandleUnknownPaths adapter then [UrlNotFound] else [])
                  ++ (if _shouldHandleErrors adapter then [ErrorHandler] else []) ->
             exists restClass,
               classRouter isRouterMethod memberError (_shouldHandleUnknownPaths adapter) restClass
               = Ok router).
  { intros p router H. rewrite !elem_of_cons, !elem_of_app in H.
    destruct H as [H|[H|[H|[H|[H|H]]]]]; try discriminate.
    - destruct (Hm _ H) as (c & route & router' & _ & _ & Hr & [= _ ->]). now exists c.
    - destruct (_shouldHandleUnknownPaths adapter);
        [apply list_elem_of_singleton in H; discriminate | now apply elem_of_nil in H].
    - destruct (_shouldHandleErrors adapter);
        [apply list_elem_of_singleton in H; discriminate | now apply elem_of_nil in H]. }
  assert (Hnot : forall x : RootLayer,
             (forall p router, x <> Mount p router) ->
             x <> TolerateEmptyJson -> x <> Urlencoded -> x <> Json ->
             x ∈ TolerateEmptyJson :: Urlencoded :: Json
               :: mounted
                  ++ (if _shouldHandleUnknownPaths adapter then [UrlNotFound] else [])
                  ++ (if _shouldHandleErrors adapter then [ErrorHandler] else []) ->
             x ∈ (if _shouldHandleUnknownPaths adapter then [UrlNotFound] else [])
                 ++ (if _shouldHandleErrors adapter then [ErrorHandler] else [])).
  { intros x Hx H1 H2 H3 H. rewrite !elem_of_cons, elem_of_app in H.
    destruct H as [H|[H|[H|[H|H]]]]; try congruence.
    destruct (Hm _ H) as (c & route & router' & _ & _ & _ & E). now apply Hx in E. }
  unfold _shouldHandleUnknownPaths, _shouldHandleErrors in *.
  split; [|split; [|split]].
  - intros E. rewrite E in *. cbn [notExactlyFalse] in *. split.
    + intros H. apply Hnot in H; try discriminate.
      destruct (notExactlyFalse _); cbn in H.
      * apply list_elem_of_singleton in H. discriminate.
      * now apply elem_of_nil in H.
    + intros p router H layer Hl. destruct (Hmount p router H) as [c Hc].
      apply classRouter_shape in Hc as (registered & -> & Hreg).
      rewrite app_nil_r in Hl. now apply Hreg.
  - intros E.
    assert (E' : notExactlyFalse (optHandleUnknownPaths (adapterOptions adapter)) = true).
    { destruct (optHandleUnknownPaths _) as [| |[|]| | | |]; try reflexivity. congruence. }
    rewrite E' in *. split.
    + rewrite !elem_of_cons, !elem_of_app. do 3 right. right. left. now left.
    + intros p router H. destruct (Hmount p router H) as [c Hc].
      apply classRouter_shape in Hc as (registered & -> & Hreg). eauto.
  - intros E. rewrite E in *. cbn [notExactlyFalse] in *. intros H.
    apply Hnot in H; try discriminate.
    destruct (notExactlyFalse _); cbn in H.
    + apply list_elem_of_singleton in H. discriminate.
    + now apply elem_of_nil in H.
  - intros E.
    assert (E' : notExactlyFalse (optHandleErrors (adapterOptions adapter)) = true).
    { destruct (optHandleErrors _) as [| |[|]| | | |]; try reflexivity. congruence. }
    rewrite E'.
    change (TolerateEmptyJson :: Urlencoded :: Json :: ?l)
      with ([TolerateEmptyJson; Urlencoded; Json] ++ l).
    rewrite !app_assoc. apply last_last.
Qed.

End UnknownPaths.

Lemma createHandler_unknown_paths_witness :
  UrlNotFound ∈
    [TolerateEmptyJson; Urlencoded; Json;
     Mount (VString "/Gadget")
       [MethodRoute (VString "get") (VString "/stats")
          (restStaticMethodHandler Sample.stats);
        MethodRoute (VString "get") (VString "/:id")
          (restStaticMethodHandler Sample.findById);
        RemoteMethodNotFound (VString "Gadget")];
     UrlNotFound; ErrorHandler].
Proof.
  apply (createHandler_unknown_paths Inflection.transform Express.isRouterMethod
           Sample.memberError Sample.mountError
           {| remotes := {| cors := VUndefined; classes := [Sample.Gadget] |};
              adapterOptions := Sample.noOptions |});
    [reflexivity | discriminate].
Defined.

(** ** The method index, lookup after lookup *)

Section MethodIndexAgain.
Variable transform : string -> string.
Variable inheritedName : string -> bool.
Variable options : Options.


(** X9: a name that no method has, and that a plain object does not
    inherit, is never cached: each lookup of it rebuilds the whole cache
    again and answers [undefined], whatever the registry and the enabled
    methods are at each lookup, as long as the registry has no method of
    that name. *)
Theorem getRestMethodByName_unknown_rebuilds (name : string) (st : IndexState)
    (calls : list (list SharedClass * (SharedMethod -> bool))) :
  inheritedName name = false ->
  (forall registry isMethodEnabled sc sm,
      (registry, isMethodEnabled) ∈ calls -> sc ∈ registry -> sm ∈ methods sc ->
      isSharedCtor sm = false -> stringName sm <> name) ->
  (forall cache, _cachedRestMethodsByName st = Some cache -> cache !! name = None) ->
  let lookup st (call : list SharedClass * (SharedMethod -> bool)) :=
    getRestMethodByName transform inheritedName options (fst call) (snd call)
                        name st in
  forall (before : list (list SharedClass * (SharedMethod -> bool)))
         (call : list SharedClass * (SharedMethod -> bool))
         (later : list (list SharedClass * (SharedMethod -> bool))),
    calls = before ++ call :: later ->
    let st' := foldl (fun st call => snd (lookup st call)) st before in
    cacheBuilds st' = (cacheBuilds st + length before)%nat /\
    lookup st' call =
    (Ok None,
     {| _cachedRestMethodsByName :=
          Some (_createRestMethodByNameCache
                  (getClasses transform (fst call) (Some options)));
        cacheBuilds := S (cacheBuilds st') |}).
Proof.
  intros Hi Hunknown Hst. cbv zeta.
  assert (Hstep : forall registry isMethodEnabled st,
             (registry, isMethodEnabled) ∈ calls ->
             (forall cache, _cachedRestMethodsByName st = Some cache ->
                            cache !! name = None) ->
             getRestMethodByName transform inheritedName options registry
                                 isMethodEnabled name st =
             (Ok None,
              {| _cachedRestMethodsByName :=
                   Some (_createRestMethodByNameCache
                           (getClasses transform registry (Some options)));
                 cacheBuilds := S (cacheBuilds st) |})).
  { intros registry isMethodEnabled st' Hin H.
    assert (Hr : _createRestMethodByNameCache
                   (getClasses transform registry (Some options)) !! name = None).
    { apply (cache_registry transform options registry name).
      intros sc sm. now apply (Hunknown registry isMethodEnabled). }
    unfold getRestMethodByName, cacheGet.
    destruct (_cachedRestMethodsByName st') as [cache|]; cbn.
    - rewrite (H cache eq_refl), Hi. cbn. now rewrite Hr.
    - now rewrite Hr, Hi. }
  intros before. induction before as [|c before IH] using rev_ind;
    intros call later Hcalls.
  - cbn [foldl length]. split; [lia|]. destruct call as [registry isMethodEnabled].
    apply Hstep; [|exact Hst]. rewrite Hcalls. now left.
  - rewrite foldl_app. cbn [foldl]. rewrite length_app. cbn [length].
    destruct (IH c (call :: later)) as [Hb Hc].
    { rewrite Hcalls, <- app_assoc. reflexivity. }
    rewrite Hc. cbn [snd cacheBuilds]. split; [lia|].
    destruct call as [registry isMethodEnabled]. cbn [fst snd].
    rewrite Hstep.
    + cbn [cacheBuilds]. reflexivity.
    + rewrite Hcalls. apply elem_of_app. right. now left.
    + cbn [_cachedRestMethodsByName]. intros cache [= <-].
      destruct c as [registry' isMethodEnabled'].
      apply (cache_registry transform options registry' name).
      intros sc sm. apply (Hunknown registry' isMethodEnabled').
      rewrite Hcalls. apply elem_of_app. left. apply elem_of_app. right. now left.
Qed.

End MethodIndexAgain.


Lemma getRestMethodByName_unknown_rebuilds_witness :
  cacheBuilds
    (foldl (fun st call =>
              snd (getRestMethodByName Inflection.transform
                     ObjectPrototype.inheritedName Sample.noOptions
                     (fst call) (snd call) "Widget.missing" st))
           Sample.indexed
           [([Sample.Widget], fun _ => true); ([Sample.Widget], fun _ => true)])
  = 3%nat.
Proof.
  apply (getRestMethodByName_unknown_rebuilds Inflection.transform
           ObjectPrototype.inheritedName Sample.noOptions
           "Widget.missing" Sample.indexed
           [([Sample.Widget], fun _ => true); ([Sample.Widget], fun _ => true);
            ([Sample.Widget], fun _ => true)]
           eq_refl)
    with (before := [([Sample.Widget], fun _ => true); ([Sample.Widget], fun _ => true)])
         (call := ([Sample.Widget], fun _ : SharedMethod => true))
         (later := @nil (list SharedClass * (SharedMethod -> bool))).
  - intros registry isMethodEnabled sc sm Hin Hsc Hsm _.
    assert (registry = [Sample.Widget]) as ->.
    { repeat (apply elem_of_cons in Hin as [[= -> _]|Hin]; [reflexivity|]).
      now apply elem_of_nil in Hin. }
    apply list_elem_of_singleton in Hsc as ->. cbn in Hsm.
    repeat (apply elem_of_cons in Hsm as [->|Hsm]; [discriminate|]).
    now apply elem_of_nil in Hsm.
  - intros cache [= <-]. apply lookup_singleton_ne. discriminate.
  - reflexivity.
Defined.

(** ** The order of the pipeline *)

Section PipelineOrder.
Context {Err Inst Data : Type}.
Variable invokeSharedCtor :
  SharedMethod -> Context Err Inst Data ->
  Context Err Inst Data * option Err * option Inst.
Variable restBeforeHook restAfterHook :
  SharedMethod -> Context Err Inst Data -> Context Err Inst Data * option Err.
Variable invokeMethodInContext done :
  Context Err Inst Data -> Context Err Inst Data * option Err.

Ltac run_steps :=
  repeat match goal with
         | |- context [match ?x with (_, _) => _ end] =>
             destruct x as [? [?|]] eqn:?; cbn
         end.

Lemma allSucceed_app
    (stages1 stages2 : list ((Context Err Inst Data -> Event Err Inst Data)
                             * Step Err Inst Data))
    (ctx ctx1 ctx2 : Context Err Inst Data)
    (events1 events2 : list (Event Err Inst Data)) :
  allSucceed stages1 ctx events1 ctx1 -> allSucceed stages2 ctx1 events2 ctx2 ->
  allSucceed (stages1 ++ stages2) ctx (events1 ++ events2) ctx2.
Proof.
  induction 1 as [|event step stages c c' c'' events Hstep H IH]; intros H2;
    [exact H2|].
  cbn [app]. econstructor; [exact Hstep | now apply IH].
Qed.

(** [async.series] runs the steps up to the first that fails. *)
Lemma series_first_failure
    (steps : list ((Context Err Inst Data -> Event Err Inst Data)
                   * Step Err Inst Data))
    (ctx ctx' : Context Err Inst Data) (events : list (Event Err Inst Data)) :
  (series steps ctx = (ctx', None, events) -> allSucceed steps ctx events ctx') /\
  (forall err, series steps ctx = (ctx', Some err, events) ->
     exists succeeded event step notRun c events',
       steps = succeeded ++ (event, step) :: notRun /\
       allSucceed succeeded ctx events' c /\
       step c = (ctx', Some err) /\
       events = events' ++ [event c]).
Proof.
  revert ctx ctx' events. induction steps as [|[event step] steps IH];
    intros ctx ctx' events.
  - cbn [series]. split; [intros [= <- <-]; constructor | discriminate].
  - cbn [series]. destruct (step ctx) as [c1 [e|]] eqn:Estep.
    + split; [discriminate|]. intros err [= <- <- <-].
      exists [], event, step, steps, ctx, []. repeat split; [constructor | exact Estep].
    + destruct (series steps c1) as [[c2 e] evs] eqn:Es.
      destruct (IH c1 c2 evs) as [IHok IHfail]. split.
      * intros [= <- -> <-]. econstructor; [exact Estep | exact (IHok Es)].
      * intros err [= <- -> <-].
        destruct (IHfail err Es)
          as (succeeded & ev & st & notRun & c & evs' & -> & Hok & Hst & ->).
        exists ((event, step) :: succeeded), ev, st, notRun, c, (event ctx :: evs').
        repeat split; [econstructor; eassumption | exact Hst].
Qed.

Lemma series_then_done
    (steps : list ((Context Err Inst Data -> Event Err Inst Data)
                   * Step Err Inst Data))
    (ctx : Context Err Inst Data) :
  let run :=
    match series steps ctx with
    | (ctx, Some err, events) => (ctx, events ++ [Next err])
    | (ctx, None, events) =>
        match done ctx with
        | (ctx', Some err) => (ctx', events ++ [Done ctx; Next err])
        | (ctx', None) => (ctx', events ++ [Done ctx])
        end
    end in
  allSucceed (steps ++ [(Done, done)]) ctx (snd run) (fst run) \/
  exists succeeded event step notRun ctx' err events,
    steps ++ [(Done, done)] = succeeded ++ (event, step) :: notRun /\
    allSucceed succeeded ctx events ctx' /\
    step ctx' = (fst run, Some err) /\
    snd run = events ++ [event ctx'; Next err].
Proof.
  cbv zeta.
  pose proof (fun c evs => proj1 (series_first_failure steps ctx c evs)) as Hok0.
  pose proof (fun c evs => proj2 (series_first_failure steps ctx c evs)) as Hfail.
  destruct (series steps ctx) as [[c1 [e|]] events].
  - right.
    destruct (Hfail c1 events e eq_refl)
      as (succeeded & event & step & notRun & c & events' & Hsteps & Hok & Hst & Hev).
    exists succeeded, event, step, (notRun ++ [(Done, done)]), c, e, events'.
    cbn [fst snd]. split; [now rewrite Hsteps, <- app_assoc|].
    split; [exact Hok|]. split; [exact Hst|].
    now rewrite Hev, <- app_assoc.
  - pose proof (Hok0 c1 events eq_refl) as Hok.
    destruct (done c1) as [c2 [e|]] eqn:Ed; cbn [fst snd].
    + right. exists steps, Done, done, [], c1, e, events. now repeat split.
    + left. apply (allSucceed_app _ _ _ _ _ _ _ Hok).
      econstructor; [exact Ed | constructor].
Qed.

(** X10: [_invokeMethod] runs the stages of the method in their order: the
    before hook if the method has one, the invocation, the after hook if
    the method has one, then [ctx.done].  Either each of them succeeds, on
    the context that the stage before it left, and [next] is not called,
    the request being handled; or the stages succeed up to the first one
    that fails, which is run and is the last one run, and [next] is called
    then, once, with the error of that stage and with nothing after it. *)
Theorem _invokeMethod_stages (ctx : Context Err Inst Data) (method : SharedMethod) :
  let run :=
    _invokeMethod restBeforeHook restAfterHook invokeMethodInContext done
                  ctx method in
  let stages :=
    pipeline restBeforeHook restAfterHook invokeMethodInContext done method in
  let trace := map stageOf (snd run) in
  (trace = allStages method \/
   exists ran notRun : list Stage,
     ran <> [] /\ allStages method = ran ++ notRun /\ trace = ran ++ [NextStage]) /\
  (allSucceed stages ctx (snd run) (fst run) \/
   exists succeeded event step notRun ctx' err events,
     stages = succeeded ++ (event, step) :: notRun /\
     allSucceed succeeded ctx events ctx' /\
     step ctx' = (fst run, Some err) /\
     snd run = events ++ [event ctx'; Next err]).
Proof.
  cbv zeta. split.
  - unfold _invokeMethod, allStages.
    destruct (restBefore method), (restAfter method); cbn; run_steps;
      solve [ now left
            | right; eexists [_], _; split; [discriminate | split; reflexivity]
            | right; eexists [_; _], _; split; [discriminate | split; reflexivity]
            | right; eexists [_; _; _], _;
              split; [discriminate | split; reflexivity]
            | right; eexists [_; _; _; _], _;
              split; [discriminate | split; reflexivity] ].
  - replace (pipeline restBeforeHook restAfterHook invokeMethodInContext done
                      method)
      with (((if restBefore method
         then [(RestBefore (Err := Err) (Inst := Inst) (Data := Data),
                restBeforeHook method)]
         else [])
        ++ [(MethodInvokedInContext, invokeMethodInContext)]
        ++ (if restAfter method then [(RestAfter, restAfterHook method)] else []))
            ++ [(Done (Err := Err) (Inst := Inst) (Data := Data), done)])
      by (unfold pipeline; now rewrite <- !app_assoc).
    exact (series_then_done
             ((if restBefore method
         then [(RestBefore (Err := Err) (Inst := Inst) (Data := Data),
                restBeforeHook method)]
         else [])
        ++ [(MethodInvokedInContext, invokeMethodInContext)]
        ++ (if restAfter method then [(RestAfter, restAfterHook method)] else [])) ctx).
Qed.

(** X11: a before hook that fails keeps the method from being invoked, under
    both handlers: nothing runs after the hook but [next], called with the
    error of the hook.  Under the handler of a prototype method this holds
    whatever the shared constructor answered: when the constructor failed
    too, it is the error of the hook that [next] is called with, and not
    the error of the constructor. *)
Theorem handlers_before_hook_fails (ctx : Context Err Inst Data)
    (method : SharedMethod) (err : Err) :
  restBefore method = true ->
  (forall c, snd (restBeforeHook method c) = Some err) ->
  (exists c,
      snd (runHandler invokeSharedCtor restBeforeHook restAfterHook
                      invokeMethodInContext done
                      (restStaticMethodHandler method) ctx) =
      [RestBefore c; Next err]) /\
  (exists c,
      snd (runHandler invokeSharedCtor restBeforeHook restAfterHook
                      invokeMethodInContext done
                      (restPrototypeMethodHandler method) ctx) =
      [SharedCtorInvoked; RestBefore c; Next err]).
Proof.
  intros Hb Hhook.
  assert (H : forall c,
             snd (_invokeMethod restBeforeHook restAfterHook invokeMethodInContext
                                done c method) = [RestBefore c; Next err]).
  { intros c. unfold _invokeMethod. rewrite Hb. cbn.
    specialize (Hhook c). destruct (restBeforeHook method c) as [c' e].
    cbn in Hhook. now rewrite Hhook. }
  split.
  - exists ctx. apply H.
  - cbn. unfold runPrototypeMethodHandler.
    destruct (invokeSharedCtor method ctx) as [[c e] inst].
    specialize (H (storeSharedCtorResult c e inst)).
    destruct (_invokeMethod _ _ _ _ _ _) as [c' events]. cbn in H |- *.
    exists (storeSharedCtorResult c e inst). now rewrite H.
Qed.

End PipelineOrder.

Lemma handlers_before_hook_fails_witness :
  exists c,
    snd (runHandler (Data := unit) (Inst := unit)
           (fun _ ctx => (ctx, Some "no such widget", None))
           (fun _ ctx => (ctx, Some "unauthorized")) (fun _ ctx => (ctx, None))
           (fun ctx => (ctx, None)) (fun ctx => (ctx, None))
           (restPrototypeMethodHandler
              {| methodName := VString "count"; methodHttp := HttpAbsent;
                 methodSharedClass := Sample.widgetRef; isStatic := false;
                 isSharedCtor := false; stringName := "Widget.prototype.count";
                 restBefore := true; restAfter := false |})
           {| sharedCtorError := None; instance := None; ctxData := tt |}) =
    [SharedCtorInvoked; RestBefore c; Next "unauthorized"].
Proof.
  apply (handlers_before_hook_fails (Data := unit) (Inst := unit)
           (fun _ ctx => (ctx, Some "no such widget", None))
           (fun _ ctx => (ctx, Some "unauthorized")) (fun _ ctx => (ctx, None))
           (fun ctx => (ctx, None)) (fun ctx => (ctx, None)));
    reflexivity.
Defined.

(** ** Arguments by name *)

Lemma someArg_first_match {A : Type} (name : string) (invokedArgs : list A)
    (accepts : list Accept) (k i : nat) (a : Accept) (d : string) :
  accepts !! i = Some a -> arg a = VString d -> d <> "" ->
  toLowerCase d = toLowerCase name ->
  (forall j b, (j < i)%nat -> accepts !! j = Some b ->
     truthy (arg b) = false \/
     exists e, arg b = VString e /\ toLowerCase e <> toLowerCase name) ->
  someArg accepts (VString name) invokedArgs k = Ok (invokedArgs !! (k + i)%nat).
Proof.
  revert k i. induction accepts as [|b accepts IH]; intros k i Hi Ha Hd Hl Hbefore;
    [discriminate|].
  cbn [someArg]. destruct i as [|i].
  - injection Hi as ->. rewrite Ha, (proj2 (truthy_string d) Hd). cbn.
    rewrite Hl, String.eqb_refl. now rewrite Nat.add_0_r.
  - assert (Hb : (if truthy (arg b)
                  then declared ← callToLowerCase (arg b);
                       asked ← callToLowerCase (VString name);
                       Ok (String.eqb declared asked)
                  else Ok false) = Ok false).
    { destruct (Hbefore 0%nat b) as [Hf|(e & He & Hne)]; [lia|reflexivity| |].
      - now rewrite Hf.
      - rewrite He. destruct (truthy (VString e)); [|reflexivity]. cbn.
        apply String.eqb_neq in Hne. now rewrite Hne. }
    rewrite Hb. cbn. rewrite (IH (S k) i Hi Ha Hd Hl).
    + f_equal. f_equal. lia.
    + intros j c Hj Hc. apply (Hbefore (S j) c); [lia | exact Hc].
Qed.

Lemma someArg_no_match {A : Type} (name : string) (invokedArgs : list A)
    (accepts : list Accept) (k : nat) :
  (forall b, b ∈ accepts ->
     truthy (arg b) = false \/
     exists e, arg b = VString e /\ toLowerCase e <> toLowerCase name) ->
  someArg accepts (VString name) invokedArgs k = Ok None.
Proof.
  revert k. induction accepts as [|b accepts IH]; intros k Hall; [reflexivity|].
  cbn [someArg].
  destruct (Hall b) as [Hf|(e & He & Hne)]; [now left| |].
  - rewrite Hf. cbn. apply IH. intros c Hc. apply Hall. now right.
  - rewrite He. apply String.eqb_neq in Hne.
    destruct (truthy (VString e)); cbn; rewrite ?Hne; cbn;
      (apply IH; intros c Hc; apply Hall; now right).
Qed.

(** X12: [getArgByName] answers with the invoked argument at the position of
    the first declared argument whose name is the asked one up to case,
    even where the invoked arguments have nothing at that position, and
    with [undefined] when no declared name is the asked one; a declared
    argument without a name is passed over. *)
Theorem getArgByName_first_match {A : Type} (accepts : list Accept)
    (name : string) (invokedArgs : list A) :
  (forall (i : nat) (a : Accept) (d : string),
      accepts !! i = Some a -> arg a = VString d -> d <> "" ->
      toLowerCase d = toLowerCase name ->
      (forall j b, (j < i)%nat -> accepts !! j = Some b ->
         truthy (arg b) = false \/
         exists e, arg b = VString e /\ toLowerCase e <> toLowerCase name) ->
      getArgByName (Some accepts) (VString name) invokedArgs =
      Ok (invokedArgs !! i)) /\
  ((forall b, b ∈ accepts ->
      truthy (arg b) = false \/
      exists e, arg b = VString e /\ toLowerCase e <> toLowerCase name) ->
   getArgByName (Some accepts) (VString name) invokedArgs = Ok None).
Proof.
  split.
  - intros i a d Hi Ha Hd Hl Hbefore.
    destruct accepts as [|b accepts]; [discriminate|].
    apply (someArg_first_match name invokedArgs (b :: accepts) 0 i a d); assumption.
  - intros Hall. destruct accepts as [|b accepts]; [reflexivity|].
    now apply someArg_no_match.
Qed.

Lemma getArgByName_first_match_witness :
  getArgByName (Some [ {| arg := VUndefined |}; {| arg := VString "Filter" |};
                       {| arg := VString "filter" |} ])
               (VString "FILTER") ["a"; "b"; "c"] = Ok (Some "b").
Proof.
  apply (proj1 (getArgByName_first_match
                  [ {| arg := VUndefined |}; {| arg := VString "Filter" |};
                    {| arg := VString "filter" |} ]
                  "FILTER" ["a"; "b"; "c"])
               1%nat {| arg := VString "Filter" |} "Filter");
    try reflexivity; try discriminate.
  intros [|j] b Hj Hb; [|lia]. cbn in Hb. injection Hb as <-. now left.
Defined.

(** ** Endpoints *)

Section EndpointFacts.
Variable transform : string -> string.
Variable toUpperCase : string -> string.

Lemma getRoutes_verb_string (obj : Obj) (adapterOptions : option Options) (r : Route) :
  r ∈ getRoutes transform obj adapterOptions -> isString (verb r) = true.
Proof.
  unfold getRoutes. destruct (http obj) as [|r0|declared].
  - destruct (eqStr _ _); intros H; apply list_elem_of_singleton in H as ->;
      reflexivity.
  - intros H. apply list_elem_of_fmap in H as (r1 & -> & _). reflexivity.
  - intros H. apply list_elem_of_fmap in H as (r1 & -> & _). reflexivity.
Qed.

Lemma restMethod_verb_string (sc : SharedClass) (adapterOptions : option Options)
    (rm : RestMethod) (r : Route) :
  rm ∈ restMethods (newRestClass transform sc adapterOptions) ->
  r ∈ routes rm -> isString (verb r) = true.
Proof.
  intros Hrm Hr. apply restMethods_elem in Hrm as (sm & _ & _ & ->).
  cbn [routes newRestMethod] in Hr.
  destruct (sharedCtor sc) as [c|]; cbn [option_map] in Hr;
    destruct (isStatic sm); try now apply getRoutes_verb_string in Hr.
  apply elem_of_cross in Hr as (ctorRoute & route & _ & Hroute & ->).
  cbn [verb]. now apply getRoutes_verb_string in Hroute.
Qed.

Lemma forEach_endpointOf (restClass : RestClass) (classPath : value)
    (routes : list Route) :
  RestClass_getPath restClass = Ok classPath ->
  (forall r, r ∈ routes -> isString (verb r) = true) ->
  forEach (endpointOf toUpperCase restClass) routes =
  Ok (map (fun r => {| endpointVerb := endpointVerbOf toUpperCase (toString (verb r));
                       fullPath := joinPaths classPath (path r) |}) routes).
Proof.
  intros Hp. induction routes as [|r routes IH]; intros Hv; [reflexivity|].
  cbn [forEach map]. rewrite IH by (intros r' Hr'; apply Hv; now right).
  unfold endpointOf, endpointVerbOf. rewrite Hp.
  specialize (Hv r (list_elem_of_here _ _)).
  destruct (verb r) as [| | | | |v|]; try discriminate. cbn.
  destruct (String.eqb v "all"); [reflexivity|].
  destruct (String.eqb v "del"); reflexivity.
Qed.

(** X13: for a method of a class that the adapter builds, [getEndpoints] does
    not throw, unless the class is declared with an empty array of routes:
    it answers with one endpoint for each route of the method, in their
    order, whose path is the path of the route joined to the first path of
    the class, and whose verb is the verb of the route in upper case,
    [POST] standing for [all] and [DELETE] for [del].  The deprecated
    [getHttpMethod] and [getFullPath] answer with the verb and the path of
    the first endpoint, and throw when the method has no route. *)
Theorem getEndpoints_of_adapter_class (sc : SharedClass)
    (adapterOptions : option Options) (rm : RestMethod) :
  classHttp sc <> HttpRoutes [] ->
  rm ∈ restMethods (newRestClass transform sc adapterOptions) ->
  let restClass := newRestClass transform sc adapterOptions in
  let endpoint (r : Route) :=
    {| endpointVerb := endpointVerbOf toUpperCase (toString (verb r));
       fullPath := joinPaths (path (hd {| verb := VUndefined; path := VUndefined |}
                                       (classRoutes restClass)))
                             (path r) |} in
  classRoutes restClass <> [] /\
  getEndpoints toUpperCase restClass rm = Ok (map endpoint (routes rm)) /\
  getHttpMethod toUpperCase restClass rm =
    match routes rm with
    | r :: _ => Ok (endpointVerb (endpoint r))
    | [] => TypeError
    end /\
  getFullPath toUpperCase restClass rm =
    match routes rm with
    | r :: _ => Ok (fullPath (endpoint r))
    | [] => TypeError
    end.
Proof.
  intros Hc Hrm. cbv zeta.
  set (restClass := newRestClass transform sc adapterOptions).
  assert (Hne : classRoutes restClass <> [])
    by (apply (getRoutes_nonempty transform (objOfClass sc)); exact Hc).
  destruct (classRoutes restClass) as [|c cs] eqn:Ec; [congruence|].
  assert (He : getEndpoints toUpperCase restClass rm =
               Ok (map (fun r =>
                          {| endpointVerb :=
                               endpointVerbOf toUpperCase (toString (verb r));
                             fullPath := joinPaths (path c) (path r) |})
                       (routes rm))).
  { apply forEach_endpointOf.
    - unfold RestClass_getPath. now rewrite Ec.
    - intros r Hr. now apply (restMethod_verb_string sc adapterOptions rm). }
  split; [discriminate|]. split; [exact He|].
  unfold getHttpMethod, getFullPath, firstEndpoint. rewrite He. cbn [hd].
  now destruct (routes rm).
Qed.

(** X14: without routes the endpoints are not there to read: for a class that
    has no route, [getEndpoints] throws as soon as the method has a route;
    and for a method that has no route, [getEndpoints] is empty, and
    [getPath], [getHttpMethod] and [getFullPath] throw. *)
Theorem endpoints_without_routes (restClass : RestClass) (restMethod : RestMethod) :
  (classRoutes restClass = [] -> routes restMethod <> [] ->
   getEndpoints toUpperCase restClass restMethod = TypeError) /\
  (routes restMethod = [] ->
   getEndpoints toUpperCase restClass restMethod = Ok [] /\
   RestMethod_getPath restMethod = TypeError /\
   getHttpMethod toUpperCase restClass restMethod = TypeError /\
   getFullPath toUpperCase restClass restMethod = TypeError).
Proof.
  split.
  - intros Hc Hr. unfold getEndpoints.
    destruct (routes restMethod) as [|r rs]; [congruence|]. cbn [forEach].
    assert (E : endpointOf toUpperCase restClass r = TypeError).
    { unfold endpointOf, RestClass_getPath. rewrite Hc. cbn.
      destruct (eqStr (verb r) "all"); [reflexivity|].
      destruct (eqStr (verb r) "del"); [reflexivity|].
      now destruct (verb r). }
    now rewrite E.
  - intros Hr.
    unfold getHttpMethod, getFullPath, firstEndpoint, getEndpoints,
      RestMethod_getPath.
    rewrite Hr. repeat split.
Qed.

End EndpointFacts.

Lemma getEndpoints_of_adapter_class_witness :
  getEndpoints upperAscii
    (newRestClass Inflection.transform Sample.Widget (Some Sample.noOptions))
    (newRestMethod Inflection.transform (Some Sample.noOptions)
       (Some (newRestMethod Inflection.transform (Some Sample.noOptions) None
                Sample.widgetCtor))
       Sample.count) =
  Ok [ {| endpointVerb := "GET";
          fullPath := VString "/Widget/prototype/:id/count" |} ].
Proof.
  apply (getEndpoints_of_adapter_class Inflection.transform upperAscii
           Sample.Widget (Some Sample.noOptions)).
  - discriminate.
  - cbn. right. left.
Defined.

Lemma endpoints_without_routes_witness :
  getEndpoints upperAscii
    (newRestClass Inflection.transform Sample.WidgetWithoutRoutes
                  (Some Sample.noOptions))
    (newRestMethod Inflection.transform (Some Sample.noOptions)
       (Some (newRestMethod Inflection.transform (Some Sample.noOptions) None
                Sample.widgetCtor))
       Sample.countWithoutRoutes) = Ok [].
Proof.
  apply (proj2 (endpoints_without_routes upperAscii _ _)). reflexivity.
Defined.

(** ** Programmatic invocation *)

Section InvokeFacts.
Variable transform : string -> string.
Variable inheritedName : string -> bool.
Context {Item Token Auth Err : Type}.
Variable accessTokenOf : Item -> option Token.
Variable accepts : SharedMethod -> option (list Accept).
Variable execHooksBefore : Invocation Item Token Auth -> option Err.
Variable invocationInvoke : Invocation Item Token Auth -> Err + list Item.
Variable execHooksAfter : Invocation Item Token Auth -> list Item -> option Err.
Variable remotesAuth : option Auth.
Variable passAccessToken : value.
Variable adapterOptions : Options.
Variable registry : list SharedClass.
Variable isMethodEnabled : SharedMethod -> bool.

Abbreviation invoke' :=
  (invoke transform inheritedName accessTokenOf accepts execHooksBefore invocationInvoke
          execHooksAfter remotesAuth passAccessToken adapterOptions registry
          isMethodEnabled).

Lemma callCallback_once (callback : option nat) (err : option (InvokeError Err))
    (results : list Item) :
  let run := callCallback (Token := Token) (Auth := Auth) callback err results in
  (invokeThrown run = None /\
   exists f, callback = Some f /\ invokeEvents run = [CallbackCalled f err results]) \/
  (invokeThrown run = Some "TypeError" /\ callback = None /\ invokeEvents run = []).
Proof.
  destruct callback as [f|]; cbn; [left | right]; eauto.
Qed.

Lemma invokeFound_once (callback : option nat)
    (invocation : Invocation Item Token Auth) :
  let run :=
    invokeFound execHooksBefore invocationInvoke execHooksAfter callback invocation in
  exists hooks tail results,
    invokeEvents run = hooks ++ tail /\
    hooks `prefix_of` [BeforeHooks invocation; RemoteInvoked invocation;
                       AfterHooks invocation results] /\
    ((invokeThrown run = None /\
      exists f err results',
        callback = Some f /\ tail = [CallbackCalled f err results']) \/
     (invokeThrown run = Some "TypeError" /\ callback = None /\ tail = [])).
Proof.
  cbv zeta. unfold invokeFound.
  destruct (execHooksBefore invocation) as [e|].
  { exists [BeforeHooks invocation], (invokeEvents (callCallback callback (Some (Failure e)) [])), [].
    split; [reflexivity|]. split; [now eexists|].
    destruct (callCallback_once callback (Some (Failure e)) [])
      as [(Ht & f & -> & Hev)|(Ht & -> & Hev)]; [left | right]; cbn; eauto 10. }
  destruct (invocationInvoke invocation) as [e|results].
  { exists [BeforeHooks invocation; RemoteInvoked invocation],
      (invokeEvents (callCallback callback (Some (Failure e)) [])), [].
    split; [reflexivity|]. split; [now eexists|].
    destruct (callCallback_once callback (Some (Failure e)) [])
      as [(Ht & f & -> & Hev)|(Ht & -> & Hev)]; [left | right]; cbn; eauto 10. }
  destruct (execHooksAfter invocation results) as [e|].
  { exists [BeforeHooks invocation; RemoteInvoked invocation;
            AfterHooks invocation results],
      (invokeEvents (callCallback callback (Some (Failure e)) [])), results.
    split; [reflexivity|]. split; [reflexivity|].
    destruct (callCallback_once callback (Some (Failure e)) [])
      as [(Ht & f & -> & Hev)|(Ht & -> & Hev)]; [left | right]; cbn; eauto 10. }
  exists [BeforeHooks invocation; RemoteInvoked invocation;
          AfterHooks invocation results],
    (invokeEvents (callCallback callback None results)), results.
  split; [reflexivity|]. split; [reflexivity|].
  destruct (callCallback_once callback None results)
    as [(Ht & f & -> & Hev)|(Ht & -> & Hev)]; [left | right]; cbn; eauto 10.
Qed.

(** X15: [invoke] calls back at most once, and last.  Either it throws nothing,
    and then the function that is its last argument is called exactly once,
    after whatever else is done; or it throws, and no callback is called.
    What is done before the callback is the hooks before, the remote call
    and the hooks after, in this order and for one invocation, or the first
    of them up to one that fails; with nothing done when the method is not
    found. *)
Theorem invoke_calls_back_once (connection : value) (arguments : list (Arg Item))
    (st : IndexState) :
  let run := fst (invoke' connection arguments st) in
  exists hooks tail,
    invokeEvents run = hooks ++ tail /\
    (hooks = [] \/
     exists invocation results,
       hooks `prefix_of` [BeforeHooks invocation; RemoteInvoked invocation;
                          AfterHooks invocation results]) /\
    ((invokeThrown run = None /\
      exists f err results,
        lastOf arguments = Some (ArgFunction f) /\
        tail = [CallbackCalled f err results]) \/
     (invokeThrown run <> None /\ tail = [])).
Proof.
  cbv zeta. unfold invoke.
  assert (Hthrown : forall message : string,
             exists hooks tail : list (InvokeEvent Item Token Auth Err),
               [] = hooks ++ tail /\
               (hooks = [] \/
                exists invocation results,
                  hooks `prefix_of` [BeforeHooks invocation; RemoteInvoked invocation;
                                     AfterHooks invocation results]) /\
               ((Some message = None /\
                 exists f err results,
                   lastOf arguments = Some (ArgFunction f) /\
                   tail = [CallbackCalled f err results]) \/
                (Some message <> None /\ tail = []))).
  { intros message. exists [], []. split; [reflexivity|]. split; [now left|].
    right. split; [discriminate | reflexivity]. }
  destruct (truthy connection); cbn [negb fst]; [|apply Hthrown].
  destruct (arguments !! 0%nat) as [[items|f|v]|]; try apply Hthrown.
  destruct v as [| | | | |method|]; try apply Hthrown.
  set (callback := match lastOf arguments with
                   | Some (ArgFunction f) => Some f
                   | _ => None
                   end).
  assert (Hcb : forall f, callback = Some f -> lastOf arguments = Some (ArgFunction f)).
  { subst callback. intros f. destruct (lastOf arguments) as [[| |]|]; congruence. }
  destruct (match arguments !! 2%nat with
            | Some (ArgArray items) => _
            | _ => _
            end) as [ctorArgs args].
  destruct (getRestMethodByName _ _ _ _ _ _ _) as [[[restMethod|]|message] st'];
    [| |apply Hthrown].
  - destruct (getArgByName _ _ _) as [invokeOptions|message]; [|apply Hthrown].
    cbn [fst].
    destruct (invokeFound_once callback
                {| invRestMethod := restMethod; invCtorArgs := ctorArgs;
                   invArgs := args;
                   invAuth := _getInvocationAuth accessTokenOf remotesAuth
                                passAccessToken invokeOptions |})
      as (hooks & tail & results & Hev & Hp & H).
    exists hooks, tail. split; [exact Hev|]. split; [right; eauto|].
    destruct H as [(Ht & f & err & results' & Hf & ->)|(Ht & _ & ->)].
    + left. split; [exact Ht|]. exists f, err, results'. split; [now apply Hcb | reflexivity].
    + right. split; [|reflexivity]. rewrite Ht. discriminate.
  - cbn [fst].
    exists [], (invokeEvents
                  (callCallback (Token := Token) (Auth := Auth) callback
                     (Some (UnknownMethod
                              ("Cannot invoke unkown method: " ++ method)%string))
                     [])).
    split; [reflexivity|]. split; [now left|].
    destruct (callCallback_once callback
                (Some (UnknownMethod
                         ("Cannot invoke unkown method: " ++ method)%string)) [])
      as [(Ht & f & Hf & Hev)|(Ht & _ & Hev)]; cbv zeta in *.
    + left. split; [exact Ht|]. exists f. eexists _, _.
      split; [now apply Hcb | exact Hev].
    + right. rewrite Ht. split; [discriminate | exact Hev].
Qed.

(** X16: a method that is not there is not invoked: when the methods of that
    name are disabled, in the cache and in the registry, or when there is
    none, and the name is not one that a plain object inherits, no hook
    runs and nothing is sent; the callback is called with the error of the
    unknown method.  For a name that a plain object inherits and no method
    has, [invoke] throws and does not call back. *)
Theorem invoke_unknown_method (connection : value) (arguments : list (Arg Item))
    (st : IndexState) (method : string) (f : nat) :
  truthy connection = true ->
  arguments !! 0%nat = Some (ArgValue (VString method)) ->
  lastOf arguments = Some (ArgFunction f) ->
  (forall cache m,
      _cachedRestMethodsByName st = Some cache -> cache !! method = Some m ->
      isMethodEnabled (sharedMethod m) = false) ->
  (forall sc sm,
      sc ∈ registry -> sm ∈ methods sc -> isSharedCtor sm = false ->
      stringName sm = method -> isMethodEnabled sm = false) ->
  (inheritedName method = false ->
   fst (invoke' connection arguments st) =
   {| invokeEvents :=
        [CallbackCalled f
           (Some (UnknownMethod ("Cannot invoke unkown method: " ++ method)%string))
           []];
      invokeThrown := None |}) /\
  (inheritedName method = true ->
   (forall cache, _cachedRestMethodsByName st = Some cache ->
                  cache !! method = None) ->
   (forall sc sm,
       sc ∈ registry -> sm ∈ methods sc -> isSharedCtor sm = false ->
       stringName sm <> method) ->
   fst (invoke' connection arguments st) =
   {| invokeEvents := []; invokeThrown := Some "TypeError" |}).
Proof.
  intros Hc H0 Hl Hcache Hreg. unfold invoke. rewrite Hc, H0, Hl. cbn [negb].
  destruct (match arguments !! 2%nat with
            | Some (ArgArray items) => _
            | _ => _
            end) as [ctorArgs args].
  set (rebuilt := _createRestMethodByNameCache
                    (getClasses transform registry (Some adapterOptions))).
  assert (Hr : forall m, rebuilt !! method = Some m ->
                         isMethodEnabled (sharedMethod m) = false).
  { intros m Hm.
    apply (cache_registry transform adapterOptions registry method) in Hm
      as (sc & sm & Hsc & Hsm & Hctor & Hname & ->).
    cbn [sharedMethod newRestMethod]. now apply (Hreg sc sm). }
  split.
  - intros Hi.
    assert (E : fst (getRestMethodByName transform inheritedName adapterOptions
                       registry isMethodEnabled method st) = Ok None).
    { unfold getRestMethodByName, cacheGet. fold rebuilt. rewrite Hi.
      destruct (_cachedRestMethodsByName st) as [cache|] eqn:Ec; cbn.
      - destruct (cache !! method) as [m|] eqn:Em; cbn.
        + now rewrite (Hcache cache m eq_refl Em).
        + destruct (rebuilt !! method) as [m|]; cbn; [|reflexivity].
          now rewrite (Hr m eq_refl).
      - destruct (rebuilt !! method) as [m|]; cbn; [|reflexivity].
        now rewrite (Hr m eq_refl). }
    destruct (getRestMethodByName _ _ _ _ _ _ _) as [restMethod st'].
    cbn in E. subst restMethod. reflexivity.
  - intros Hi Hnone Habsent.
    assert (Hrn : rebuilt !! method = None)
      by now apply (cache_registry transform adapterOptions registry method).
    assert (E : fst (getRestMethodByName transform inheritedName adapterOptions
                       registry isMethodEnabled method st) = TypeError).
    { unfold getRestMethodByName, cacheGet. fold rebuilt. rewrite Hi.
      destruct (_cachedRestMethodsByName st) as [cache|] eqn:Ec; cbn.
      - now rewrite (Hnone cache eq_refl).
      - now rewrite Hrn. }
    destruct (getRestMethodByName _ _ _ _ _ _ _) as [restMethod st'].
    cbn in E. subst restMethod. reflexivity.
Qed.

(** The constructor arguments can be left out: [invoke(method, args,
    callback)] does what [invoke(method, [], args, callback)] does. *)
Remark invoke_without_ctorArgs (connection : value) (method : Arg Item)
    (args : list Item) (f : nat) (st : IndexState) :
  invoke' connection [method; ArgArray args; ArgFunction f] st =
  invoke' connection [method; ArgArray []; ArgArray args; ArgFunction f] st.
Proof. reflexivity. Qed.

End InvokeFacts.

Lemma invoke_unknown_method_witness :
  fst (invoke (Item := string) (Token := string) (Auth := string) (Err := string)
         Inflection.transform ObjectPrototype.inheritedName
         (fun _ => None) (fun _ => None)
         (fun _ => None) (fun _ => inr []) (fun _ _ => None)
         None VUndefined Sample.noOptions [Sample.Widget] (fun _ => false)
         (VString "http://localhost:3000")
         [ArgValue (VString "Widget.find"); ArgArray []; ArgFunction 0]
         Sample.indexed) =
  {| invokeEvents :=
       [CallbackCalled 0
          (Some (UnknownMethod "Cannot invoke unkown method: Widget.find")) []];
     invokeThrown := None |}.
Proof.
  apply (invoke_unknown_method (Item := string) (Token := string) (Auth := string)
           (Err := string) Inflection.transform ObjectPrototype.inheritedName
           (fun _ => None) (fun _ => None)
           (fun _ => None) (fun _ => inr []) (fun _ _ => None)
           None VUndefined Sample.noOptions [Sample.Widget] (fun _ => false));
    reflexivity.
Defined.

(** ** The name of a rest method *)

Lemma split_at_separator (sep : ascii) (s t : string) :
  contains sep s = false ->
  split sep (s ++ String sep t) = s :: split sep t.
Proof.
  induction s as [|c s IH]; cbn [String.append split contains].
  - intros _. now rewrite Ascii.eqb_refl.
  - destruct (Ascii.eqb c sep); cbn [orb]; [discriminate|].
    intros H. now rewrite (IH H).
Qed.

Lemma split_without_separator (sep : ascii) (s : string) :
  contains sep s = false -> split sep s = [s].
Proof.
  induction s as [|c s IH]; cbn [split contains]; [reflexivity|].
  destruct (Ascii.eqb c sep); cbn [orb]; [discriminate|].
  intros H. now rewrite (IH H).
Qed.

Lemma join_split_separator (sep : ascii) (s : string) : join sep (split sep s) = s.
Proof.
  induction s as [|c s IH]; [reflexivity|]. cbn [split].
  pose proof (split_nonempty sep s) as Hne.
  destruct (Ascii.eqb_spec c sep) as [->|Hc].
  - rewrite join_cons by exact Hne. now rewrite IH.
  - destruct (split sep s) as [|seg segs]; [congruence|].
    destruct segs as [|seg' segs]; cbn in *; now rewrite IH.
Qed.

Section RestName.
Variable transform : string -> string.

(** X17: the name of a rest method is the full name of its shared method
    without the class name: what follows the first dot, further dots
    included, so that the name of an instance method starts with
    [prototype.]; and the empty string when the full name has no dot. *)
Theorem restName_after_class_name (restClassOptions : option Options)
    (restClassCtor : option RestMethod) (sm : SharedMethod) :
  let restMethod := newRestMethod transform restClassOptions restClassCtor sm in
  fullName restMethod = stringName sm /\
  (forall className rest : string,
      stringName sm = (className ++ "." ++ rest)%string ->
      contains "." className = false ->
      restName restMethod = rest) /\
  (contains "." (stringName sm) = false -> restName restMethod = "").
Proof.
  cbv zeta. cbn [fullName restName newRestMethod]. split; [reflexivity|]. split.
  - intros className rest -> Hc.
    change ("." ++ rest)%string with (String "." rest).
    rewrite (split_at_separator "." className rest Hc). cbn [drop].
    apply join_split_separator.
  - intros Hc. now rewrite (split_without_separator "." _ Hc).
Qed.

End RestName.

Lemma restName_after_class_name_witness :
  restName (newRestMethod Inflection.transform (Some Sample.noOptions) None
                          Sample.count) = "prototype.count".
Proof.
  apply (proj1 (proj2 (restName_after_class_name Inflection.transform
                         (Some Sample.noOptions) None Sample.count))
               "Widget" "prototype.count");
    reflexivity.
Defined.

(** ** Normalization, segment by segment *)

Section Segmentwise.
Variable transform : string -> string.
Hypothesis transform_no_slash :
  forall s, plainRun s = true -> contains "/" (transform s) = false.

(** X18: [normalizeHttpPath] works on the segments between the slashes, one by
    one, when the transform of a segment has no slash: the normalized path
    has as many segments as the path, with the empty segments and the
    placeholders in their places, and every other segment replaced by its
    transform. *)
Theorem normalizeHttpPath_segmentwise (p : string) :
  exists q : string,
    normalizeHttpPath transform (VString p) = VString q /\
    split "/" q =
      map (fun seg => if String.eqb seg "" || contains ":" seg then seg
                      else transform seg)
          (split "/" p) /\
    length (split "/" q) = length (split "/" p).
Proof.
  assert (Hsplit : split "/" (join "/" (map (flushRun (normalizeSegment transform))
                                            (split "/" p))) =
                   map (fun seg => if String.eqb seg "" || contains ":" seg then seg
                                   else transform seg)
                       (split "/" p)).
  { rewrite (split_normalized transform transform_no_slash).
    apply map_ext. intros seg. unfold flushRun, normalizeSegment.
    destruct seg as [|c seg]; [reflexivity|]. cbn [String.eqb orb].
    now destruct (contains ":" (String c seg)). }
  eexists. split; [apply normalizeHttpPath_split|]. split; [exact Hsplit|].
  now rewrite Hsplit, length_map.
Qed.

End Segmentwise.

Lemma normalizeHttpPath_segmentwise_witness :
  exists q : string,
    normalizeHttpPath Inflection.transform (VString "/MyClass/:id/findByName") =
      VString q /\
    split "/" q =
      map (fun seg => if String.eqb seg "" || contains ":" seg then seg
                      else Inflection.transform seg)
          (split "/" "/MyClass/:id/findByName") /\
    length (split "/" q) = length (split "/" "/MyClass/:id/findByName").
Proof.
  apply (normalizeHttpPath_segmentwise Inflection.transform
           InflectionFacts.transform_no_slash "/MyClass/:id/findByName").
Defined.

(** ** The listing of the routes *)

Lemma collapseSlashes_fixed (s : string) :
  doubledSlash s = false -> collapseSlashes s = s.
Proof.
  induction s as [|c s IH]; [reflexivity|].
  destruct s as [|d s]; [reflexivity|].
  change (doubledSlash (String c (String d s)))
    with ((Ascii.eqb c "/" && Ascii.eqb d "/") || doubledSlash (String d s)).
  intros H. apply orb_false_iff in H as [Hcd Hs].
  change (collapseSlashes (String c (String d s)))
    with (if Ascii.eqb c "/" && Ascii.eqb d "/"
          then String "/" (collapseSlashes s)
          else String c (collapseSlashes (String d s))).
  now rewrite Hcd, (IH Hs).
Qed.

Lemma doubledSlash_dropLast (s : string) :
  doubledSlash s = false -> doubledSlash (dropLast s) = false.
Proof.
  induction s as [|c s IH]; [reflexivity|].
  destruct s as [|d s]; [reflexivity|].
  change (doubledSlash (String c (String d s)))
    with ((Ascii.eqb c "/" && Ascii.eqb d "/") || doubledSlash (String d s)).
  intros H. apply orb_false_iff in H as [Hcd Hs]. specialize (IH Hs).
  change (dropLast (String c (String d s))) with (String c (dropLast (String d s))).
  destruct s as [|e s]; [reflexivity|].
  change (dropLast (String d (String e s))) with (String d (dropLast (String e s))) in *.
  change (doubledSlash (String c (String d ?t)))
    with ((Ascii.eqb c "/" && Ascii.eqb d "/") || doubledSlash (String d t)).
  now rewrite Hcd, IH.
Qed.

Lemma last_append_unit (s : string) (c : ascii) :
  last (s ++ String c "") = Some (String c "") /\ dropLast (s ++ String c "") = s.
Proof.
  induction s as [|a s [IHl IHd]]; [split; reflexivity|].
  cbn [String.append]. destruct (s ++ String c "")%string as [|b t] eqn:E.
  - destruct s; discriminate.
  - change (last (String a (String b t))) with (last (String b t)).
    change (dropLast (String a (String b t))) with (String a (dropLast (String b t))).
    split; [exact IHl | now rewrite IHd].
Qed.

Lemma doubledSlash_before_slash (s : string) :
  doubledSlash (s ++ "/") = false ->
  doubledSlash s = false /\ last s <> Some "/".
Proof.
  destruct (String.eqb_spec s "") as [->|Hne]; [split; [reflexivity|discriminate]|].
  destruct (last_is_char s Hne) as [c Hc].
  rewrite (doubledSlash_append s "/" c "/" Hc eq_refl).
  intros H. apply orb_false_iff in H as [H Hcs]. apply orb_false_iff in H as [Hs _].
  split; [exact Hs|]. rewrite Hc. intros [= ->]. discriminate.
Qed.

(** X19: the path that [allRoutes] lists for a route, when the root of the class
    followed by the path of the route has no doubled slash: the one
    followed by the other, without the slash at its end if it has one.  In
    particular the route [/] of a class is listed under the root of the
    class. *)
Theorem addRoute_path (currentRoot path : string) (verb : value)
    (method : SharedMethod) :
  doubledSlash (currentRoot ++ path) = false ->
  addRoute (VString currentRoot) verb (VString path) method =
  Ok {| infoVerb := verb;
        infoPath := if eqStr (indexLast (VString (currentRoot ++ path))) "/"
                    then dropLast (currentRoot ++ path)
                    else (currentRoot ++ path)%string;
        infoMethod := stringName method |}.
Proof.
  intros H. unfold addRoute.
  enough (E : addRoutePath (VString currentRoot) (VString path) =
              Ok (if eqStr (indexLast (VString (currentRoot ++ path))) "/"
                  then dropLast (currentRoot ++ path)
                  else (currentRoot ++ path)%string)) by now rewrite E.
  unfold addRoutePath.
  destruct (String.eqb_spec path "/") as [->|Hp].
  - cbn [eqStr String.eqb Ascii.eqb Bool.eqb orb].
    destruct (last_append_unit currentRoot "/") as [Hl Hd].
    cbn [indexLast]. rewrite Hl, Hd. cbn [ofOption eqStr String.eqb Ascii.eqb Bool.eqb].
    apply doubledSlash_before_slash in H as [Hs Hlast].
    assert (E : eqStr (ofOption (last currentRoot)) "/" = false).
    { destruct (last currentRoot) as [t|]; [|reflexivity]. cbn.
      apply String.eqb_neq. congruence. }
    rewrite E. now rewrite (collapseSlashes_fixed _ Hs).
  - assert (E : eqStr (VString path) "/" || eqStr (VString path) "//" = false).
    { apply orb_false_iff. split; cbn; apply String.eqb_neq; [exact Hp|].
      intros ->. destruct (String.eqb_spec currentRoot "") as [->|Hne]; [discriminate|].
      destruct (last_is_char currentRoot Hne) as [c Hc].
      rewrite (doubledSlash_append currentRoot "//" c "/" Hc eq_refl) in H.
      cbn in H. now rewrite orb_true_r in H. }
    rewrite E. cbn [add toString].
    destruct (eqStr (indexLast (VString (currentRoot ++ path))) "/").
    + now rewrite (collapseSlashes_fixed _ (doubledSlash_dropLast _ H)).
    + now rewrite (collapseSlashes_fixed _ H).
Qed.

Lemma addRoute_path_witness :
  addRoute (VString "/Widget") (VString "get") (VString "/prototype/:id/count/")
           Sample.count =
  Ok {| infoVerb := VString "get"; infoPath := "/Widget/prototype/:id/count";
        infoMethod := "Widget.prototype.count" |}.
Proof.
  apply (addRoute_path "/Widget" "/prototype/:id/count/" (VString "get") Sample.count).
  reflexivity.
Defined.

(** ** The error handler *)

Section ErrorHandlerFacts.
Context {Err : Type}.

Lemma defaultHandlers_passes (err : Err) (calls : list (option Err)) :
  length (defaultHandlers err calls) = length calls /\
  (forall i e, defaultHandlers err calls !! i = Some e ->
               e = err \/ Some e ∈ calls) /\
  (forall i e, calls !! i = Some (Some e) ->
               defaultHandlers err calls !! i = Some e) /\
  (forall i e, defaultHandlers err calls !! i = Some e ->
               calls !! S i = Some None ->
               defaultHandlers err calls !! S i = Some e).
Proof.
  revert err. induction calls as [|c calls IH]; intros err.
  - repeat split; intros; discriminate.
  - cbn [defaultHandlers].
    set (err' := match c with Some e => e | None => err end).
    destruct (IH err') as (Hlen & Hin & Hset & Hkeep).
    split; [cbn; now rewrite Hlen|]. split; [|split].
    + intros [|i] e H.
      * injection H as <-. subst err'. destruct c as [e|]; [right; left | now left].
      * destruct (Hin i e H) as [->|He]; [|right; now right].
        subst err'. destruct c as [e|]; [right; left | now left].
    + intros [|i] e H; [|now apply Hset]. injection H as ->. reflexivity.
    + intros [|i] e H Hnone.
      * injection H as <-. destruct calls as [|c' calls]; [discriminate|].
        injection Hnone as ->. reflexivity.
      * now apply Hkeep.
Qed.

(** X20: what [restErrorHandler] reports.  Without a handler of the
    application, the error is passed on as it is, once.  With one, an
    error is passed on at each call of [defaultHandler], and for what the
    handler throws: each is the error of the request or an error that the
    handler gave; an error given at a call is the one passed on at that
    call, and it stays the error passed on at the next call when that one
    gives none, the error of the request being lost; what the handler
    throws is passed on. *)
Theorem restErrorHandler_errors (handler : option (Err -> HandlerRun Err)) (err : Err) :
  (handler = None -> restErrorHandler handler err = [err]) /\
  (forall h, handler = Some h ->
     let calls :=
       defaultCalls (h err)
       ++ match handlerThrows (h err) with Some e => [e] | None => [] end
       ++ laterCalls (h err) in
     let passed := restErrorHandler handler err in
     length passed = length calls /\
     (forall i e, passed !! i = Some e -> e = err \/ Some e ∈ calls) /\
     (forall i e, calls !! i = Some (Some e) -> passed !! i = Some e) /\
     (forall i e, passed !! i = Some e -> calls !! S i = Some None ->
                  passed !! S i = Some e) /\
     (forall e, handlerThrows (h err) = Some (Some e) -> e ∈ passed)).
Proof.
  split; [now intros ->|]. intros h ->. cbv zeta. cbn [restErrorHandler].
  set (calls := defaultCalls (h err) ++ _ ++ laterCalls (h err)).
  destruct (defaultHandlers_passes err calls) as (Hlen & Hin & Hset & Hkeep).
  split; [exact Hlen|]. split; [exact Hin|]. split; [exact Hset|].
  split; [exact Hkeep|].
  intros e He.
  assert (Hcall : calls !! length (defaultCalls (h err)) = Some (Some e)).
  { subst calls. rewrite He. rewrite lookup_app_r by lia.
    now rewrite Nat.sub_diag. }
  eapply list_elem_of_lookup_2. apply (Hset _ _ Hcall).
Qed.

End ErrorHandlerFacts.

Lemma restErrorHandler_errors_witness :
  restErrorHandler
    (Some (fun _ : string =>
             {| defaultCalls := [Some "replaced"; None]; handlerThrows := None;
                laterCalls := [] |}))
    "not found" !! 1%nat = Some "replaced".
Proof.
  apply (proj1 (proj2 (proj2 (proj2
           (proj2 (restErrorHandler_errors
                     (Some (fun _ : string =>
                              {| defaultCalls := [Some "replaced"; None];
                                 handlerThrows := None; laterCalls := [] |}))
                     "not found")
                  _ eq_refl))))
           0%nat "replaced");
    reflexivity.
Defined.

(** ** Deriving the routes again *)

Lemma getRoutes_again_witness :
  getRoutes Inflection.transform
    (patched Inflection.transform (objOfMethod Sample.count)
             (Some Sample.normalizing))
    (Some Sample.normalizing) =
  getRoutes Inflection.transform (objOfMethod Sample.count) (Some Sample.normalizing).
Proof.
  apply (getRoutes_again Inflection.transform InflectionFacts.transform_no_slash
           InflectionFacts.transform_idempotent).
  repeat constructor.
Defined.

(** ** The shared constructor is not a method of the adapter *)

Lemma insertSorted_perm {A : Type} (compare : A -> A -> result Z) (x : A)
    (l sorted : list A) :
  insertSorted compare x l = Ok sorted -> Permutation (x :: l) sorted.
Proof.
  revert sorted. induction l as [|y l IH]; intros sorted; cbn [insertSorted].
  - now intros [= <-].
  - destruct (compare x y) as [c|]; [|discriminate]. cbn.
    destruct (c <=? 0); [now intros [= <-]|].
    destruct (insertSorted compare x l) as [l'|]; [|discriminate]. cbn.
    intros [= <-]. rewrite perm_swap. apply perm_skip. now apply IH.
Qed.

Lemma sort_perm {A : Type} (compare : A -> A -> result Z) (l sorted : list A) :
  sort compare l = Ok sorted -> Permutation l sorted.
Proof.
  revert sorted. induction l as [|x l IH]; intros sorted; cbn [sort].
  - now intros [= <-].
  - destruct (sort compare l) as [l'|]; [|discriminate]. cbn. intros H.
    apply insertSorted_perm in H. rewrite <- H. apply perm_skip. now apply IH.
Qed.

Section SharedConstructor.
Variable transform : string -> string.
Variable isRouterMethod : string -> bool.
Variable memberError : string -> value -> option string.
Variable inheritedName : string -> bool.

Lemma forEach_register_entries (l : list RouteEntry) (registered : list ClassLayer) :
  forEach (fun m => _registerMethodRouteHandlers isRouterMethod memberError (method m) (route m)) l
    = Ok registered ->
  forall v p h, MethodRoute v p h ∈ registered ->
    exists e, e ∈ l /\ h = handlerOf (method e).
Proof.
  revert registered. induction l as [|x l IH]; intros registered.
  - intros [= <-] v p h Hl. now apply elem_of_nil in Hl.
  - cbn [forEach].
    destruct (_registerMethodRouteHandlers _ _ _ _) as [y|] eqn:Ey; [|discriminate].
    destruct (forEach _ l) as [ys|]; [|discriminate]. cbn. intros [= <-] v p h Hl.
    apply elem_of_cons in Hl as [E|Hl].
    + exists x. split; [now left|]. subst y.
      unfold _registerMethodRouteHandlers in Ey.
      destruct (if eqStr _ _ then _ else _); try discriminate.
      destruct (isRouterMethod _); [now injection Ey as _ _ <-|].
      destruct (memberError _ _); [discriminate|]. now injection Ey as _ _ <-.
    + destruct (IH ys eq_refl v p h Hl) as (e & He & Hh).
      exists e. split; [now right | exact Hh].
Qed.

(** X21: the router of a class that the adapter builds has a handler for the
    methods of the class only, the shared constructor apart: each handler
    of a route is the one of a method of the class that is not the shared
    constructor, the static handler for a static method and the prototype
    handler, which invokes the shared constructor first, for any other. *)
Theorem classRouter_handlers (handleUnknownPaths : bool) (sc : SharedClass)
    (adapterOptions : option Options) (router : list ClassLayer) :
  classRouter isRouterMethod memberError handleUnknownPaths
              (newRestClass transform sc adapterOptions) = Ok router ->
  forall v p h, MethodRoute v p h ∈ router ->
    exists sm, sm ∈ methods sc /\ isSharedCtor sm = false /\
      ((isStatic sm = true /\ h = restStaticMethodHandler sm) \/
       (isStatic sm = false /\ h = restPrototypeMethodHandler sm)).
Proof.
  unfold classRouter.
  destruct (sort sortRoutes _) as [sorted|] eqn:Es; [|discriminate]. cbn.
  destruct (forEach _ sorted) as [registered|] eqn:Er; [|discriminate]. cbn.
  intros [= <-] v p h Hl.
  apply elem_of_app in Hl as [Hl|Hl].
  - destruct (forEach_register_entries _ _ Er v p h Hl) as (e & He & ->).
    apply sort_perm in Es.
    assert (Hin : e ∈ classEntries (newRestClass transform sc adapterOptions)).
    { apply list_elem_of_In. eapply Permutation_in; [symmetry; exact Es|].
      now apply list_elem_of_In. }
    unfold classEntries in Hin. apply list_elem_of_In, in_flat_map in Hin
      as (rm & Hrm & Hin).
    apply in_map_iff in Hin as (r & <- & _). cbn [method].
    apply list_elem_of_In, restMethods_elem in Hrm as (sm & Hsm & Hc & ->).
    exists sm. split; [exact Hsm|]. split; [exact Hc|].
    cbn [sharedMethod newRestMethod]. unfold handlerOf.
    destruct (isStatic sm); [left | right]; now split.
  - destruct handleUnknownPaths.
    + apply list_elem_of_singleton in Hl. discriminate.
    + now apply elem_of_nil in Hl.
Qed.

(** X22: the index of the methods never holds the shared constructor: a method
    found by its name, on an adapter that has no cache yet, is a method of
    a class of the registry that is not a shared constructor, that is
    enabled, and whose full name is the name. *)
Theorem getRestMethodByName_not_shared_ctor (options : Options)
    (registry : list SharedClass) (isMethodEnabled : SharedMethod -> bool)
    (name : string) (st : IndexState) (restMethod : RestMethod) :
  _cachedRestMethodsByName st = None ->
  fst (getRestMethodByName transform inheritedName options registry
                           isMethodEnabled name st) =
    Ok (Some restMethod) ->
  exists sc, sc ∈ registry /\
    sharedMethod restMethod ∈ methods sc /\
    isSharedCtor (sharedMethod restMethod) = false /\
    isMethodEnabled (sharedMethod restMethod) = true /\
    stringName (sharedMethod restMethod) = name.
Proof.
  intros Hst. unfold getRestMethodByName, cacheGet. rewrite Hst. cbn.
  destruct (_createRestMethodByNameCache _ !! name) as [m|] eqn:Em;
    [|destruct (inheritedName name); discriminate].
  cbn. destruct (isMethodEnabled (sharedMethod m)) eqn:Ee; [|discriminate].
  intros [= <-]. rewrite cache_lookup in Em.
  apply find_some in Em as [Hin Heq]. apply String.eqb_eq in Heq.
  apply in_rev, in_flat_map in Hin as (rc & Hrc & Hin).
  unfold getClasses in Hrc. apply in_map_iff in Hrc as (sc & <- & Hsc).
  apply list_elem_of_In, restMethods_elem in Hin as (sm & Hsm & Hc & ->).
  exists sc. cbn [sharedMethod fullName newRestMethod] in *.
  split; [now apply list_elem_of_In|]. now repeat split.
Qed.

End SharedConstructor.

Lemma classRouter_handlers_witness :
  exists sm, sm ∈ methods Sample.Widget /\ isSharedCtor sm = false /\
    ((isStatic sm = true /\
      restPrototypeMethodHandler Sample.count = restStaticMethodHandler sm) \/
     (isStatic sm = false /\
      restPrototypeMethodHandler Sample.count = restPrototypeMethodHandler sm)).
Proof.
  apply (classRouter_handlers Inflection.transform Express.isRouterMethod
           Sample.memberError true
           Sample.Widget (Some Sample.noOptions)
           [MethodRoute (VString "get") (VString "/prototype/:id/count")
              (restPrototypeMethodHandler Sample.count);
            MethodRoute (VString "all") (VString "/find")
              (restStaticMethodHandler Sample.find);
            RemoteMethodNotFound (VString "Widget")]
           eq_refl (VString "get") (VString "/prototype/:id/count")).
  left.
Defined.

Lemma getRestMethodByName_not_shared_ctor_witness :
  exists sc, sc ∈ [Sample.Widget] /\
    sharedMethod Sample.restFind ∈ methods sc /\
    isSharedCtor (sharedMethod Sample.restFind) = false /\
    true = true /\
    stringName (sharedMethod Sample.restFind) = "Widget.find".
Proof.
  apply (getRestMethodByName_not_shared_ctor Inflection.transform
           ObjectPrototype.inheritedName Sample.noOptions
           [Sample.Widget] (fun _ => true) "Widget.find"
           {| _cachedRestMethodsByName := None; cacheBuilds := 0 |}
           Sample.restFind);
    reflexivity.
Defined.

(** ** The credentials of an invocation *)

Lemma someArg_elem {A : Type} (accepts : list Accept) (argName : value)
    (invokedArgs : list A) (i : nat) (x : A) :
  someArg accepts argName invokedArgs i = Ok (Some x) -> x ∈ invokedArgs.
Proof.
  revert i. induction accepts as [|a accepts IH]; intros i; cbn [someArg];
    [discriminate|].
  destruct (if truthy (arg a) then _ else _) as [[|]|]; cbn; [| |discriminate].
  - intros [= H]. eapply list_elem_of_lookup_2. exact H.
  - apply IH.
Qed.

Section InvocationAuth.
Variable transform : string -> string.
Variable inheritedName : string -> bool.
Context {Item Token Auth Err : Type}.
Variable accessTokenOf : Item -> option Token.
Variable accepts : SharedMethod -> option (list Accept).
Variable execHooksBefore : Invocation Item Token Auth -> option Err.
Variable invocationInvoke : Invocation Item Token Auth -> Err + list Item.
Variable execHooksAfter : Invocation Item Token Auth -> list Item -> option Err.

(** X23: the credentials that [invoke] gives an invocation.  The credentials of
    the remotes, when there are some, are the ones used, whatever the
    caller passes.  Without them, an access token is used only when the
    option [passAccessToken] is set, and it is then the token of one of
    the arguments of the call; when the option is not set, the invocation
    has no credentials, whatever the arguments hold. *)
Theorem invoke_auth (remotesAuth : option Auth) (passAccessToken : value)
    (adapterOptions : Options) (registry : list SharedClass)
    (isMethodEnabled : SharedMethod -> bool) (connection : value)
    (arguments : list (Arg Item)) (st : IndexState)
    (invocation : Invocation Item Token Auth) :
  BeforeHooks invocation ∈
    invokeEvents
      (fst (invoke transform inheritedName accessTokenOf accepts execHooksBefore
              invocationInvoke execHooksAfter remotesAuth passAccessToken
              adapterOptions registry isMethodEnabled connection arguments st)) ->
  (forall auth, remotesAuth = Some auth -> invAuth invocation = GlobalAuth auth) /\
  (remotesAuth = None -> truthy passAccessToken = false ->
   invAuth invocation = NoAuth) /\
  (forall accessToken, invAuth invocation = AccessToken accessToken ->
     remotesAuth = None /\ truthy passAccessToken = true /\
     exists item, item ∈ invArgs invocation /\
                  accessTokenOf item = Some accessToken).
Proof.
  unfold invoke.
  destruct (truthy connection); cbn [negb fst invokeEvents];
    [|intros H; now apply elem_of_nil in H].
  destruct (arguments !! 0%nat) as [[items|f|v]|];
    try (intros H; now apply elem_of_nil in H).
  destruct v as [| | | | |method|]; try (intros H; now apply elem_of_nil in H).
  set (callback := match lastOf arguments with
                   | Some (ArgFunction f) => Some f
                   | _ => None
                   end).
  destruct (match arguments !! 2%nat with
            | Some (ArgArray items) => _
            | _ => _
            end) as [ctorArgs args].
  destruct (getRestMethodByName _ _ _ _ _ _ _) as [[[restMethod|]|message] st'];
    [| |intros H; now apply elem_of_nil in H].
  - destruct (getArgByName _ _ _) as [invokeOptions|message] eqn:Eo;
      [|intros H; now apply elem_of_nil in H].
    cbn [fst]. unfold invokeFound. cbn [andThen invokeEvents].
    intros H.
    assert (E : invocation =
                {| invRestMethod := restMethod; invCtorArgs := ctorArgs;
                   invArgs := args;
                   invAuth := _getInvocationAuth accessTokenOf remotesAuth
                                passAccessToken invokeOptions |}).
    { apply elem_of_cons in H as [[= ->]|H]; [reflexivity|]. exfalso.
      destruct (execHooksBefore _); destruct callback; cbn in H;
        repeat (apply elem_of_cons in H as [H|H]; [discriminate|]);
        try (now apply elem_of_nil in H).
      all: destruct (invocationInvoke _); cbn in H;
        repeat (apply elem_of_cons in H as [H|H]; [discriminate|]);
        try (now apply elem_of_nil in H).
      all: destruct (execHooksAfter _ _); cbn in H;
        repeat (apply elem_of_cons in H as [H|H]; [discriminate|]);
        now apply elem_of_nil in H. }
    subst invocation. cbn [invAuth invArgs]. unfold _getInvocationAuth.
    split; [now intros auth ->|]. split; [now intros -> ->|].
    intros accessToken.
    destruct remotesAuth as [auth|]; [discriminate|].
    destruct (truthy passAccessToken); cbn [negb]; [|discriminate].
    destruct invokeOptions as [item|]; cbn; [|discriminate].
    destruct (accessTokenOf item) as [t|] eqn:Et; [|discriminate].
    intros [= <-]. split; [reflexivity|]. split; [reflexivity|].
    exists item. split; [|exact Et].
    unfold getArgByName in Eo.
    destruct (accepts (sharedMethod restMethod)) as [[|a l]|]; try discriminate.
    now apply someArg_elem in Eo.
  - cbn [fst]. destruct callback; cbn; intros H.
    + apply list_elem_of_singleton in H. discriminate.
    + now apply elem_of_nil in H.
Qed.

End InvocationAuth.

Lemma invoke_auth_witness :
  invAuth (Item := string) (Token := string) (Auth := string)
    {| invRestMethod := Sample.restFind; invCtorArgs := []; invArgs := ["token-1"];
       invAuth := NoAuth |} = NoAuth.
Proof.
  apply (proj1 (proj2
           (invoke_auth (Err := string) Inflection.transform
              ObjectPrototype.inheritedName
              (fun item : string => Some item)
              (fun _ => Some [ {| arg := VString "options" |} ])
              (fun _ => None) (fun _ => inr []) (fun _ _ => None)
              None VUndefined Sample.noOptions [Sample.Widget] (fun _ => true)
              (VString "http://localhost:3000")
              [ArgValue (VString "Widget.find"); ArgArray ["token-1"]; ArgFunction 0]
              {| _cachedRestMethodsByName := None; cacheBuilds := 0 |}
              {| invRestMethod := Sample.restFind; invCtorArgs := [];
                 invArgs := ["token-1"]; invAuth := NoAuth |}
              (list_elem_of_here _ _))));
    reflexivity.
Defined.

(** ** Joining three paths *)

Lemma last_append (p t : string) : t <> "" -> last (p ++ t) = last t.
Proof.
  intros Ht. induction p as [|a p IH]; [reflexivity|].
  cbn [String.append]. destruct (p ++ t)%string as [|b u] eqn:E.
  - destruct p; [cbn in E; congruence | discriminate].
  - change (last (String a (String b u))) with (last (String b u)). exact IH.
Qed.

Lemma last_slice1 (s : string) : slice1 s <> "" -> last (slice1 s) = last s.
Proof.
  destruct s as [|e s]; [reflexivity|]. cbn [slice1].
  destruct s; [congruence | reflexivity].
Qed.

(** What [joinPaths] adds to a prefix that is not empty, for a suffix that
    is neither empty nor [/]: an end that is not empty, that ends as the
    suffix does, and that is extended as the suffix is. *)
Lemma joinPaths_appends (p s : string) :
  p <> "" -> s <> "" -> s <> "/" ->
  exists t, t <> "" /\ last t = last s /\
    joinPaths (VString p) (VString s) = VString (p ++ t) /\
    forall u, joinPaths (VString p) (VString (s ++ u)) = VString (p ++ t ++ u).
Proof.
  intros Hp Hs Hsl. destruct (last_is_char p Hp) as [c Hc].
  destruct (first_is_char s Hs) as [d Hd].
  assert (Hext : forall u, first (s ++ u) = Some (String d "")).
  { intros u. destruct s; [discriminate | exact Hd]. }
  assert (Hne : forall u, (s ++ u)%string <> "/").
  { intros u. destruct s as [|e s]; [congruence|]. cbn.
    destruct s as [|e' s]; cbn; [|discriminate].
    destruct u; [rewrite ?append_empty_r; congruence | discriminate]. }
  pose proof (joinPaths_strings p s c d Hc Hd Hsl) as E.
  pose proof (fun u => joinPaths_strings p (s ++ u) c d Hc (Hext u) (Hne u)) as Eu.
  destruct (Ascii.eqb c "/"); [destruct (Ascii.eqb_spec d "/") as [->|Hds]|
                               destruct (Ascii.eqb d "/")] .
  - exists (slice1 s).
    assert (Hn : slice1 s <> "").
    { destruct s as [|e s]; [congruence|]. cbn. injection Hd as ->. congruence. }
    split; [exact Hn|]. split; [now apply last_slice1|]. split; [exact E|].
    intros u. rewrite Eu. do 2 f_equal. destruct s; [congruence | reflexivity].
  - exists s. split; [exact Hs|]. split; [reflexivity|]. split; [exact E|].
    intros u. now rewrite Eu.
  - exists s. split; [exact Hs|]. split; [reflexivity|]. split; [exact E|].
    intros u. now rewrite Eu.
  - exists ("/" ++ s)%string. split; [discriminate|].
    split; [apply (last_append "/" s Hs)|]. split; [exact E|].
    intros u. rewrite Eu. do 2 f_equal.
Qed.

(** X24: [joinPaths] is associative on strings: three paths joined give the
    same path whichever two are joined first. *)
Theorem joinPaths_associative (a b c : string) :
  joinPaths (joinPaths (VString a) (VString b)) (VString c) =
  joinPaths (VString a) (joinPaths (VString b) (VString c)).
Proof.
  destruct (String.eqb_spec a "") as [->|Ha]; [reflexivity|].
  destruct (String.eqb_spec b "") as [->|Hb].
  { now rewrite joinPaths_empty_right. }
  destruct (String.eqb_spec c "") as [->|Hc].
  { destruct (joinPaths_prefix a b) as (q & Eq & _).
    now rewrite Eq, !joinPaths_empty_right. }
  destruct (String.eqb_spec c "/") as [->|Hcs].
  { rewrite (joinPaths_slash_right b Hb).
    destruct (joinPaths_prefix a b) as (q & -> & Hq).
    apply joinPaths_slash_right. intros ->. destruct a; [congruence | discriminate]. }
  destruct (String.eqb_spec b "/") as [->|Hbs].
  - rewrite (joinPaths_slash_right a Ha).
    destruct (last_is_char a Ha) as [x Hx]. destruct (first_is_char c Hc) as [d Hd].
    rewrite (joinPaths_strings "/" c "/" d eq_refl Hd Hcs).
    rewrite (joinPaths_strings a c x d Hx Hd Hcs).
    change (Ascii.eqb "/" "/") with true. cbv iota.
    destruct (Ascii.eqb_spec d "/") as [->|Hds].
    + assert (Ec : ("/" ++ slice1 c)%string = c)
        by (destruct c as [|e c]; [congruence|]; now injection Hd as ->).
      rewrite Ec. now rewrite (joinPaths_strings a c x "/" Hx Hd Hcs).
    + assert (Hd' : first ("/" ++ c) = Some "/") by reflexivity.
      assert (Hn : ("/" ++ c)%string <> "/") by (cbn; congruence).
      rewrite (joinPaths_strings a ("/" ++ c) x "/" Hx Hd' Hn).
      change (Ascii.eqb "/" "/") with true. cbv iota.
      change (slice1 ("/" ++ c)) with c.
      now destruct (Ascii.eqb x "/").
  - destruct (joinPaths_appends b c Hb Hc Hcs) as (t & Ht & Hlt & Ebc & _).
    destruct (joinPaths_appends a b Ha Hb Hbs) as (s & Hs & Hls & Eab & Eext).
    rewrite Ebc, Eab, (Eext t).
    assert (Hab : (a ++ s)%string <> "") by (destruct a; [congruence | discriminate]).
    destruct (last_is_char (a ++ s) Hab) as [y Hy].
    destruct (last_is_char b Hb) as [z Hz].
    assert (y = z).
    { rewrite (last_append a s Hs), Hls, Hz in Hy. congruence. }
    subst y. destruct (first_is_char c Hc) as [d Hd].
    rewrite (joinPaths_strings (a ++ s) c z d Hy Hd Hcs).
    pose proof (joinPaths_strings b c z d Hz Hd Hcs) as E. rewrite Ebc in E.
    injection E as E.
    assert (Et : forall t', (b ++ t = b ++ t')%string -> t = t').
    { intros t'. clear. induction b as [|e b IH]; cbn; [easy|].
      intros [= H]. now apply IH. }
    destruct (Ascii.eqb z "/"); [destruct (Ascii.eqb d "/")|destruct (Ascii.eqb d "/")];
      apply Et in E; subst t; now rewrite append_assoc.
Qed.
